(* ===== verification/_CoqProject ===== *)
-Q . S2P
Prelude.v
Tokens.v
Ast.v
TokenBuffer.v
Folding.v
ExprParser.v
StmtParser.v
Statements.v
LegacyTokens.v
SemanticStack.v
TreeQueries.v
DocCache.v
Queries.v
Server.v
