(* ===== verification/Prelude.v ===== *)
(** * A verification development of the AutoHotkey language server

    The program is the language server of [vscode-autohotkey].  Its core
    is the parser of [src/server/src/parser/newtry/parser/parser.ts]
    (class [AHKParser]) and the syntax nodes of
    [src/server/src/parser/newtry/parser/models/suffixterm.ts].  The
    parser reads tokens from a Token Source through a Token Buffer
    ([advance], [peek], [backto]), parses statements by recursive
    descent ([declaration] and the statement methods), parses
    expressions by precedence climbing ([expression] and its [while]
    loop) over suffix terms ([factor], [suffixTerm], [atom]), and
    recovers from errors by throwing a [ParseError] that [expression]
    and [declaration] catch, followed by [synchronize].  The nodes print
    themselves back with [toLines].

    Around the parser, [src/server/src/server.ts] registers the LSP
    handlers.  They pass documents to the Tree Manager of
    [src/server/src/services/treeManager.ts], which parses each document
    with [AHKParser], loads its [#Include] files into a cache and links
    their symbol tables.  For signature help the Tree Manager runs an
    older one-line parser, the [SemanticStack] of [parser/regParser]
    (not among the sources), on the text of the line before the cursor;
    [src/server/src/semantic_stack.ts] is a parser of the same kind
    under the sources, over the token enumeration of
    [src/server/src/utilities/types.ts].

    ** Files

    - [Prelude] (this file): the state and exception monad [StExc] with
      its [let*] notation (scope [ahk_scope]), the tactics [solve_nothrow],
      [inv_ok] and [inv_ok_all], the hint databases [ahk] and [ahk_rw],
      and the JavaScript array idioms of [toLines].
    - [Tokens]: the enumeration [TokenType.type], tokens, positions, the
      tables [Precedences] and [UnaryPrecedence], the Token Source (a list
      of lexemes read in a context: type hint, hotkey flag, literal flag)
      and the ranges of the enumeration as named sets.  The modules
      [tokenizor/tokenTypes], [models/precedences] and
      [tokenizor/tokenizer] are not among the sources; they are modelled
      from the spec.
    - [Ast]: the node types.  [Atom], [Trailer], [SuffixTerm],
      [SuffixTrailer] and [Pair] follow [suffixterm.ts] class by class;
      [Expr] and [Stmt] carry the arguments the parser passes to the
      constructors of [models/expr] and [models/stmt] (not among the
      sources).  [atom_lines] ... [pair_lines] are the [toLines] methods,
      [*_start] and [*_end] the getters [start] and [end], [*_ranges]
      the getters [ranges] (a constituent stands for its [Span]).  The
      [toLines] methods return an [option]: [None] is the [TypeError] of
      [BracketIndex], which holds one expression where its [toLines]
      expects an array.
    - [TokenBuffer]: the record [AHKParser] (the fields of the class),
      the monad [PM] over it, and the buffer methods [nextToken],
      [advance], [previous], [peek], [backto], [eat], [eatAndThrow],
      [eatDiscardCR], [check], [matchTokens], [terminal],
      [jumpWhiteSpace], [atLineEnd], [synchronize] and the constructor
      ([start_buffer]).  [advance] and [peek] share [fetch], the reading
      of a token with the folding of line ends.
    - [Folding]: the stream of tokens the spec describes (section 4.1)
      as a function [fold_stream], and the refinement theorem that the
      buffer serves that stream under any interleaving of [advance],
      [peek] and [backto].
    - [ExprParser]: [expression] with its Pratt loop [pratt], [factor]
      and its chain loop, [suffixTerm], [atom], array and associative
      array literals, [pair], index and call trailers, [emptyArg] and
      [testExpr]: one mutual [Fixpoint].
    - [StmtParser]: the statement methods, [func] and [parameters] (the
      function-or-call disambiguation), and [parse]: one mutual
      [Fixpoint] for the methods that call [declaration] back, plain
      definitions for the others.
    - [Statements]: [parse] on short programs in the layouts AutoHotkey
      programs use, and the error-locality examples.
    - [LegacyTokens]: module [Legacy] with the enumeration of
      [utilities/types.ts] and the numbering TypeScript gives it ([ord]),
      since the [SemanticStack] tests ranges of it; [Token] and
      [createToken].
    - [SemanticStack]: the class [SemanticStack] as a record
      (tokenizer, current token) and its methods in [StExc]: [eat],
      [variable], [literal], the mutual [Fixpoint] [factor], [expr]
      (with its loop [expr_loop]), [funcCall], [classCall], then
      [assignment] and [statement].  The tokenizer of [./tokenizer] is not
      under [src/]: it is the class [SemTokenizer] with the law
      [TokenMeasure] (each [GetNextToken] before the end lowers a
      measure), and [ListTokenizer] is an instance over lists of tokens
      for the examples.  The node classes of [./asttypes] are the
      inductive [SNode], with the [CommandCall] of [regParser/asttypes].
      Through [Queries.semantic_line_parser] this parser is an instance
      of the line parser [getFuncAtPosition] is stated against.
    - [TreeQueries]: the pure helpers of the Tree Manager on line texts
      (lists of UTF-16 code units): [getChar], [getWordAtPosition],
      [getLexemsAtPosition], [isLessPosition], [getCurrentScoop],
      [arrayFilter], [getFuncPrototype], [findActiveSignature],
      [convertBuiltin2Signature], [getUnfinishedFunc] and the choice of
      the call a signature help is about ([signature_target], commands
      included), with the
      tree of scopes and symbols of the analyzer ([Scoop], [Sym]).
    - [DocCache]: the state of the Tree Manager (the maps [serverDocs],
      [docsAST], [localAST], [incInfos] and [currentDocUri]) over a class
      [Host] for the libraries it calls ([TextDocument], [URI], [path],
      [os], [IoService]), and its methods [initDocument],
      [selectDocument], [updateDocumentAST] (with the include queue
      [include_loop]), [include2Path], [linkInclude],
      [deleteUnusedDocument], [getLine], [LineTextToPosition] and
      [allIncludeTreeinfomation].  A JavaScript [Map] whose order matters
      is an association list ([JsMap]); the maps of the class are stdpp
      [gmap]s.  A symbol table is modelled by the include files linked to
      it.  [ExHost] is a host over a small file system for the examples.
    - [Queries]: the queries of the Tree Manager over the symbol tables,
      against the class [Analyzer] (what the analyzer of
      [parser/newtry/analyzer], not under [src/], provides: the table of
      a tree, [resolve], [resolveProp], [symbolInformations]):
      [searchPerfixSymbol], [searchNode], [convertSymCompletion],
      [getGlobalCompletion], [getScopedCompletion],
      [getDefinitionAtPosition], [docSymbolInfo], [includeDirCompletion],
      [searchNodeAtPosition], [convertParamsCompletion], and
      [getFuncAtPosition] whole (the joining of previous lines
      [attach_loop], the parse of the line, the built-in commands of a
      [CommandCall], the search of the symbol and of the built-in
      functions).  The [SemanticStack] that [treeManager.ts] imports is
      not among the sources: [getFuncAtPosition] is stated against the
      class [LineParser], its [statement()] on a text.  [LineHost],
      [ExAnalyzer], the tokenizer [LexTokenizer] and
      [semantic_line_parser] are instances for the examples.
    - [Server]: the module-level state of [server.ts] ([ServerState]), one
      definition per handler ([onInitialize], [onDidChangeConfiguration],
      [onDidOpen], [onDidChangeContent], [onDidClose],
      [onDocumentSymbol], [onSignatureHelp], [onDefinition],
      [onCompletion], [onCompletionResolve]), the function
      [server_handle] from an event to its handler's new state and
      reply, [server_step] and the relation [reachable], and
      [getDocumentSettings] and [flatTree], which nothing calls.

    ** Correspondence with the code

    Each method of [AHKParser] is a definition of the same name (the
    names [drective], [sytanxErrors], [OptionalAssginStmt] keep the
    source's spelling).  A method is a computation of [PM A := AHKParser
    -> outcome ParseError A * AHKParser]: [this.x = v] is a change of the
    record, [throw] is [Throw], and [try]/[catch] is [catchM], which
    keeps the state reached before the throw, as JavaScript does.  Each
    [while] or [do ... while] loop is a function of its own whose
    parameters are the local variables the loop updates ([pratt],
    [factor_chain], [block_loop], [switch_loop], [parse_loop], ...).
    The methods of [SemanticStack] follow the same scheme in the monad
    [SM] over the record [SemanticStack].  The methods of [TreeManager]
    that change its state are functions from a [TreeManager] record to
    the next one ([loadDocumnet] returns an [option]; the [await]s of
    [updateDocumentAST] run in sequence, not interleaved with other
    handlers).  A handler of [server.ts] runs to its end before the next.

    ** Fuel

    Every method and every round of a loop takes one unit of [fuel];
    with none left the result is [OutOfFuel], which no [catchM]
    intercepts, as no [try] can stop an infinite loop.  The fuel stands
    for the JavaScript call stack and for the time a loop runs.  Concrete
    theorems use the fuel [20] to [60], which is enough for the inputs
    they run (each finishes with an [Ok]).  The theorems about loops that
    never end ([stray_else_never_returns], [switch_loop_spins],
    [drective_args_spin_at_EOF]) hold for every fuel: they are proved by
    induction on the fuel, not by running out of it once.  Two theorems
    give bounds that are always enough.  [statement_terminates]: the
    [SemanticStack] returns within [4 m + 6] units of fuel, where [m] is
    the measure of the tokenizer plus one when the current token is not
    the end of file, since each call and each loop round comes after an
    [eat] and a call costs at most four units per token.
    [updateDocumentAST_terminates]: the include queue ends within
    [K * length files + n] rounds, where [files] holds every readable
    file, each with fewer than [K] includes, and [n] is the number of
    includes of the document, since a file is read at most once.

    ** Theorems

    The claims of the development are marked (C1) to (C33) in the doc
    comments of their theorems.

    - Token Buffer: [buffer_reads_folded_stream] (refinement of the
      folded stream, with [fetch], [advance], [peek] and [backto]) and
      [continuation_after_blank_lines] (only a single line end is folded).
    - Error boundaries: [expression_nothrow] and [parse_catch_unused]
      (a [ParseError] never escapes [expression] or [declaration], and
      the [catch] of [parse] never handles one).
    - Expressions: [binary_precedence], [assignment_right_assoc],
      [ternary_right_assoc] (precedence and associativity),
      [factor_chain_at_most_two] (the chain loop keeps two links),
      [grouping_close_unchecked] (an unclosed [(] is not reported) and
      [empty_arg_outside_parent] (the [emptyArg] placeholder of a leading
      empty argument lies outside its call, for every buffer state).
    - Statements: [call_statement_only_funcdef] (the call branch of
      [func] goes back to the [(] and cannot succeed),
      [stray_else_never_returns] (a stray [else if] hangs [parse]),
      [if_else_body_shadowed] (the body of an [if] with an [else] is
      lost), [switch_loop_spins], [drective_args_spin_at_EOF],
      [drective_spurious_error] (every directive other than [#Include]
      gets an [Invalid] first argument) and
      [parameters_defaults_required].
    - Printing: [call_lines_drop_commas] (the commas of a call are
      dropped) and [index_trailer_unprintable] (an indexed value raises
      a [TypeError]).
    - Examples in [Statements] and [StmtParser]: [parse] run on layouts
      ([brace_on_condition_line], [else_catch_next_line_detached],
      [for_body_next_line], [spec_locality_example], [bad_line_local],
      [well_laid_statements], [call_statement_rejected],
      [switch_never_parses]).
    - Semantic stack: [statement_node_kinds] (the type of the nodes
      [statement] returns), [statement_terminates] (termination for every
      tokenizer that obeys [TokenMeasure]), [assignment_colon_equal_flagged]
      (every [:=] is flagged), [new_class_name_unread] ([new C] never
      reads [C]), [property_name_from_next_token] and
      [expr_loop_left_first_factor] (every operator node is built from
      the first factor and hides the errors of its right operand).
    - Tree Manager: [updateDocumentAST_terminates],
      [cached_include_not_linked] (an include cached for another
      document is not linked), [include_resolved_from_current] (includes
      are resolved against the selected document), the invariant
      [cache_inv] preserved by every method, [arrayFilter_first_block]
      (equivalence with a reference definition: the first block of
      matches), [getCurrentScoop_strict_lines] (a scope is entered only
      strictly inside its lines) and [getWordAtPosition_contains] (the
      word found holds the cursor and has word characters only).
    - Symbol queries: [searchNode_suffix_last] (the dotted name is
      followed from its outermost prefix, thanks to the in-place
      [reverse]), [completion_after_non_class_dot] (no completion after
      the dot of a variable), [attach_previous_lines_terminates] (the
      joining of previous lines ends) and [builtin_default_labels].
    - Server: [reachable_server_invariant] (by induction on
      [reachable]: the cache invariant holds and [documentSettings] stays
      empty in every reachable state, for a [uri_file] that is
      injective), [completion_resolve_no_documentation] and
      [getDocumentSettings_documentation] (the settings
      [getDocumentSettings] would fetch are what the documentation
      needs), and [slash_trigger_no_completion] (a ['/'] outside an
      [#include] line cancels completion).

    ** Not modelled

    The tokenizers themselves (character-level lexing; only their
    interfaces are modelled, see [Tokens] and [SemanticStack]), the
    logger calls, the [Script] class beyond its fields,
    [testDeclaration], and the analyzer of [parser/newtry/analyzer]
    ([PreProcesser], [SymbolTable] and the symbols, not under [src/]):
    only its interface [Analyzer] and the shape of its tree of scopes are
    modelled, so name resolution across scopes and include tables is a
    parameter.  The [SemanticStack] and node classes of
    [parser/regParser], which the Tree Manager imports, are not among the
    sources: only the interface [LineParser] is modelled.
    [retrieveResource] (file I/O, the [io_load] of the [Host]) is left
    out.  [previous()] at the first token reads [tokens[-1]], which is
    [undefined] in JavaScript; the model reads a token of type
    [unknown] there, a case no parse reaches.  In [server.ts],
    [onInitialized] and [onDidChangeWatchedFiles] are events whose
    handlers only register or log and keep the state, and
    [validateTextDocument] has an empty body, so it is not modelled.  The
    conversion of a line text to the [string] of names is a parameter
    of the [Host]; the example hosts keep code units below 256. *)

(** ** Prelude

    Notation, the parser monad and the JavaScript helpers.

    Shared by every file of the development.

    - [outcome] and [StExc]: a state and exception monad.  The TypeScript
      parser throws [ParseError] objects and catches them at fixed
      boundaries.  The state it mutated before the throw stays mutated.
      So a computation returns its outcome together with the final state:
      [Ok a], [Throw e] (a thrown [ParseError]) or [OutOfFuel].
      [OutOfFuel] stands for a recursion or loop that has not finished
      within the fuel given.  No [catch] intercepts it, just as no
      [try] of the source can stop an infinite loop.
    - the [let*] notation of scope [ahk_scope] for binding in [StExc].
    - JavaScript array idioms that the [toLines] methods of
      [src/server/src/parser/newtry/parser/models/suffixterm.ts] use:
      [lines[0] = p + lines[0]] and [lines[lines.length-1] += s].  On an
      empty array they behave in a particular way: the first creates the
      element [p + "undefined"]; the second writes the property ["-1"],
      which is not an element.  The helpers below reproduce this.
    - the hint database [ahk] and the tactic [monad_simpl]. *)

From stdpp Require Export base list strings.
From Stdlib Require Export ZArith Lia.

Declare Scope ahk_scope.
Delimit Scope ahk_scope with ahk.
Open Scope ahk_scope.

Create HintDb ahk.
Create Rewrite HintDb ahk_rw.

(** ** The state and exception monad *)

Inductive outcome (E A : Type) : Type :=
| Ok (a : A)
| Throw (e : E)
| OutOfFuel.
Arguments Ok {E A} a.
Arguments Throw {E A} e.
Arguments OutOfFuel {E A}.

Definition StExc (S E A : Type) : Type := S -> outcome E A * S.

Section Monad.
Context {S E : Type}.

Definition retM {A} (a : A) : StExc S E A := fun s => (Ok a, s).

Definition bindM {A B} (c : StExc S E A) (k : A -> StExc S E B) : StExc S E B :=
  fun s =>
    match c s with
    | (Ok a, s') => k a s'
    | (Throw e, s') => (Throw e, s')
    | (OutOfFuel, s') => (OutOfFuel, s')
    end.

Definition throwM {A} (e : E) : StExc S E A := fun s => (Throw e, s).

Definition out_of_fuel {A} : StExc S E A := fun s => (OutOfFuel, s).

Definition getM : StExc S E S := fun s => (Ok s, s).

Definition putM (s : S) : StExc S E unit := fun _ => (Ok tt, s).

Definition modifyM (f : S -> S) : StExc S E unit := fun s => (Ok tt, f s).

Definition getsM {A} (f : S -> A) : StExc S E A := fun s => (Ok (f s), s).

(** [try { c } catch (e) { h e }]: the handler runs in the state that the
    failed computation left behind. *)
Definition catchM {A} (c : StExc S E A) (h : E -> StExc S E A) : StExc S E A :=
  fun s =>
    match c s with
    | (Throw e, s') => h e s'
    | r => r
    end.

Lemma bind_ret_l {A B} (a : A) (k : A -> StExc S E B) s :
  bindM (retM a) k s = k a s.
Proof. reflexivity. Qed.

Lemma bind_ret_r {A} (c : StExc S E A) s :
  bindM c retM s = c s.
Proof. unfold bindM, retM. by destruct (c s) as [[] ?]. Qed.

Lemma bind_assoc {A B C} (c : StExc S E A) (k1 : A -> StExc S E B)
      (k2 : B -> StExc S E C) s :
  bindM (bindM c k1) k2 s = bindM c (fun a => bindM (k1 a) k2) s.
Proof. unfold bindM. by destruct (c s) as [[] ?]. Qed.

Lemma bind_Ok {A B} (c : StExc S E A) (k : A -> StExc S E B) s a s' :
  c s = (Ok a, s') -> bindM c k s = k a s'.
Proof. unfold bindM. by intros ->. Qed.

Lemma bind_Throw {A B} (c : StExc S E A) (k : A -> StExc S E B) s e s' :
  c s = (Throw e, s') -> bindM c k s = (Throw e, s').
Proof. unfold bindM. by intros ->. Qed.

Lemma bind_OutOfFuel {A B} (c : StExc S E A) (k : A -> StExc S E B) s s' :
  c s = (OutOfFuel, s') -> bindM c k s = (OutOfFuel, s').
Proof. unfold bindM. by intros ->. Qed.

Lemma catch_no_throw {A} (c : StExc S E A) h s :
  (forall e s', c s <> (Throw e, s')) -> catchM c h s = c s.
Proof.
  unfold catchM. destruct (c s) as [[a|e|] s'] eqn:Hc; [done| |done].
  intros Hn. by destruct (Hn e s').
Qed.

(** A computation never throws when started in any state. *)
Definition nothrow {A} (c : StExc S E A) : Prop :=
  forall s e s', c s <> (Throw e, s').

Lemma nothrow_ret {A} (a : A) : nothrow (retM a).
Proof. by intros s e s'. Qed.

Lemma nothrow_bind {A B} (c : StExc S E A) (k : A -> StExc S E B) :
  nothrow c -> (forall a, nothrow (k a)) -> nothrow (bindM c k).
Proof.
  intros Hc Hk s e s'. unfold bindM.
  destruct (c s) as [[a|e'|] s''] eqn:E1.
  - apply Hk.
  - by destruct (Hc s e' s'').
  - done.
Qed.

Lemma bind_Ok_inv {A B} (c : StExc S E A) (k : A -> StExc S E B) s b s' :
  bindM c k s = (Ok b, s') -> exists a s1, c s = (Ok a, s1) /\ k a s1 = (Ok b, s').
Proof. unfold bindM. destruct (c s) as [[a|e|] s1]; [eauto|done|done]. Qed.

Lemma ret_Ok_inv {A} (a b : A) s s' : retM a s = (Ok b, s') -> a = b /\ s = s'.
Proof. unfold retM. by intros [= -> ->]. Qed.

Lemma gets_Ok_inv {A} (f : S -> A) s b s' : getsM f s = (Ok b, s') -> b = f s /\ s' = s.
Proof. unfold getsM. by intros [= <- <-]. Qed.

Lemma modify_Ok_inv f s (u : unit) s' : modifyM f s = (Ok u, s') -> s' = f s.
Proof. unfold modifyM. by intros [= _ <-]. Qed.

Lemma throw_not_Ok {A} (e : E) s (b : A) s' : throwM e s <> (Ok b, s').
Proof. by unfold throwM. Qed.

Lemma out_of_fuel_not_Ok {A} s (b : A) s' : out_of_fuel s <> (Ok b, s').
Proof. by unfold out_of_fuel. Qed.

Lemma catch_Ok_inv {A} (c : StExc S E A) h s b s' :
  catchM c h s = (Ok b, s') ->
  c s = (Ok b, s') \/ exists e s1, c s = (Throw e, s1) /\ h e s1 = (Ok b, s').
Proof. unfold catchM. destruct (c s) as [[a|e|] s1]; eauto. Qed.

Lemma nothrow_get : nothrow getM.
Proof. by intros s e s'. Qed.

Lemma nothrow_put s0 : nothrow (putM s0).
Proof. by intros s e s'. Qed.

Lemma nothrow_modify f : nothrow (modifyM f).
Proof. by intros s e s'. Qed.

Lemma nothrow_gets {A} (f : S -> A) : nothrow (getsM f).
Proof. by intros s e s'. Qed.

Lemma nothrow_out_of_fuel {A} : nothrow (@out_of_fuel A).
Proof. by intros s e s'. Qed.

Lemma nothrow_catch {A} (c : StExc S E A) (h : E -> StExc S E A) :
  (forall e, nothrow (h e)) -> nothrow (catchM c h).
Proof.
  intros Hh s e s'. unfold catchM.
  destruct (c s) as [[a|e'|] s''] eqn:E1; [done| apply Hh | done].
Qed.
End Monad.

Notation "'let*' x ':=' c 'in' k" := (bindM c (fun x => k))
  (at level 10, x name, c at level 100, k at level 200) : ahk_scope.
Notation "'let*' ' p ':=' c 'in' k" := (bindM c (fun x => match x with p => k end))
  (at level 10, p pattern, c at level 100, k at level 200) : ahk_scope.
Notation "c1 ;; c2" := (bindM c1 (fun _ => c2))
  (at level 100, right associativity) : ahk_scope.

#[export] Hint Resolve nothrow_ret nothrow_get nothrow_put nothrow_modify nothrow_gets
  nothrow_out_of_fuel : ahk.

(** Prove [nothrow c] by following the structure of [c]: binds,
    catches and the branches of its matches. *)
Ltac solve_nothrow :=
  repeat first
    [ progress eauto with ahk
    | apply nothrow_catch; intros ?
    | apply nothrow_bind; [| intros ?]
    | case_match ].
#[export] Hint Rewrite @bind_ret_l @bind_assoc : ahk_rw.

(** Take apart a hypothesis [H : c s = (Ok b, s')] along the binds of
    [c]. *)
Ltac inv_ok H :=
  repeat match type of H with
  | bindM _ _ _ = (Ok _, _) =>
      let a := fresh "a" in let s1 := fresh "s" in let H1 := fresh "H" in
      apply bind_Ok_inv in H as (a & s1 & H1 & H); cbv beta in H; try inv_ok H1
  | retM _ _ = (Ok _, _) => apply ret_Ok_inv in H as [? ?]; subst
  | getsM _ _ = (Ok _, _) => apply gets_Ok_inv in H as [? ?]; subst
  | getM _ = (Ok _, _) => unfold getM in H; injection H as ? ?; subst
  | modifyM _ _ = (Ok _, _) => apply modify_Ok_inv in H; subst
  | throwM _ _ = (Ok _, _) => by apply throw_not_Ok in H
  | out_of_fuel _ = (Ok _, _) => by apply out_of_fuel_not_Ok in H
  end.

(** [inv_ok] on every hypothesis that says a computation returned. *)
Ltac inv_ok_all :=
  repeat match goal with
  | H : _ _ = (Ok _, _) |- _ => progress inv_ok H
  end.

(** Unfold the monad combinators and reduce the matches they expose. *)
Ltac monad_simpl :=
  repeat (unfold bindM, retM, throwM, getM, putM, modifyM, getsM, catchM,
            out_of_fuel in *; simpl in *).

(** ** Strings *)

(** The one-character string made of a double quote. *)
Definition dq : string := String (Ascii.ascii_of_nat 34) EmptyString.

(** ASCII lower-casing, the part of [String.prototype.toLowerCase] that
    affects the keyword comparisons of the parser. *)
Definition ascii_lower (c : Ascii.ascii) : Ascii.ascii :=
  let n := Ascii.nat_of_ascii c in
  if (65 <=? n) && (n <=? 90) then Ascii.ascii_of_nat (n + 32) else c.

Fixpoint toLowerCase (s : string) : string :=
  match s with
  | EmptyString => EmptyString
  | String c r => String (ascii_lower c) (toLowerCase r)
  end.

(** ** JavaScript array idioms used by [toLines] *)

Lemma str_app_cons c (s t : string) : String c s +:+ t = String c (s +:+ t).
Proof. reflexivity. Qed.

Lemma str_app_nil_l (s : string) : "" +:+ s = s.
Proof. reflexivity. Qed.

Lemma str_app_nil_r (s : string) : s +:+ "" = s.
Proof. induction s as [|c s IH]; [done | by rewrite str_app_cons, IH]. Qed.

Lemma str_app_assoc (s1 s2 s3 : string) : s1 +:+ (s2 +:+ s3) = (s1 +:+ s2) +:+ s3.
Proof. induction s1 as [|c s IH]; [done | by rewrite !str_app_cons, IH]. Qed.

#[export] Hint Rewrite str_app_nil_r : ahk_rw.

Section JsLines.
Implicit Types (ls : list string) (p q : string).

(** [lines[0] = p + lines[0]] *)
Definition js_prepend_first p ls : list string :=
  match ls with
  | [] => [p +:+ "undefined"]
  | l :: r => (p +:+ l) :: r
  end.

(** [lines[lines.length - 1] = lines[lines.length - 1] + q] (the same
    for [+=]). *)
Fixpoint js_append_last q ls : list string :=
  match ls with
  | [] => []
  | [l] => [l +:+ q]
  | l :: r => l :: js_append_last q r
  end.

(** Concatenation of the lines of a node, the text a reader gets when the
    lines are printed one after the other. *)
Definition flat ls : string := String.concat "" ls.

Lemma js_prepend_first_ne p ls : js_prepend_first p ls <> [].
Proof. by destruct ls. Qed.

Lemma js_append_last_ne q ls : ls <> [] -> js_append_last q ls <> [].
Proof. destruct ls as [|l [|l' r]]; done. Qed.

Lemma length_js_append_last q ls : length (js_append_last q ls) = length ls.
Proof. induction ls as [|l [|l' r] IH]; simpl in *; auto. Qed.

Lemma flat_nil : flat [] = "".
Proof. reflexivity. Qed.

Lemma flat_cons l r : flat (l :: r) = l +:+ flat r.
Proof. destruct r; simpl; [by rewrite str_app_nil_r | done]. Qed.

Lemma flat_app ls1 ls2 : flat (ls1 ++ ls2) = flat ls1 +:+ flat ls2.
Proof.
  induction ls1 as [|l r IH]; [done|].
  by rewrite <-app_comm_cons, !flat_cons, IH, str_app_assoc.
Qed.

Lemma flat_js_prepend_first p ls :
  ls <> [] -> flat (js_prepend_first p ls) = p +:+ flat ls.
Proof.
  destruct ls as [|l r]; [done|]. intros _. simpl.
  by rewrite !flat_cons, str_app_assoc.
Qed.

Lemma flat_js_append_last q ls :
  ls <> [] -> flat (js_append_last q ls) = flat ls +:+ q.
Proof.
  induction ls as [|l [|l' r] IH]; [done| |].
  - intros _. reflexivity.
  - intros _. change (js_append_last q (l :: l' :: r))
      with (l :: js_append_last q (l' :: r)).
    by rewrite !(flat_cons l), IH, str_app_assoc.
Qed.
End JsLines.

#[export] Hint Resolve js_prepend_first_ne js_append_last_ne : ahk.
#[export] Hint Rewrite flat_app : ahk_rw.

(** ** Lists *)

(** Prove [x ∈ l] for a literal list [l]. *)
Ltac elem_of_lit :=
  solve [repeat (first [by apply list_elem_of_here | apply list_elem_of_further])].

(** Prove a closed decidable statement by evaluating its decision. *)
Ltac decide_closed :=
  match goal with |- ?P => apply (bool_decide_unpack P); vm_compute; exact I end.

Lemma lookup_app_length_l {A} (l1 l2 : list A) x i :
  l1 !! i = Some x -> (l1 ++ l2) !! i = Some x.
Proof. intros H. by apply lookup_app_l_Some. Qed.

Lemma sublist_snoc {A} (l k : list A) x :
  l `sublist_of` k -> l ++ [x] `sublist_of` k ++ [x].
Proof. intros H. by apply sublist_app. Qed.

Lemma sublist_snoc_r {A} (l k : list A) y :
  l `sublist_of` k -> l `sublist_of` k ++ [y].
Proof. intros H. rewrite <-(app_nil_r l). by apply sublist_app; [|constructor]. Qed.

#[export] Hint Resolve sublist_snoc sublist_snoc_r : ahk.

(** ** Lists through a function that may throw

    [xs.flatMap(f)] where [f] may raise a [TypeError]: [None] is the
    exception, which ends the whole [flatMap]. *)
Definition flat_mapO {A B} (f : A -> option (list B)) : list A -> option (list B) :=
  fix go l :=
    match l with
    | [] => Some []
    | x :: r => ys ← f x; zs ← go r; Some (ys ++ zs)
    end.

Lemma flat_mapO_mapM {A B} (f : A -> option (list B)) l :
  flat_mapO f l = (fun lss => concat lss) <$> mapM f l.
Proof.
  induction l as [|x r IH]; [done|]. simpl. rewrite IH.
  destruct (f x), (mapM f r); done.
Qed.
