(* ===== verification/Tokens.v ===== *)
(** * Tokens: token categories, tokens, precedences and the Token Source

    The parser of [src/server/src/parser/newtry/parser/parser.ts] imports
    three modules that are not among the sources: [tokenizor/tokenTypes]
    (the enumeration [TokenType]), [models/precedences] (the tables
    [Precedences] and [UnaryPrecedence]) and [tokenizor/tokenizer] (the
    Token Source).  They are modelled here from the spec (sections 3, 4.1,
    4.3 and 6).  The parser tests the categories by ranges of the
    enumeration, as in [type >= TokenType.power && type <= TokenType.logicor].
    So the order of the constructors of [TokenType.type] is part of the
    model.  The ranges the parser uses are [string..precent] (values that
    start an implicit concatenation), [pplus..mminus], [power..logicor]
    (left-associative binary operators), [question..lshifteq] (ternary and
    assignments), [aassign..lshifteq] (assignments) and [pplus..comma]
    (tokens that continue the previous line).  The order below makes each
    of them the set the spec names.  The lemmas [*_spec] state these
    sets by name, as section 9 of the spec asks.

    The Token Source is a list of lexemes.  A lexeme is a function of the
    lexing context: the parser's type hint, the hotkey flag and the
    literal flag.  So one lexeme can be read as different tokens in
    different contexts, which is the context sensitivity of section 6.
    Token boundaries themselves do not depend on the context in this
    model. *)

From S2P Require Import Prelude.

Module TokenType.
Inductive type : Set :=
(* value-starting tokens: the range [string..precent] of implicit concatenation *)
| string | number | openBrace | openBracket | id | precent
(* increment and decrement: the range [pplus..mminus] *)
| pplus | mminus
(* left-associative binary operators: the range [power..logicor] *)
| power | multi | div | idiv | plus | minus | rshift | lshift | and | xor | or | sconnect | regeq | greater | less | greaterEqual | lessEqual | equal | dequal | notEqual | logicand | logicor
(* ternary and assignments: the range [question..lshifteq]; [aassign..lshifteq] are the assignments *)
| question | aassign | pluseq | minuseq | multieq | diveq | idiveq | sconneq | oreq | andeq | xoreq | rshifteq | lshifteq
(* the comma closes the range [pplus..comma] of line-continuation starters *)
| comma
(* other punctuation and the synthesized implicit-concatenation connective *)
| not | bnot | new | dot | colon | closeBrace | closeBracket | openParen | closeParen | implconn
(* keywords *)
| if_ | else_ | switch | case | loop | while | until | break | continue | return_ | global | local | static | class | extends | for_ | in_ | try | catch | finally | throw | byref | command | drective | label
(* hotkeys and hotstrings *)
| key | hotkey | hotkeyand | hotstringOpen | hotstringEnd
(* file structure and lexical errors *)
| EOL | EOF | unknown.

Definition ord (t : type) : nat :=
  match t with
  | string => 0
  | number => 1
  | openBrace => 2
  | openBracket => 3
  | id => 4
  | precent => 5
  | pplus => 6
  | mminus => 7
  | power => 8
  | multi => 9
  | div => 10
  | idiv => 11
  | plus => 12
  | minus => 13
  | rshift => 14
  | lshift => 15
  | and => 16
  | xor => 17
  | or => 18
  | sconnect => 19
  | regeq => 20
  | greater => 21
  | less => 22
  | greaterEqual => 23
  | lessEqual => 24
  | equal => 25
  | dequal => 26
  | notEqual => 27
  | logicand => 28
  | logicor => 29
  | question => 30
  | aassign => 31
  | pluseq => 32
  | minuseq => 33
  | multieq => 34
  | diveq => 35
  | idiveq => 36
  | sconneq => 37
  | oreq => 38
  | andeq => 39
  | xoreq => 40
  | rshifteq => 41
  | lshifteq => 42
  | comma => 43
  | not => 44
  | bnot => 45
  | new => 46
  | dot => 47
  | colon => 48
  | closeBrace => 49
  | closeBracket => 50
  | openParen => 51
  | closeParen => 52
  | implconn => 53
  | if_ => 54
  | else_ => 55
  | switch => 56
  | case => 57
  | loop => 58
  | while => 59
  | until => 60
  | break => 61
  | continue => 62
  | return_ => 63
  | global => 64
  | local => 65
  | static => 66
  | class => 67
  | extends => 68
  | for_ => 69
  | in_ => 70
  | try => 71
  | catch => 72
  | finally => 73
  | throw => 74
  | byref => 75
  | command => 76
  | drective => 77
  | label => 78
  | key => 79
  | hotkey => 80
  | hotkeyand => 81
  | hotstringOpen => 82
  | hotstringEnd => 83
  | EOL => 84
  | EOF => 85
  | unknown => 86
  end.

(** [a <= t && t <= b] on the enumeration. *)
Definition between (a b t : type) : bool := (ord a <=? ord t) && (ord t <=? ord b).
End TokenType.

#[export] Instance TokenType_eq_dec : EqDecision TokenType.type.
Proof. solve_decision. Defined.

(** ** Positions and tokens *)

(** [Position] of [vscode-languageserver-types]: zero-based line and
    character.  [emptyArg] of the parser builds [Position.create(-1, -1)],
    so the fields are integers. *)
Record Position : Set := mkPosition { line : Z; character : Z }.

Definition pos_leb (p q : Position) : bool :=
  (line p <? line q)%Z || ((line p =? line q)%Z && (character p <=? character q)%Z).

(** [Token] of [newtry/types] (spec section 3). *)
Record Token : Set := mkToken {
  type : TokenType.type;
  content : string;
  start : Position;
  end_ : Position
}.

(** [IDiagnosticInfo]: a lexical error forwarded by the Token Source. *)
Record IDiagnosticInfo : Set := mkDiagnostic {
  diag_message : string;
  diag_start : Position;
  diag_end : Position
}.

(** [ParseError] of [models/parseError]: the offending token and a message. *)
Record ParseError : Set := mkParseError { err_token : Token; message : string }.

(** ** Precedences (spec section 4.3) *)

(** [Precedences[t]]; [None] is the [undefined] of a token type with no
    entry, for which every comparison [>= p] is false. *)
Definition Precedences (t : TokenType.type) : option nat :=
  match t with
  | TokenType.aassign | TokenType.pluseq | TokenType.minuseq | TokenType.multieq
  | TokenType.diveq | TokenType.idiveq | TokenType.sconneq | TokenType.oreq
  | TokenType.andeq | TokenType.xoreq | TokenType.rshifteq | TokenType.lshifteq => Some 1
  | TokenType.question => Some 2
  | TokenType.logicor => Some 3
  | TokenType.logicand => Some 4
  | TokenType.equal | TokenType.dequal | TokenType.notEqual => Some 6
  | TokenType.greater | TokenType.less | TokenType.greaterEqual
  | TokenType.lessEqual => Some 7
  | TokenType.regeq => Some 8
  | TokenType.sconnect => Some 9
  | TokenType.or => Some 10
  | TokenType.xor => Some 11
  | TokenType.and => Some 12
  | TokenType.rshift | TokenType.lshift => Some 13
  | TokenType.plus | TokenType.minus => Some 14
  | TokenType.multi | TokenType.div | TokenType.idiv => Some 15
  | TokenType.power => Some 17
  | TokenType.pplus | TokenType.mminus => Some 18
  | _ => None
  end.

Definition UnaryPrecedence : nat := 16.

(** [Precedences[t] >= p] with JavaScript's [undefined >= p = false]. *)
Definition prec_ge (t : TokenType.type) (p : nat) : bool :=
  match Precedences t with Some q => p <=? q | None => false end.

(** [Precedences[t]] used as a number; only read for types that have an
    entry. *)
Definition prec (t : TokenType.type) : nat := default 0 (Precedences t).

(** ** The Token Source (spec section 6) *)

(** The context in which the Token Source reads its next token: the type
    hint [preType] and the two flags the parser sets on the tokenizer. *)
Record LexCtx : Set := mkLexCtx {
  ctx_hint : TokenType.type;
  ctx_isParseHotkey : bool;
  ctx_isLiteralToken : bool
}.

(** [TokenKind.Token], [TokenKind.Diagnostic] and [TokenKind.Commnet]. *)
Inductive RawToken : Set :=
| RToken (t : Token)
| RDiagnostic (d : IDiagnosticInfo)
| RComment (t : Token).

Definition Lexeme : Set := LexCtx -> RawToken.

(** The tokenizer: the lexemes not read yet, the two flags and the token
    it returns once the input is exhausted. *)
Record Tokenizer : Set := mkTokenizer {
  pending : list Lexeme;
  isParseHotkey : bool;
  isLiteralToken : bool;
  eofToken : Token
}.

Definition set_isParseHotkey (b : bool) (tz : Tokenizer) : Tokenizer :=
  mkTokenizer (pending tz) b (isLiteralToken tz) (eofToken tz).

Definition set_isLiteralToken (b : bool) (tz : Tokenizer) : Tokenizer :=
  mkTokenizer (pending tz) (isParseHotkey tz) b (eofToken tz).

(** [tokenizer.GetNextToken(preType)].  The literal flag holds for one
    token: the tokenizer clears it once it has read the literal. *)
Definition GetNextToken (tz : Tokenizer) (preType : TokenType.type) : RawToken * Tokenizer :=
  match pending tz with
  | [] => (RToken (eofToken tz), tz)
  | l :: rest =>
      (l (mkLexCtx preType (isParseHotkey tz) (isLiteralToken tz)),
       mkTokenizer rest (isParseHotkey tz) false (eofToken tz))
  end.

(** ** The ranges of the enumeration as named sets *)

Definition is_value_start (t : TokenType.type) : bool :=
  TokenType.between TokenType.string TokenType.precent t.
Definition is_incdec (t : TokenType.type) : bool :=
  TokenType.between TokenType.pplus TokenType.mminus t.
Definition is_left_binary (t : TokenType.type) : bool :=
  TokenType.between TokenType.power TokenType.logicor t.
Definition is_right_assoc (t : TokenType.type) : bool :=
  TokenType.between TokenType.question TokenType.lshifteq t.
Definition is_assign_op (t : TokenType.type) : bool :=
  TokenType.between TokenType.aassign TokenType.lshifteq t.
Definition is_continuation (t : TokenType.type) : bool :=
  TokenType.between TokenType.pplus TokenType.comma t.

Definition left_binary_ops : list TokenType.type :=
  [TokenType.power; TokenType.multi; TokenType.div; TokenType.idiv; TokenType.plus;
   TokenType.minus; TokenType.rshift; TokenType.lshift; TokenType.and; TokenType.xor;
   TokenType.or; TokenType.sconnect; TokenType.regeq; TokenType.greater; TokenType.less;
   TokenType.greaterEqual; TokenType.lessEqual; TokenType.equal; TokenType.dequal;
   TokenType.notEqual; TokenType.logicand; TokenType.logicor].

Definition assign_ops : list TokenType.type :=
  [TokenType.aassign; TokenType.pluseq; TokenType.minuseq; TokenType.multieq;
   TokenType.diveq; TokenType.idiveq; TokenType.sconneq; TokenType.oreq; TokenType.andeq;
   TokenType.xoreq; TokenType.rshifteq; TokenType.lshifteq].

Definition value_starts : list TokenType.type :=
  [TokenType.string; TokenType.number; TokenType.openBrace; TokenType.openBracket;
   TokenType.id; TokenType.precent].

Lemma is_left_binary_spec t : is_left_binary t = bool_decide (t ∈ left_binary_ops).
Proof. destruct t; reflexivity. Qed.

Lemma is_assign_op_spec t : is_assign_op t = bool_decide (t ∈ assign_ops).
Proof. destruct t; reflexivity. Qed.

Lemma is_right_assoc_spec t :
  is_right_assoc t = bool_decide (t = TokenType.question \/ t ∈ assign_ops).
Proof. destruct t; reflexivity. Qed.

Lemma is_value_start_spec t : is_value_start t = bool_decide (t ∈ value_starts).
Proof. destruct t; reflexivity. Qed.

Lemma is_incdec_spec t :
  is_incdec t = bool_decide (t = TokenType.pplus \/ t = TokenType.mminus).
Proof. destruct t; reflexivity. Qed.

(** The continuation starters are the operators of the three operator
    ranges and the comma. *)
Lemma is_continuation_spec t :
  is_continuation t = is_incdec t || is_left_binary t || is_right_assoc t
                      || bool_decide (t = TokenType.comma).
Proof. destruct t; reflexivity. Qed.

(** Every type that the Pratt loop compares with [Precedences] has an
    entry, so the [undefined] case is never reached there. *)
Lemma operator_has_precedence t :
  is_incdec t || is_left_binary t || is_right_assoc t = true ->
  Precedences t = Some (prec t).
Proof. destruct t; done. Qed.

(** The three operator ranges are disjoint from each other and from the
    value starters. *)
Lemma operator_ranges_disjoint t :
  (is_left_binary t && is_incdec t = false) /\
  (is_left_binary t && is_right_assoc t = false) /\
  (is_incdec t && is_right_assoc t = false) /\
  (is_value_start t && is_continuation t = false).
Proof. destruct t; done. Qed.
