(* ===== verification/Ast.v ===== *)
(** * Ast: the AST node model

    Suffix terms and their trailers follow
    [src/server/src/parser/newtry/parser/models/suffixterm.ts] class by
    class.  [Invalid] of that file is [InvalidAtom].  The getters [start],
    [end], [ranges] and [toLines] are the functions [*_start], [*_end],
    [*_ranges] and [*_lines] below.  Expressions ([models/expr]) and statements
    ([models/stmt], [models/declaration]) are not among the sources.
    Their constructors take the arguments with which [parser.ts] builds
    them, in the same order.  The [toLines] of an expression is modelled
    from the spec (section 3): the lines of its children joined with its
    own connecting token (the dot of a [Factor], the operator of a
    [Binary]), and one empty line for an [Invalid] node.  [toLines]
    returns an [option]: [None] is the [TypeError] JavaScript raises on
    the [BracketIndex] the parser builds, which holds one expression
    where the class declares an array.

    The mutable fields [dot] and [trailer] of [Factor] and [SuffixTrailer]
    are constructor arguments here.  The parser's assignments to them
    become the choice of the arguments when the node is built (see
    [ExprParser.factor]). *)

From S2P Require Import Prelude Tokens.

#[local] Set Warnings "-register-all".

(** ** Expressions and suffix terms *)

Inductive Atom : Set :=
| Identifier (token : Token)
| Literal (token : Token)
| Grouping (open : Token) (expr : Expr) (close : Token)
| ArrayTerm (open close : Token) (items : list Expr)
| AssociativeArray (open close : Token) (pairs : list Pair)
| PercentDereference (open close referValue : Token)
| InvalidAtom (position : Position)
with Trailer : Set :=
| Call (open : Token) (args : list Expr) (close : Token)
| BracketIndex (open : Token) (indexs : Expr) (close : Token)
    (* [indexs] is declared [IExpr[]]; [arrayBracket] (parser.ts, line
       1228) stores the one index expression there. *)
with SuffixTerm : Set :=
| MkSuffixTerm (atom : Atom) (trailers : list Trailer)
with SuffixTrailer : Set :=
| MkSuffixTrailer (suffixTerm : SuffixTerm) (dot : option Token)
    (trailer : option SuffixTrailer)
with Expr : Set :=
| Factor (suffixTerm : SuffixTerm) (dot : option Token) (trailer : option SuffixTrailer)
| Unary (operator : Token) (factor : Expr)
| Binary (left : Expr) (operator : Token) (right : Expr)
| Ternary (condition : Expr) (question : Token) (trueExpr : Expr) (colon : Token)
    (falseExpr : Expr)
| InvalidExpr (start : Position) (tokens : list Token)
with Pair : Set :=
| MkPair (key : Expr) (colon : Token) (value : Expr).

(** ** Statements and declarations *)

Inductive OptionalAssginStmt : Set :=
| MkOptionalAssign (identifer : Token) (assign : option Token) (expr : option Expr).

Inductive CaseNode : Set :=
| CaseExpr (caseToken : Token) (conditions : list Expr) (colon : Token)
| DefaultCase (caseToken : Token).

Inductive Parameter_ : Set := MkParameter (identifier : Token).

Inductive DefaultParam : Set :=
| MkDefaultParam (identifier : Token) (assign : Token) (value : Expr).

Inductive Param : Set :=
| MkParam (open : Token) (requiredParameters : list Parameter_)
    (optionalParameters : list DefaultParam) (close : Token).

Inductive Stmt : Set :=
| InvalidStmt (start : Position) (tokens : list Token)
| Block (open : Token) (stmts : list Stmt) (close : Token)
| If (ifToken : Token) (condition : Expr) (body : Stmt) (elseStmt : option Else)
| Break (breakToken : Token) (label : option Token)
| Return (returnToken : Token) (value : option Expr)
| SwitchStmt (switchToken : Token) (condition : Expr) (open : Token)
    (cases : list CaseStmt) (close : Token)
| Loop (loop : Token) (body : Stmt) (condition : option Expr)
| UntilLoop (loop : Token) (body : Stmt) (until : Token) (condition : Expr)
| WhileStmt (whileToken : Token) (condition : Expr) (body : Stmt)
| ForStmt (forToken inToken : Token) (iterable : Expr) (body : Stmt)
    (id1 : Token) (comma : option Token) (id2 : option Token)
| TryStmt (tryToken : Token) (body : Stmt) (catchStmt : option CatchStmt)
    (finallyStmt : option FinallyStmt)
| Drective (drective : Token) (args : list Expr)
| AssignStmt (left : Expr) (assign : Token) (expr : Expr)
| ExprStmt (suffix : Expr)
| VarDecl (scope : Token) (assigns : list OptionalAssginStmt)
| ClassDef (classToken name : Token) (body : Stmt) (extendsToken : option Token)
    (parentName : option Token)
| Label (name : Token)
| Hotkey (key1 : Token) (and_ : option Token) (key2 : option Token)
| HotString (option_ str expend : Token)
| FuncDef (nameToken : Token) (params : Param) (body : Stmt)
with Else : Set :=
| MkElse (elseToken : Token) (body : Stmt) (condition : option Expr)
with CaseStmt : Set :=
| MkCaseStmt (caseNode : CaseNode) (stmts : list Stmt)
with CatchStmt : Set :=
| MkCatchStmt (catchToken errorVar : Token) (body : Stmt)
with FinallyStmt : Set :=
| MkFinallyStmt (finallyToken : Token) (body : Stmt).

Definition param_name (p : Parameter_) : Token := match p with MkParameter t => t end.
Definition default_name (d : DefaultParam) : Token := match d with MkDefaultParam t _ _ => t end.

(** ** [toLines]

    The [toLines] methods return [None] where JavaScript raises a
    [TypeError]: the [BracketIndex] the parser builds holds one
    expression where its [toLines] calls [flatMap] on an array.  A
    [TypeError] raised by a child ends the printing of its parents. *)

(** Reading [lines[0]] of a possibly empty array: [undefined] prints as
    ["undefined"] in a template string. *)
Definition js_first (ls : list string) : string :=
  match ls with [] => "undefined" | l :: _ => l end.

(** [joinLines] of an infix node: the last line of the left part, the
    connective and the first line of the right part form one line. *)
Definition join_lines (sep : string) (l r : list string) : list string :=
  js_append_last (sep +:+ js_first r) l ++ tail r.

(** [SuffixTrailer.toLines] (suffixterm.ts, lines 88-109) once the lines
    of the base and of the trailer are known. *)
Definition suffix_trailer_join (stl : list string) (dot : option Token)
    (trl : option (list string)) : list string :=
  match dot, trl with
  | Some d, Some tl =>
      let joinLine := js_first tl in
      let restLines := tail tl in
      if decide (length stl = 1) then
        [js_first stl +:+ content d +:+ joinLine] ++ restLines
      else
        take (length stl - 2) stl ++ [js_first stl +:+ content d +:+ joinLine] ++ restLines
  | _, _ => stl
  end.

(** [lines[0] = open + lines[0]; lines[lines.length - 1] += close]. *)
Definition wrap_lines (open close : Token) (ls : list string) : list string :=
  js_append_last (content close) (js_prepend_first (content open) ls).

Fixpoint atom_lines (a : Atom) : option (list string) :=
  match a with
  | Identifier t | Literal t => Some [content t]
  | Grouping o e c => wrap_lines o c <$> expr_lines e
  | ArrayTerm o c items => wrap_lines o c <$> flat_mapO expr_lines items
  | AssociativeArray o c ps => wrap_lines o c <$> flat_mapO pair_lines ps
  | PercentDereference o c v =>
      let v' := if decide (type v = TokenType.string)
                then dq +:+ content v +:+ dq else content v in
      Some [content o +:+ v' +:+ content c]
  | InvalidAtom _ => Some [""]
  end
with trailer_lines (t : Trailer) : option (list string) :=
  match t with
  | Call o args c =>
      match args with
      | [] => Some [content o +:+ content c]
      | _ => wrap_lines o c <$> flat_mapO expr_lines args
      end
  | BracketIndex _ _ _ => None
  end
with suffix_term_lines (s : SuffixTerm) : option (list string) :=
  match s with
  | MkSuffixTerm a ts =>
      atomLines ← atom_lines a;
      flatLines ← flat_mapO trailer_lines ts;
      Some (atomLines ++ flatLines)
  end
with suffix_trailer_lines (s : SuffixTrailer) : option (list string) :=
  match s with
  | MkSuffixTrailer st d tr =>
      stl ← suffix_term_lines st;
      match d, tr with
      | Some _, Some t => tl ← suffix_trailer_lines t; Some (suffix_trailer_join stl d (Some tl))
      | _, _ => Some stl
      end
  end
with expr_lines (e : Expr) : option (list string) :=
  match e with
  | Factor st (Some d) (Some tr) =>
      stl ← suffix_term_lines st;
      tl ← suffix_trailer_lines tr;
      Some (join_lines (content d) stl tl)
  | Factor st _ _ => suffix_term_lines st
  | Unary op f => js_prepend_first (content op) <$> expr_lines f
  | Binary l op r =>
      ll ← expr_lines l; rl ← expr_lines r; Some (join_lines (content op) ll rl)
  | Ternary c q t k f =>
      cl ← expr_lines c; tl ← expr_lines t; fl ← expr_lines f;
      Some (join_lines (content k) (join_lines (content q) cl tl) fl)
  | InvalidExpr _ _ => Some [""]
  end
with pair_lines (p : Pair) : option (list string) :=
  match p with
  | MkPair k c v =>
      keyLines ← expr_lines k;
      valueLines ← expr_lines v;
      Some (js_append_last (content c +:+ js_first valueLines) keyLines ++ tail valueLines)
  end.

(** ** [start] and [end] *)

Definition atom_start (a : Atom) : Position :=
  match a with
  | Identifier t | Literal t => start t
  | Grouping o _ _ | ArrayTerm o _ _ | AssociativeArray o _ _
  | PercentDereference o _ _ => start o
  | InvalidAtom p => p
  end.

Definition atom_end (a : Atom) : Position :=
  match a with
  | Identifier t | Literal t => end_ t
  | Grouping _ _ c | ArrayTerm _ c _ | AssociativeArray _ c _ => end_ c
  | PercentDereference o _ _ => end_ o
  | InvalidAtom p => p
  end.

Definition trailer_start (t : Trailer) : Position :=
  match t with Call o _ _ | BracketIndex o _ _ => start o end.

Definition trailer_end (t : Trailer) : Position :=
  match t with Call _ _ c | BracketIndex _ _ c => end_ c end.

Definition suffix_term_start (s : SuffixTerm) : Position :=
  match s with MkSuffixTerm a _ => atom_start a end.

Definition suffix_term_end (s : SuffixTerm) : Position :=
  match s with
  | MkSuffixTerm a ts => match last ts with Some t => trailer_end t | None => atom_end a end
  end.

Fixpoint suffix_trailer_end (s : SuffixTrailer) : Position :=
  match s with
  | MkSuffixTrailer st _ None => suffix_term_end st
  | MkSuffixTrailer _ _ (Some tr) => suffix_trailer_end tr
  end.

(** Length of a dotted chain: the number of [SuffixTrailer] links that
    hang from a [Factor]. *)
Fixpoint chain_length (s : SuffixTrailer) : nat :=
  match s with
  | MkSuffixTrailer _ _ None => 1
  | MkSuffixTrailer _ _ (Some tr) => S (chain_length tr)
  end.

Definition factor_chain_length (e : Expr) : nat :=
  match e with
  | Factor _ _ (Some tr) => chain_length tr
  | _ => 0
  end.

(** [start] and [end] of an expression ([models/expr] is not among the
    sources; modelled from the spec, section 3: the first and the last
    constituent). *)
Fixpoint expr_start (e : Expr) : Position :=
  match e with
  | Factor st _ _ => suffix_term_start st
  | Unary op _ => start op
  | Binary l _ _ => expr_start l
  | Ternary c _ _ _ _ => expr_start c
  | InvalidExpr p _ => p
  end.

Fixpoint expr_end (e : Expr) : Position :=
  match e with
  | Factor st _ None => suffix_term_end st
  | Factor _ _ (Some tr) => suffix_trailer_end tr
  | Unary _ f => expr_end f
  | Binary _ _ r => expr_end r
  | Ternary _ _ _ _ f => expr_end f
  | InvalidExpr p ts => match last ts with Some t => end_ t | None => p end
  end.

(** ** [ranges]

    The getter [ranges] of each class lists the [Range]s of the node's
    constituents: a token or a node stands for its [start] and [end]. *)
Record Span : Set := mkSpan { sp_start : Position; sp_end : Position }.

Definition token_span (t : Token) : Span := mkSpan (start t) (end_ t).
Definition atom_span (a : Atom) : Span := mkSpan (atom_start a) (atom_end a).
Definition trailer_span (t : Trailer) : Span := mkSpan (trailer_start t) (trailer_end t).
Definition suffix_term_span (s : SuffixTerm) : Span :=
  mkSpan (suffix_term_start s) (suffix_term_end s).
Definition expr_span (e : Expr) : Span := mkSpan (expr_start e) (expr_end e).

(** [SuffixTrailer.start] (suffixterm.ts, lines 72-74). *)
Definition suffix_trailer_span (s : SuffixTrailer) : Span :=
  match s with MkSuffixTrailer st _ _ => mkSpan (suffix_term_start st) (suffix_trailer_end s) end.

(** [Pair.start] and [Pair.end] (lines 485-491). *)
Definition pair_span (p : Pair) : Span :=
  match p with MkPair k _ v => mkSpan (expr_start k) (expr_end v) end.

(** [SuffixTrailer.ranges] (lines 80-86). *)
Definition suffix_trailer_ranges (s : SuffixTrailer) : list Span :=
  match s with
  | MkSuffixTrailer st (Some d) (Some tr) =>
      [suffix_term_span st; token_span d; suffix_trailer_span tr]
  | MkSuffixTrailer st _ _ => [suffix_term_span st]
  end.

(** [SuffixTerm.ranges] (lines 127-129). *)
Definition suffix_term_ranges (s : SuffixTerm) : list Span :=
  match s with MkSuffixTerm a ts => atom_span a :: map trailer_span ts end.

(** [Call.ranges] and [BracketIndex.ranges] (lines 180-182, 228-230).
    [[this.open, ...this.indexs, this.close]] spreads the one expression
    [BracketIndex] holds, which is not iterable: a [TypeError], [None]. *)
Definition trailer_ranges (t : Trailer) : option (list Span) :=
  match t with
  | Call o args c => Some (token_span o :: map expr_span args ++ [token_span c])
  | BracketIndex _ _ _ => None
  end.

(** [Pair.ranges] (lines 493-495). *)
Definition pair_ranges (p : Pair) : list Span :=
  match p with MkPair k c v => [expr_span k; token_span c; expr_span v] end.

(** The [ranges] of an expression ([models/expr], not among the
    sources), from the spec (section 3): its immediate constituents. *)
Definition expr_ranges (e : Expr) : list Span :=
  match e with
  | Factor st (Some d) (Some tr) => [suffix_term_span st; token_span d; suffix_trailer_span tr]
  | Factor st _ _ => [suffix_term_span st]
  | Unary op f => [token_span op; expr_span f]
  | Binary l op r => [expr_span l; token_span op; expr_span r]
  | Ternary c q t k f => [expr_span c; token_span q; expr_span t; token_span k; expr_span f]
  | InvalidExpr _ ts => map token_span ts
  end.

(** [ArrayTerm.ranges] (lines 335-340): the ranges of the items, not the
    items, between the brackets. *)
Definition array_ranges (o c : Token) (items : list Expr) : list Span :=
  [token_span o] ++ flat_map expr_ranges items ++ [token_span c].

(** [AssociativeArray.ranges] (lines 376-381): the ranges of the pairs. *)
Definition assoc_ranges (o c : Token) (pairs : list Pair) : list Span :=
  [token_span o] ++ flat_map pair_ranges pairs ++ [token_span c].

(** [Grouping.ranges] (lines 450-452). *)
Definition grouping_ranges (o : Token) (e : Expr) (c : Token) : list Span :=
  [token_span o; expr_span e; token_span c].

(** The [ranges] of the atoms: [Invalid] (lines 45-47), [PercentDereference]
    (267-269), [Literal] (299-301), [Identifier] (411-413) and the
    above. *)
Definition atom_ranges (a : Atom) : list Span :=
  match a with
  | Identifier t | Literal t => [token_span t]
  | Grouping o e c => grouping_ranges o e c
  | ArrayTerm o c items => array_ranges o c items
  | AssociativeArray o c ps => assoc_ranges o c ps
  | PercentDereference o c v => [token_span o; token_span v; token_span c]
  | InvalidAtom _ => []
  end.

(** ** Shapes: expressions without positions

    [expr_shape] forgets token positions and keeps the tree structure,
    the operator types and the leaf texts.  Statements about the
    precedence of the parser are stated on shapes. *)
Inductive ExprShape : Set :=
| SLeaf (text : string)
| SUnary (op : TokenType.type) (e : ExprShape)
| SBinary (l : ExprShape) (op : TokenType.type) (r : ExprShape)
| STernary (c t f : ExprShape)
| SOther
| SInvalid.

Fixpoint expr_shape (e : Expr) : ExprShape :=
  match e with
  | Factor (MkSuffixTerm (Identifier t) []) None None => SLeaf (content t)
  | Factor (MkSuffixTerm (Literal t) []) None None => SLeaf (content t)
  | Factor _ _ _ => SOther
  | Unary op f => SUnary (type op) (expr_shape f)
  | Binary l op r => SBinary (expr_shape l) (type op) (expr_shape r)
  | Ternary c _ t _ f => STernary (expr_shape c) (expr_shape t) (expr_shape f)
  | InvalidExpr _ _ => SInvalid
  end.

(** ** Properties of [toLines] *)

Lemma wrap_lines_ne o c ls : wrap_lines o c ls <> [].
Proof. unfold wrap_lines. auto with ahk. Qed.

Lemma join_lines_ne sep l r : l <> [] -> join_lines sep l r <> [].
Proof.
  intros H. unfold join_lines. intros Hc. apply app_nil in Hc as [Hc _].
  exact (js_append_last_ne _ _ H Hc).
Qed.

Lemma suffix_trailer_join_ne stl d trl : stl <> [] -> suffix_trailer_join stl d trl <> [].
Proof.
  intros H. unfold suffix_trailer_join.
  destruct d, trl; [case_decide; [done|] | done..].
  intros Hc. apply app_nil in Hc as [_ Hc]. done.
Qed.

#[export] Hint Resolve wrap_lines_ne join_lines_ne suffix_trailer_join_ne : ahk.

(** Every node that prints, prints to at least one line. *)
Lemma atom_lines_ne a ls : atom_lines a = Some ls -> ls <> [].
Proof. destruct a; simpl; intros H; simplify_option_eq; auto with ahk. Qed.

Lemma suffix_term_lines_ne s ls : suffix_term_lines s = Some ls -> ls <> [].
Proof.
  destruct s as [a ts]. simpl. intros H. simplify_option_eq.
  intros Hc. apply app_nil in Hc as [Hc _]. by eapply atom_lines_ne.
Qed.

Lemma expr_lines_ne e ls : expr_lines e = Some ls -> ls <> [].
Proof.
  revert ls. induction e as [st d tr| | | |]; intros ls H; simpl in H;
    [destruct d, tr| | | |]; simplify_option_eq;
    eauto using suffix_term_lines_ne with ahk.
Qed.

#[export] Hint Resolve atom_lines_ne suffix_term_lines_ne expr_lines_ne : ahk.

(** The lines of the arguments of a call, one list per argument. *)
Lemma concat_lines_ne args lss :
  args <> [] -> mapM expr_lines args = Some lss -> concat lss <> [].
Proof.
  intros Hne H. apply mapM_Some in H. destruct H as [|a la r lr Ha _]; [done|].
  simpl. intros Hc. apply app_nil in Hc as [Hc _]. by eapply expr_lines_ne.
Qed.

Lemma flat_concat lss : flat (concat lss) = String.concat "" (map flat lss).
Proof.
  induction lss as [|ls lss IH]; [done|]. simpl. rewrite flat_app, IH.
  destruct lss; simpl; [by rewrite str_app_nil_r|done].
Qed.

(** (C15) [Call.toLines] drops the commas (suffixterm.ts, lines
    189-193): [l.join(',')] is computed and thrown away.  The text of a
    call with arguments is the open paren, the texts of the arguments
    one after the other, and the close paren, whenever the arguments
    print; [f(a, b)] prints as [f(ab)], which reads back as a call with
    one argument. *)
Theorem call_lines_drop_commas o args c :
  args <> [] ->
  flat <$> trailer_lines (Call o args c) =
    (fun lss => content o +:+ String.concat "" (map flat lss) +:+ content c)
      <$> mapM expr_lines args.
Proof.
  intros Hne. change (trailer_lines (Call o args c))
    with (match args with [] => Some [content o +:+ content c]
          | _ => wrap_lines o c <$> flat_mapO expr_lines args end).
  destruct args as [|a r]; [done|]. rewrite flat_mapO_mapM.
  destruct (mapM expr_lines (a :: r)) as [lss|] eqn:E; [|done]. simpl. f_equal.
  pose proof (concat_lines_ne _ _ Hne E) as Hc.
  unfold wrap_lines. rewrite flat_js_append_last, flat_js_prepend_first
    by auto using js_prepend_first_ne.
  by rewrite flat_concat, <-str_app_assoc.
Qed.

(** Witness of (C15): [f(a, b)] prints as [(ab)] after the name. *)
Lemma call_lines_drop_commas_witness :
  let tk t s := mkToken t s (mkPosition 0 0) (mkPosition 0 0) in
  let arg s := Factor (MkSuffixTerm (Identifier (tk TokenType.id s)) []) None None in
  [arg "a"; arg "b"] <> [] /\
  flat <$> trailer_lines (Call (tk TokenType.openParen "(") [arg "a"; arg "b"]
                               (tk TokenType.closeParen ")")) = Some "(ab)".
Proof.
  cbv zeta. split; [discriminate|].
  rewrite call_lines_drop_commas; [reflexivity | discriminate].
Defined.

(** A [TypeError] of one item ends the whole [flatMap]. *)
Lemma flat_mapO_None {A B} (f : A -> option (list B)) x l :
  x ∈ l -> f x = None -> flat_mapO f l = None.
Proof.
  intros Hin Hx. induction l as [|y l IH]; [by apply not_elem_of_nil in Hin|]. simpl.
  apply elem_of_cons in Hin as [->|Hin].
  - by rewrite Hx.
  - rewrite (IH Hin). by destruct (f y).
Qed.

(** (C32) An indexed value cannot be printed: [arrayBracket] stores its
    one index expression where [BracketIndex] declares an array, so
    [BracketIndex.toLines] (suffixterm.ts, line 233) calls [flatMap] on
    an expression and raises a [TypeError], and so does the [toLines] of
    every factor whose suffix term has an index trailer, [a[i]] and
    [m[k].f(x)] alike. *)
Theorem index_trailer_unprintable a ts d tr o i c :
  BracketIndex o i c ∈ ts -> expr_lines (Factor (MkSuffixTerm a ts) d tr) = None.
Proof.
  intros Hin.
  assert (Hs : suffix_term_lines (MkSuffixTerm a ts) = None).
  { simpl. rewrite (flat_mapO_None _ _ _ Hin) by reflexivity. by destruct (atom_lines a). }
  destruct d, tr; cbn [expr_lines]; by rewrite Hs.
Qed.

(** Witness of (C32): [a[i]]. *)
Lemma index_trailer_unprintable_witness :
  let tk t s := mkToken t s (mkPosition 0 0) (mkPosition 0 0) in
  let i := Factor (MkSuffixTerm (Identifier (tk TokenType.id "i")) []) None None in
  let b := BracketIndex (tk TokenType.openBracket "[") i (tk TokenType.closeBracket "]") in
  b ∈ [b] /\ expr_lines (Factor (MkSuffixTerm (Identifier (tk TokenType.id "a")) [b]) None None) = None.
Proof.
  cbv zeta. split; [by left|]. eapply index_trailer_unprintable. by left.
Defined.
