(* ===== verification/TokenBuffer.v ===== *)
(** * TokenBuffer: the parser state and the Token Buffer (spec section 4.1)

    The fields of [class AHKParser] (parser.ts, lines 20-43) and the
    private helpers of the class that read or move the cursor: [nextToken],
    [advance], [previous], [peek], [error], [terminal], [backto],
    [eatDiscardCR], [check], [eat], [eatAndThrow], [matchTokens],
    [jumpWhiteSpace], [atLineEnd] and [synchronize] (parser.ts, lines
    45-123 and 1377-1503).  Each one is a computation of the monad [PM]
    over the record [AHKParser].  The two loops, [jumpWhiteSpace] and
    [synchronize], take fuel. *)

From S2P Require Import Prelude Tokens Ast.

(** ** The parser state *)

Record AHKParser : Set := mkParser {
  tokenizer : Tokenizer;
  currentToken : Token;
  pos : nat;
  tokens : list Token;
  tokenErrors : list IDiagnosticInfo;
  comments : list Token;
  includes : list string
}.

Definition PM (A : Type) : Type := StExc AHKParser ParseError A.

(** [INodeResult<T>] and [nodeResult(value, errors)]. *)
Record INodeResult (A : Type) : Type := mkNodeResult { errors : list ParseError; value : A }.
Arguments mkNodeResult {A} errors value.
Arguments errors {A} _.
Arguments value {A} _.

Definition nodeResult {A} (v : A) (errs : list ParseError) : INodeResult A :=
  mkNodeResult errs v.

(** The value of [tokens[i]] when [i] is out of range. *)
Definition undefined_token : Token :=
  mkToken TokenType.unknown "undefined" (mkPosition 0 0) (mkPosition 0 0).

Definition tok_at (ts : list Token) (i : nat) : Token := default undefined_token (ts !! i).

Definition with_tokenizer (tz : Tokenizer) (st : AHKParser) : AHKParser :=
  mkParser tz (currentToken st) (pos st) (tokens st) (tokenErrors st) (comments st)
    (includes st).
Definition with_current (t : Token) (st : AHKParser) : AHKParser :=
  mkParser (tokenizer st) t (pos st) (tokens st) (tokenErrors st) (comments st)
    (includes st).
Definition with_pos (n : nat) (st : AHKParser) : AHKParser :=
  mkParser (tokenizer st) (currentToken st) n (tokens st) (tokenErrors st) (comments st)
    (includes st).
Definition push_token (t : Token) (st : AHKParser) : AHKParser :=
  mkParser (tokenizer st) (currentToken st) (pos st) (tokens st ++ [t]) (tokenErrors st)
    (comments st) (includes st).
Definition add_include (p : string) (st : AHKParser) : AHKParser :=
  mkParser (tokenizer st) (currentToken st) (pos st) (tokens st) (tokenErrors st)
    (comments st) (if decide (p ∈ includes st) then includes st else includes st ++ [p]).

Definition set_current (t : Token) : PM unit := modifyM (with_current t).
Definition push (t : Token) : PM unit := modifyM (push_token t).
Definition cur : PM Token := getsM currentToken.
Definition cur_type : PM TokenType.type := getsM (fun st => type (currentToken st)).

(** [this.tokenizer.isParseHotkey = b] and [this.tokenizer.isLiteralToken = b]. *)
Definition setParseHotkey (b : bool) : PM unit :=
  modifyM (fun st => with_tokenizer (set_isParseHotkey b (tokenizer st)) st).
Definition setLiteralToken (b : bool) : PM unit :=
  modifyM (fun st => with_tokenizer (set_isLiteralToken b (tokenizer st)) st).

(** ** [nextToken] (lines 45-58) *)

(** The [while] loop of [nextToken]: diagnostics go to [tokenErrors],
    comments to [comments].  [n] is the number of lexemes left.  When
    [n] is [0] the source is exhausted, and the next [GetNextToken]
    returns the end-of-file token. *)
Fixpoint nextToken_loop (n : nat) (tz : Tokenizer) (r : RawToken)
    (errs : list IDiagnosticInfo) (cmts : list Token)
    : Token * Tokenizer * list IDiagnosticInfo * list Token :=
  match r with
  | RToken t => (t, tz, errs, cmts)
  | RDiagnostic d =>
      let '(r', tz') := GetNextToken tz TokenType.unknown in
      match n with
      | O => (eofToken tz', tz', errs ++ [d], cmts)
      | S n' => nextToken_loop n' tz' r' (errs ++ [d]) cmts
      end
  | RComment c =>
      let '(r', tz') := GetNextToken tz (type c) in
      match n with
      | O => (eofToken tz', tz', errs, cmts ++ [c])
      | S n' => nextToken_loop n' tz' r' errs (cmts ++ [c])
      end
  end.

(** The effect of [nextToken] on the three fields it touches. *)
Definition next_raw (preType : TokenType.type) (tz : Tokenizer)
    (errs : list IDiagnosticInfo) (cmts : list Token)
    : Token * Tokenizer * list IDiagnosticInfo * list Token :=
  let '(r, tz1) := GetNextToken tz preType in
  nextToken_loop (length (pending tz1)) tz1 r errs cmts.

Definition nextToken (preType : TokenType.type) : PM Token :=
  fun st =>
    let '(t, tz', errs, cmts) :=
      next_raw preType (tokenizer st) (tokenErrors st) (comments st) in
    (Ok t, mkParser tz' (currentToken st) (pos st) (tokens st) errs cmts (includes st)).

(** ** Fetching from the Token Source, [advance] and [peek] (lines 60-116)

    [advance] and [peek] pull from the Token Source with the same code
    (lines 63-82 and 99-115).  It is [fetch] below: read a token with the
    current token's type as hint.  If it is an end of line, read one more
    token.  If that one continues the line (an operator or a comma), keep
    it and drop the end of line; otherwise keep both.  [fetch] returns
    what [peek] returns: the continuation token, or the end of line, or
    the single token read. *)
Definition fetch (st : AHKParser) : Token * AHKParser :=
  let '(t, tz1, e1, c1) :=
    next_raw (type (currentToken st)) (tokenizer st) (tokenErrors st) (comments st) in
  if decide (type t = TokenType.EOL) then
    let saveToken := t in
    let '(t2, tz2, e2, c2) := next_raw (type saveToken) tz1 e1 c1 in
    if is_continuation (type t2) then
      (t2, mkParser tz2 (currentToken st) (pos st) (tokens st ++ [t2]) e2 c2 (includes st))
    else
      (saveToken, mkParser tz2 (currentToken st) (pos st) (tokens st ++ [saveToken; t2])
                    e2 c2 (includes st))
  else (t, mkParser tz1 (currentToken st) (pos st) (tokens st ++ [t]) e1 c1 (includes st)).

(** [advance()]: [pos++], fetch when the cursor has reached the end of
    the buffer, then [currentToken = tokens[pos]].  The assignments to
    [currentToken] inside the fetch (lines 63, 68, 78) are overwritten
    by the last one (line 84), so only their use as hints matters. *)
Definition advance_st (st : AHKParser) : AHKParser :=
  let st1 := with_pos (S (pos st)) st in
  let st2 := if length (tokens st1) <=? pos st1 then snd (fetch st1) else st1 in
  with_current (tok_at (tokens st2) (pos st2)) st2.

Definition advance : PM unit := modifyM advance_st.

(** [previous()] reads [tokens[pos - 1]]; at [pos = 0] that is [undefined]. *)
Definition previous : PM Token :=
  getsM (fun st => match pos st with O => undefined_token | S p => tok_at (tokens st) p end).

(** [peek()]: the next buffered token, or a fetch. *)
Definition peek_st (st : AHKParser) : Token * AHKParser :=
  if S (pos st) <=? length (tokens st) - 1 then (tok_at (tokens st) (S (pos st)), st)
  else fetch st.

Definition peek : PM Token := fun st => let '(t, st') := peek_st st in (Ok t, st').

Definition error (token : Token) (msg : string) : ParseError := mkParseError token msg.

(** ** The small helpers (lines 1377-1452) *)

Definition backto_st (p : nat) (st : AHKParser) : AHKParser :=
  with_current (tok_at (tokens st) p) (with_pos p st).
Definition backto (p : nat) : PM unit := modifyM (backto_st p).

Definition check (t : TokenType.type) : PM bool :=
  getsM (fun st => bool_decide (t = type (currentToken st))).

Definition eat : PM Token := advance;; previous.

Definition eatAndThrow (t : TokenType.type) (msg : string) : PM Token :=
  let* c := cur in
  if decide (type c = t) then advance;; previous else throwM (error c msg).

Definition eatDiscardCR (t : TokenType.type) : PM (option Token) :=
  let* c := cur in
  if decide (type c = TokenType.EOL) then
    let* p := peek in
    if decide (type p = t) then
      advance;; advance;;
      let* pr := previous in retM (Some pr)
    else retM None
  else
    let* b := check t in
    if b then advance;; let* pr := previous in retM (Some pr)
    else retM None.

Definition matchTokens (ts : list TokenType.type) : PM bool :=
  let* c := cur in
  if decide (type c = TokenType.EOF) then retM false
  else retM (bool_decide (type c ∈ ts)).

Definition terminal : PM unit :=
  let* c := cur in
  if decide (type c = TokenType.EOF) then retM tt
  else eatAndThrow TokenType.EOL ("Expect " +:+ dq +:+ "`n" +:+ dq +:+ " to terminate statement");;
       retM tt.

Fixpoint jumpWhiteSpace (fuel : nat) : PM unit :=
  match fuel with
  | O => out_of_fuel
  | S f =>
      let* c := cur in
      if decide (type c = TokenType.EOL) then advance;; jumpWhiteSpace f
      else retM tt
  end.

Definition atLineEnd : PM bool :=
  let* c := cur in
  retM (bool_decide (type c = TokenType.EOL \/ type c = TokenType.EOF)).

(** The token types at which [synchronize] stops without consuming: the
    starts of declarations, commands, control flow and directives. *)
Definition sync_stop_types : list TokenType.type :=
  [TokenType.local; TokenType.global; TokenType.static; TokenType.class;
   TokenType.command; TokenType.if_; TokenType.loop; TokenType.while;
   TokenType.until; TokenType.return_; TokenType.break; TokenType.switch;
   TokenType.for_; TokenType.try; TokenType.throw; TokenType.drective].

(** [synchronize()] (lines 1455-1503). *)
Fixpoint synchronize (fuel : nat) : PM unit :=
  match fuel with
  | O => out_of_fuel
  | S f =>
      let* c := cur in
      if decide (type c = TokenType.EOF) then retM tt
      else
        let* p := peek in
        if decide (type p ∈ sync_stop_types) then retM tt
        else if decide (type p = TokenType.closeBrace) then advance
        else if decide (type p = TokenType.EOL) then advance
        else advance;; synchronize f
  end.

(** ** Building a parser *)

(** A fresh buffer over a Token Source whose hotkey flag is [hk]: the
    first token is read with the hint [EOL] and pushed. *)
Definition start_buffer (hk : bool) (tz : Tokenizer) : AHKParser :=
  let st0 := mkParser (set_isParseHotkey hk tz) undefined_token 0 [] [] [] [] in
  match nextToken TokenType.EOL st0 with
  | (Ok t, st1) => push_token t (with_current t st1)
  | (_, st1) => st1
  end.

(** [new AHKParser(document, uri)] (lines 36-43) over a Token Source. *)
Definition initParser (tz : Tokenizer) : AHKParser := start_buffer true tz.

(** ** Concrete token sources *)

(** A lexeme that reads the same token in every context. *)
Definition fixed_lexeme (t : Token) : Lexeme := fun _ => RToken t.

(** Tokens laid out on lines: each token is followed by one blank, and
    an [EOL] token moves to the next line. *)
Fixpoint layout (line col : Z) (ts : list (TokenType.type * string)) : list Token :=
  match ts with
  | [] => []
  | (ty, s) :: r =>
      let w := Z.of_nat (String.length s) in
      mkToken ty s (mkPosition line col) (mkPosition line (col + w))
        :: (if decide (ty = TokenType.EOL) then layout (line + 1) 0 r
            else layout line (col + w + 1) r)
  end.

Definition source_of (ts : list (TokenType.type * string)) : Tokenizer :=
  let toks := layout 0 0 ts in
  let eofpos := match last toks with Some t => end_ t | None => mkPosition 0 0 end in
  mkTokenizer (map fixed_lexeme toks) false false (mkToken TokenType.EOF "" eofpos eofpos).

Definition parser_of (ts : list (TokenType.type * string)) : AHKParser :=
  initParser (source_of ts).

(** ** Properties of the Token Buffer *)

(** The buffer invariant: the cursor is inside the buffer and the current
    token is the one under it. *)
Definition buffer_wf (st : AHKParser) : Prop :=
  pos st < length (tokens st) /\ tokens st !! pos st = Some (currentToken st).

(** [grows c]: whatever [c] returns, the tokens buffered before it stay
    at their indices. *)
Definition grows {A} (c : PM A) : Prop :=
  forall s r s', c s = (r, s') -> tokens s `prefix_of` tokens s'.

Lemma fetch_with_pos n st :
  fetch (with_pos n st) = (fst (fetch st), with_pos n (snd (fetch st))).
Proof.
  unfold fetch; destruct st; simpl.
  repeat (case_match; simplify_eq/=); done.
Qed.

(** What [fetch] appends: the token it returns comes first, and only the
    tokenizer, the two diagnostic lists and the buffer change. *)
#[local] Arguments fetch : simpl never.

Lemma fetch_shape st :
  exists rest tz e c,
    snd (fetch st) = mkParser tz (currentToken st) (pos st)
                       (tokens st ++ fst (fetch st) :: rest) e c (includes st).
Proof.
  unfold fetch.
  destruct (next_raw _ _ _ _) as [[[t tz1] e1] c1].
  destruct (decide (type t = TokenType.EOL)).
  - destruct (next_raw _ _ _ _) as [[[t2 tz2] e2] c2].
    destruct (is_continuation (type t2)); simpl; eauto.
  - simpl. eauto.
Qed.

Lemma fetch_length st : length (tokens st) < length (tokens (snd (fetch st))).
Proof.
  destruct (fetch_shape st) as (rest & tz & e & c & ->). simpl.
  rewrite length_app. simpl. lia.
Qed.

Lemma fetch_lookup_old st i t :
  tokens st !! i = Some t -> tokens (snd (fetch st)) !! i = Some t.
Proof.
  destruct (fetch_shape st) as (rest & tz & e & c & ->). simpl.
  apply lookup_app_length_l.
Qed.

Lemma fetch_lookup_new st :
  tokens (snd (fetch st)) !! length (tokens st) = Some (fst (fetch st)).
Proof.
  destruct (fetch_shape st) as (rest & tz & e & c & ->). simpl.
  rewrite lookup_app_r by lia. by rewrite Nat.sub_diag.
Qed.

(** Line folding (spec 4.1): an end of line followed by a continuation
    starter is dropped and the starter takes its place; any other end of
    line is kept with the token after it. *)
Lemma fetch_folding st :
  let '(t, tz1, e1, c1) :=
    next_raw (type (currentToken st)) (tokenizer st) (tokenErrors st) (comments st) in
  let '(t2, tz2, e2, c2) := next_raw (type t) tz1 e1 c1 in
  tokens (snd (fetch st)) =
    tokens st ++ (if decide (type t = TokenType.EOL) then
                    if is_continuation (type t2) then [t2] else [t; t2]
                  else [t]).
Proof.
  unfold fetch.
  destruct (next_raw _ _ _ _) as [[[t tz1] e1] c1].
  destruct (next_raw (type t) _ _ _) as [[[t2 tz2] e2] c2] eqn:E2.
  destruct (decide (type t = TokenType.EOL)) as [He|He]; simpl; [|done].
  by destruct (is_continuation (type t2)).
Qed.

(** [peek] followed by [advance] leaves the parser in the state that
    [advance] alone reaches: lookahead and consumption fold lines the
    same way (spec 4.1). *)
Lemma peek_then_advance st :
  buffer_wf st -> advance_st (snd (peek_st st)) = advance_st st.
Proof.
  intros [Hlt _]. unfold peek_st.
  destruct (S (pos st) <=? length (tokens st) - 1) eqn:E1; [done|].
  apply Nat.leb_gt in E1. unfold advance_st. simpl.
  pose proof (fetch_length st) as Hl.
  destruct (fetch_shape st) as (rest & tz & e & c & Hf).
  rewrite fetch_with_pos. simpl.
  assert ((length (tokens st) <=? S (pos st)) = true) as -> by (apply Nat.leb_le; lia).
  rewrite Hf. simpl. rewrite length_app. simpl.
  assert ((length (tokens st) + S (length rest) <=? S (pos st)) = false) as -> by
    (apply Nat.leb_gt; lia).
  rewrite fetch_with_pos, Hf. done.
Qed.

(** The token [peek] returns is the token [advance] moves onto. *)
Lemma peek_advance_current st :
  buffer_wf st -> currentToken (advance_st st) = fst (peek_st st).
Proof.
  intros [Hlt _]. unfold peek_st, advance_st.
  destruct (S (pos st) <=? length (tokens st) - 1) eqn:E1; simpl.
  - apply Nat.leb_le in E1.
    assert ((length (tokens st) <=? S (pos st)) = false) as -> by (apply Nat.leb_gt; lia).
    done.
  - apply Nat.leb_gt in E1.
    assert ((length (tokens st) <=? S (pos st)) = true) as -> by (apply Nat.leb_le; lia).
    rewrite fetch_with_pos. simpl. unfold tok_at.
    assert (S (pos st) = length (tokens st)) as -> by lia.
    by rewrite fetch_lookup_new.
Qed.

Lemma advance_st_wf st : buffer_wf st -> buffer_wf (advance_st st).
Proof.
  intros [Hlt _]. unfold advance_st, buffer_wf. simpl.
  destruct (length (tokens st) <=? S (pos st)) eqn:E1.
  - apply Nat.leb_le in E1. rewrite fetch_with_pos. simpl.
    pose proof (fetch_length st) as Hl.
    assert (S (pos st) = length (tokens st)) as -> by lia.
    unfold tok_at. rewrite fetch_lookup_new. split; [lia|done].
  - apply Nat.leb_gt in E1. simpl.
    destruct (lookup_lt_is_Some_2 (tokens st) (S (pos st))) as [t Ht]; [lia|].
    unfold tok_at. rewrite Ht. split; [lia|done].
Qed.

Lemma peek_st_wf st : buffer_wf st -> buffer_wf (snd (peek_st st)).
Proof.
  intros [Hlt Hc]. unfold peek_st.
  destruct (S (pos st) <=? length (tokens st) - 1); [by split|].
  destruct (fetch_shape st) as (rest & tz & e & c & ->).
  split; simpl; [rewrite length_app; lia | by apply lookup_app_length_l].
Qed.

(** The buffer only grows: every token fetched stays at its index. *)
Lemma advance_st_prefix st : tokens st `prefix_of` tokens (advance_st st).
Proof.
  unfold advance_st. simpl.
  destruct (length (tokens st) <=? S (pos st)); simpl; [|done].
  rewrite fetch_with_pos. simpl.
  destruct (fetch_shape st) as (rest & tz & e & c & ->). simpl.
  by eexists.
Qed.

Lemma peek_st_prefix st : tokens st `prefix_of` tokens (snd (peek_st st)).
Proof.
  unfold peek_st.
  destruct (S (pos st) <=? length (tokens st) - 1); simpl; [done|].
  destruct (fetch_shape st) as (rest & tz & e & c & ->). simpl. by eexists.
Qed.

Lemma advance_st_pos st : pos (advance_st st) = S (pos st).
Proof.
  unfold advance_st. simpl.
  destruct (length (tokens st) <=? S (pos st)); simpl; [|done].
  by rewrite fetch_with_pos.
Qed.

Lemma peek_st_cursor st :
  pos (snd (peek_st st)) = pos st /\ currentToken (snd (peek_st st)) = currentToken st.
Proof.
  unfold peek_st.
  destruct (S (pos st) <=? length (tokens st) - 1); simpl; [done|].
  by destruct (fetch_shape st) as (rest & tz & e & c & ->).
Qed.

(** ** The buffer operations never throw *)

Lemma advance_nothrow : nothrow advance.
Proof. apply nothrow_modify. Qed.

Lemma peek_nothrow : nothrow peek.
Proof. intros s e s'. unfold peek. by destruct (peek_st s). Qed.

Lemma nextToken_nothrow h : nothrow (nextToken h).
Proof. intros s e s'. unfold nextToken. by destruct (next_raw _ _ _ _) as [[[??]?]?]. Qed.

#[export] Hint Resolve advance_nothrow peek_nothrow nextToken_nothrow : ahk.

Lemma eatDiscardCR_nothrow t : nothrow (eatDiscardCR t).
Proof. unfold eatDiscardCR, cur, check, previous. solve_nothrow. Qed.

Lemma matchTokens_nothrow ts : nothrow (matchTokens ts).
Proof. unfold matchTokens, cur. solve_nothrow. Qed.

Lemma jumpWhiteSpace_nothrow fuel : nothrow (jumpWhiteSpace fuel).
Proof. induction fuel; simpl; unfold cur; solve_nothrow. Qed.

Lemma synchronize_nothrow fuel : nothrow (synchronize fuel).
Proof. induction fuel; simpl; unfold cur; solve_nothrow. Qed.

#[export] Hint Resolve eatDiscardCR_nothrow matchTokens_nothrow jumpWhiteSpace_nothrow
  synchronize_nothrow : ahk.

(** [inv_ok] that also sees through the buffer operations. *)
Ltac inv_buf H :=
  repeat (unfold advance, cur, cur_type, previous, set_current, push, check,
            setParseHotkey, setLiteralToken in H; inv_ok H).

(** ** The buffer only grows *)

Lemma grows_ret {A} (a : A) : grows (retM a).
Proof. by intros s r s' [= _ <-]. Qed.

Lemma grows_gets {A} (f : AHKParser -> A) : grows (getsM f).
Proof. by intros s r s' [= _ <-]. Qed.

Lemma grows_get : grows getM.
Proof. by intros s r s' [= _ <-]. Qed.

Lemma grows_throw {A} e : grows (@throwM _ _ A e).
Proof. by intros s r s' [= _ <-]. Qed.

Lemma grows_out_of_fuel {A} : grows (@out_of_fuel _ _ A).
Proof. by intros s r s' [= _ <-]. Qed.

Lemma grows_bind {A B} (c : PM A) (k : A -> PM B) :
  grows c -> (forall a, grows (k a)) -> grows (bindM c k).
Proof.
  intros Hc Hk s r s' H. unfold bindM in H.
  destruct (c s) as [[a|e|] s1] eqn:E; simplify_eq;
    [etrans; [by eapply Hc | by eapply Hk] | by eapply Hc ..].
Qed.

Lemma grows_advance : grows advance.
Proof. intros s r s' [= _ <-]. apply advance_st_prefix. Qed.

Lemma grows_peek : grows peek.
Proof.
  intros s r s' H. unfold peek in H.
  pose proof (peek_st_prefix s). destruct (peek_st s). by simplify_eq.
Qed.

Lemma grows_modify_tokens (f : AHKParser -> AHKParser) :
  (forall s, tokens (f s) = tokens s) -> grows (modifyM f).
Proof. intros Hf s r s' [= _ <-]. by rewrite Hf. Qed.

Lemma grows_backto p : grows (backto p).
Proof. by apply grows_modify_tokens. Qed.

Lemma grows_setParseHotkey b : grows (setParseHotkey b).
Proof. by apply grows_modify_tokens. Qed.

#[export] Hint Resolve grows_ret grows_gets grows_get grows_throw grows_out_of_fuel
  grows_advance grows_peek grows_backto grows_setParseHotkey : ahk.

(** Prove [grows c] by following the structure of [c]. *)
Ltac solve_grows :=
  unfold cur, cur_type, previous, check, set_current, push in *;
  repeat first
    [ progress eauto with ahk
    | apply grows_bind; [| intros ?]
    | case_match ].

Lemma grows_eatDiscardCR t : grows (eatDiscardCR t).
Proof. unfold eatDiscardCR. solve_grows. Qed.

Lemma grows_eatAndThrow t m : grows (eatAndThrow t m).
Proof. unfold eatAndThrow. solve_grows. Qed.

#[export] Hint Resolve grows_eatDiscardCR grows_eatAndThrow : ahk.

(** [backto p] at an index of the buffer makes the token there current. *)
Lemma backto_current p s u s' t :
  tokens s !! p = Some t -> backto p s = (Ok u, s') -> currentToken s' = t.
Proof. intros Hp [= _ <-]. simpl. unfold tok_at. by rewrite Hp. Qed.

(** The parser starts on a well-formed buffer holding the first token. *)
Lemma start_buffer_wf hk tz : buffer_wf (start_buffer hk tz).
Proof.
  unfold start_buffer, nextToken.
  destruct (next_raw _ _ _ _) as [[[t tz'] e] c]. split; simpl; [lia | done].
Qed.

#[export] Hint Resolve start_buffer_wf : ahk.

(** ** Loops that stop at once *)

(** [synchronize] in front of a statement keyword stops without moving:
    it only looks ahead. *)
Lemma synchronize_stop f st :
  type (currentToken st) <> TokenType.EOF ->
  type (fst (peek_st st)) ∈ sync_stop_types ->
  synchronize (S f) st = (Ok tt, snd (peek_st st)).
Proof.
  intros He Hs. cbn [synchronize]. unfold cur, getsM, bindM at 1.
  rewrite decide_False by done. unfold bindM, peek.
  destruct (peek_st st) as [p s]. simpl in Hs. by rewrite decide_True.
Qed.

Lemma jumpWhiteSpace_stop f st :
  type (currentToken st) <> TokenType.EOL -> jumpWhiteSpace (S f) st = (Ok tt, st).
Proof.
  intros He. cbn [jumpWhiteSpace]. unfold cur, getsM, bindM.
  by rewrite decide_False.
Qed.
