(* ===== verification/Folding.v ===== *)
(** * Folding: the Token Buffer refines the folded token stream

    The spec (section 4.1) describes the Token Buffer by the stream of
    tokens it serves: the tokens of the source, where an end of line
    followed by a continuation starter (an operator of the range
    [pplus .. comma]) is dropped, and then end-of-file tokens for ever.
    [fold_stream] below is that stream, written as a plain function on
    the list of tokens of a source whose lexemes do not depend on the
    context ([fixed_lexeme]).  The theorem [buffer_reads_folded_stream]
    shows that under any interleaving of [advance], [peek] and [backto]
    (to an index already reached) the current token and the token
    [peek] returns are the tokens of the stream at the cursor and one
    past it.

    The reading in pairs of [fetch] (lines 60-116 of [parser.ts]) is
    part of the stream: the token read after an end of line is never
    itself examined as an end of line, so in [EOL EOL +] only the first
    end of line is a candidate for folding, and the second one stays. *)

From S2P Require Import Prelude Tokens TokenBuffer.

(** A token of the type [t] at the start of the first line. *)
Definition tok0 (t : TokenType.type) (s : string) : Token :=
  mkToken t s (mkPosition 0 0) (mkPosition 0 0).

Definition eof0 : Token := tok0 TokenType.EOF "".

Section Folding.
Variable eof : Token.

(** The stream of the spec over the tokens [ts] that follow the first
    token of the source. *)
Fixpoint fold_stream (ts : list Token) : list Token :=
  match ts with
  | [] => []
  | t :: r =>
      if decide (type t = TokenType.EOL) then
        match r with
        | [] => [t; eof]
        | t2 :: r' =>
            (if is_continuation (type t2) then [t2] else [t; t2]) ++ fold_stream r'
        end
      else t :: fold_stream r
  end.

(** The first token is read by the constructor of the parser, without
    folding. *)
Definition stream_of (toks : list Token) : list Token :=
  match toks with
  | [] => [eof]
  | t0 :: r => t0 :: fold_stream r
  end.

Definition stream_at (toks : list Token) (i : nat) : Token :=
  default eof (stream_of toks !! i).

(** A tokenizer that will read the tokens [ts], then [eof]. *)
Definition reads (tz : Tokenizer) (ts : list Token) : Prop :=
  pending tz = map fixed_lexeme ts /\ eofToken tz = eof.

(** The buffer is the stream read so far. *)
Definition buffer_inv (toks : list Token) (st : AHKParser) : Prop :=
  exists ts k, reads (tokenizer st) ts /\
    tokens st ++ fold_stream ts = stream_of toks ++ replicate k eof.

(** Client programs of the buffer: the parser moves forward with
    [advance], looks ahead with [peek] and goes back with [backto] to
    an index it has reached. *)
Inductive BufOp : Set :=
| OpAdvance
| OpPeek
| OpBackto (p : nat).

Fixpoint run_ops (ops : list BufOp) (st : AHKParser) : AHKParser :=
  match ops with
  | [] => st
  | OpAdvance :: r => run_ops r (advance_st st)
  | OpPeek :: r => run_ops r (snd (peek_st st))
  | OpBackto p :: r => run_ops r (if p <=? pos st then backto_st p st else st)
  end.

Hypothesis eof_type : type eof = TokenType.EOF.

Lemma next_raw_reads h tz ts errs cmts :
  reads tz ts ->
  exists tz', reads tz' (tail ts) /\
    next_raw h tz errs cmts = (default eof (head ts), tz', errs, cmts).
Proof.
  intros [Hp He]. unfold next_raw, GetNextToken. rewrite Hp.
  destruct ts as [|t r]; simpl.
  - exists tz. split; [by split | rewrite Hp; simpl; by rewrite He].
  - exists (mkTokenizer (map fixed_lexeme r) (isParseHotkey tz) false (eofToken tz)).
    split; [split; simpl; [done | exact He] | destruct (length _); reflexivity].
Qed.

Lemma eof_not_EOL : type eof <> TokenType.EOL.
Proof. by rewrite eof_type. Qed.

Lemma eof_not_continuation : is_continuation (type eof) = false.
Proof. by rewrite eof_type. Qed.

Lemma fetch_inv toks st : buffer_inv toks st -> buffer_inv toks (snd (fetch st)).
Proof.
  intros (ts & k & Hr & Heq). unfold fetch.
  destruct (next_raw_reads (type (currentToken st)) _ _ (tokenErrors st) (comments st) Hr)
    as (tz1 & Hr1 & ->).
  destruct ts as [|t r]; simpl in *.
  - rewrite decide_False by apply eof_not_EOL. exists [], (S k). split; [done|].
    rewrite replicate_S_end, app_assoc, <-Heq. simpl. by rewrite !app_nil_r.
  - case_decide as Ht.
    + destruct (next_raw_reads (type t) _ _ (tokenErrors st) (comments st) Hr1)
        as (tz2 & Hr2 & ->).
      destruct r as [|t2 r']; simpl in *.
      * rewrite eof_not_continuation. exists [], k. split; [done|].
        rewrite <-Heq. by rewrite app_nil_r.
      * destruct (is_continuation (type t2)); exists r', k; split; try done;
          simpl; by rewrite <-Heq, <-?app_assoc.
    + exists r, k. split; [done|]. simpl; by rewrite <-Heq, <-?app_assoc.
Qed.

Lemma advance_st_inv toks st : buffer_inv toks st -> buffer_inv toks (advance_st st).
Proof.
  intros H. unfold advance_st.
  destruct (length (tokens (with_pos _ st)) <=? pos (with_pos _ st)).
  - rewrite fetch_with_pos. by apply fetch_inv in H.
  - exact H.
Qed.

Lemma peek_st_inv toks st : buffer_inv toks st -> buffer_inv toks (snd (peek_st st)).
Proof.
  intros H. unfold peek_st. destruct (_ <=? _); [exact H | by apply fetch_inv].
Qed.

Lemma backto_st_wf p st : p <= pos st -> buffer_wf st -> buffer_wf (backto_st p st).
Proof.
  intros Hp [Hlt Hc]. unfold backto_st, buffer_wf. simpl.
  destruct (lookup_lt_is_Some_2 (tokens st) p) as [x Hx]; [lia|].
  split; [lia|]. unfold tok_at. by rewrite Hx.
Qed.

Lemma run_ops_inv toks ops st :
  buffer_wf st -> buffer_inv toks st ->
  buffer_wf (run_ops ops st) /\ buffer_inv toks (run_ops ops st).
Proof.
  revert st. induction ops as [|[ | | p] ops IH]; intros st Hwf Hinv; simpl; [done|..].
  - apply IH; [by apply advance_st_wf | by apply advance_st_inv].
  - apply IH; [by apply peek_st_wf | by apply peek_st_inv].
  - destruct (p <=? pos st) eqn:Hp; apply IH; try done.
    + apply backto_st_wf; [by apply Nat.leb_le | done].
Qed.

(** Every buffered token is the token of the stream at its index. *)
Lemma buffer_inv_lookup toks st i x :
  buffer_inv toks st -> tokens st !! i = Some x -> x = stream_at toks i.
Proof.
  intros (ts & k & _ & Heq) Hx. unfold stream_at.
  apply (lookup_app_l_Some _ (fold_stream ts)) in Hx. rewrite Heq in Hx.
  apply lookup_app_Some in Hx as [Hx | [Hlen Hx]].
  - by rewrite Hx.
  - apply lookup_replicate in Hx as [-> _].
    by rewrite (lookup_ge_None_2 (stream_of toks) i).
Qed.

Lemma start_buffer_inv hk hk' lit toks :
  buffer_inv toks (start_buffer hk (mkTokenizer (map fixed_lexeme toks) hk' lit eof)).
Proof.
  unfold start_buffer, nextToken. cbn [tokenizer tokenErrors comments].
  destruct (next_raw_reads TokenType.EOL (set_isParseHotkey hk
              (mkTokenizer (map fixed_lexeme toks) hk' lit eof)) toks [] [])
    as (tz & Hr & ->); [done|].
  exists (tail toks), 0. split; [done|].
  destruct toks; simpl; by rewrite ?app_nil_r.
Qed.

(** The token [peek] returns on a well-formed buffer is the one at the
    next index. *)
Lemma peek_st_lookup st :
  buffer_wf st -> tokens (snd (peek_st st)) !! S (pos st) = Some (fst (peek_st st)).
Proof.
  intros [Hlt _]. unfold peek_st.
  destruct (S (pos st) <=? length (tokens st) - 1) eqn:E.
  - apply Nat.leb_le in E. simpl. unfold tok_at.
    destruct (lookup_lt_is_Some_2 (tokens st) (S (pos st))) as [x Hx]; [lia|].
    by rewrite Hx.
  - apply Nat.leb_gt in E. replace (S (pos st)) with (length (tokens st)) by lia.
    apply fetch_lookup_new.
Qed.

(** (C9) Refinement of the Token Buffer: after any sequence of
    [advance], [peek] and [backto] (to an index already reached) from
    the start of a source of context-free lexemes, the current token
    is the token of the folded stream at the cursor, and [peek] returns
    the token of the stream one past it.  Lookahead and consumption
    never disagree, and going back never re-reads the source
    (spec 4.1). *)
Theorem buffer_reads_folded_stream hk hk' lit toks ops :
  let st := run_ops ops (start_buffer hk (mkTokenizer (map fixed_lexeme toks) hk' lit eof)) in
  currentToken st = stream_at toks (pos st) /\ fst (peek_st st) = stream_at toks (S (pos st)).
Proof.
  cbv zeta.
  destruct (run_ops_inv toks ops _ (start_buffer_wf _ _) (start_buffer_inv hk hk' lit toks))
    as [Hwf Hinv].
  split.
  - destruct Hwf as [_ Hc]. exact (buffer_inv_lookup _ _ _ _ Hinv Hc).
  - exact (buffer_inv_lookup _ _ _ _ (peek_st_inv _ _ Hinv) (peek_st_lookup _ Hwf)).
Qed.
End Folding.

(** Witness of (C9): on [a], end of line, [+ b], one [advance] lands on
    the [+]: the end of line is folded away. *)
Lemma buffer_reads_folded_stream_witness :
  let toks := [tok0 TokenType.id "a"; tok0 TokenType.EOL ""; tok0 TokenType.plus "+";
               tok0 TokenType.id "b"] in
  let st := run_ops [OpPeek; OpAdvance] (start_buffer true
              (mkTokenizer (map fixed_lexeme toks) true false eof0)) in
  type eof0 = TokenType.EOF /\
  currentToken st = stream_at eof0 toks (pos st) /\
  fst (peek_st st) = stream_at eof0 toks (S (pos st)) /\
  currentToken st = tok0 TokenType.plus "+".
Proof.
  cbv zeta. split; [reflexivity|].
  split; [|split; [|vm_compute; reflexivity]];
    apply (buffer_reads_folded_stream eof0 eq_refl).
Defined.

Lemma fold_stream_even_eols eof e x m :
  type e = TokenType.EOL ->
  fold_stream eof (replicate (2 * m) e ++ x) = replicate (2 * m) e ++ fold_stream eof x.
Proof.
  intros He. induction m as [|m IH]; [done|].
  replace (2 * S m) with (S (S (2 * m))) by lia. cbn [replicate app fold_stream].
  rewrite decide_True by done. rewrite He, IH. reflexivity.
Qed.

Lemma continuation_not_EOL t : is_continuation (type t) = true -> type t <> TokenType.EOL.
Proof. intros Hc He. by rewrite He in Hc. Qed.

(** (C10) A continuation starter is joined to the line above only
    when exactly one line end stands before it.  [fetch] reads an end of
    line and the token after it as a pair, so of [n] line ends in a row
    followed by an operator only the last can be folded, and it is
    folded when [n] is odd: the operator keeps [n] line ends before it
    when [n] is even and [n - 1] when [n] is odd, which is [0] only for
    [n = 1]. *)
Theorem continuation_after_blank_lines eof e t r n :
  type e = TokenType.EOL -> is_continuation (type t) = true ->
  fold_stream eof (replicate n e ++ t :: r) =
    (if Nat.even n then replicate n e else replicate (n - 1) e) ++ t :: fold_stream eof r.
Proof.
  intros He Hc. pose proof (continuation_not_EOL t Hc) as Ht.
  destruct (Nat.Even_or_Odd n) as [[m ->] | [m ->]].
  - assert (Nat.even (2 * m) = true) as -> by (rewrite Nat.even_mul; reflexivity).
    rewrite fold_stream_even_eols by done. f_equal.
    cbn [fold_stream]. by rewrite decide_False.
  - assert (Nat.even (2 * m + 1) = false) as ->
      by (rewrite Nat.even_add, Nat.even_mul; reflexivity).
    replace (2 * m + 1 - 1) with (2 * m) by lia.
    rewrite replicate_add, <-app_assoc.
    change (replicate 1 e ++ t :: r) with (e :: t :: r).
    rewrite fold_stream_even_eols by done. f_equal.
    cbn [fold_stream]. rewrite decide_True by done. by rewrite Hc.
Qed.

(** Witness of (C10): after two line ends both stay; after three, two
    stay. *)
Lemma continuation_after_blank_lines_witness :
  let e := tok0 TokenType.EOL "" in
  let t := tok0 TokenType.plus "+" in
  type e = TokenType.EOL /\ is_continuation (type t) = true /\
  fold_stream eof0 (replicate 2 e ++ [t]) = [e; e; t] /\
  fold_stream eof0 (replicate 3 e ++ [t]) = [e; e; t].
Proof.
  cbv zeta. split; [reflexivity|]. split; [reflexivity|].
  split; [rewrite (continuation_after_blank_lines eof0 _ _ [] 2) |
          rewrite (continuation_after_blank_lines eof0 _ _ [] 3)]; reflexivity.
Defined.
