(* ===== verification/ExprParser.v ===== *)
(** * ExprParser: the expression and suffix-term parser (spec 4.2, 4.3)

    [expression], [factor], [suffixTerm], [atom], [arrayTerm],
    [associativeArray], [pair], [arrayBracket], [funcCallTrailer] and
    [emptyArg] of [src/server/src/parser/newtry/parser/parser.ts] (lines
    837-1279).  They form one mutual [Fixpoint] over a fuel argument.
    Every call and every iteration of a loop uses one unit of fuel.  Each
    [while] or [do ... while] loop of the source is a function of its own
    ([pratt], [factor_chain], [suffix_trailers], [array_items],
    [assoc_pairs], [call_args]).  Its parameters are the local variables
    the loop updates.  The [try]/[catch] of [expression] is [catchM]: a
    thrown [ParseError] is turned into an [InvalidExpr] node after
    [synchronize].  [OutOfFuel] passes through the [catchM]. *)

From S2P Require Import Prelude Tokens Ast TokenBuffer.

(** A message with a quoted fragment: [q "x"] is ["x"] between double
    quotes. *)
Definition q (s : string) : string := dq +:+ s +:+ dq.

Definition msg_ternary_colon : string := "Expect a " +:+ q ":" +:+ " in ternary expression".
Definition msg_precent : string := "Expect " +:+ q "%" +:+ " in precent expression".
Definition msg_array_end : string := "Expect a " +:+ q "]" +:+ " to end array".
Definition msg_dict_end : string :=
  "Expect a " +:+ q "}" +:+ " at the end of associative array".
Definition msg_pair_colon : string :=
  "Expect a " +:+ q ":" +:+ " on key-value pairs in associative array".
Definition msg_index_end : string := "Expected a " +:+ q "]" +:+ " at end of array index ".
Definition msg_call_end : string := "Expected a " +:+ q ")" +:+ " at end of call".

(** [emptyArg()] (lines 1269-1279): an empty string literal at position
    (-1, -1). *)
Definition emptyArg : Expr :=
  Factor (MkSuffixTerm
            (Literal (mkToken TokenType.string "" (mkPosition (-1) (-1))
                                (mkPosition (-1) (-1)))) [])
         None None.

(** [current.dot = dot; current.trailer = trailer] (lines 1053-1054). *)
Definition link_trailer (current : SuffixTrailer) (dot : Token) (trailer : SuffixTrailer)
    : SuffixTrailer :=
  match current with MkSuffixTrailer s _ _ => MkSuffixTrailer s (Some dot) (Some trailer) end.

(** [atom.value instanceof SuffixTerm.Invalid] *)
Definition is_invalid_atom (a : Atom) : bool :=
  match a with InvalidAtom _ => true | _ => false end.

(** [tokens.slice(start, pos)] followed by [tokens.push(currentToken)]. *)
Definition consumed_tokens (start : nat) (st : AHKParser) : list Token :=
  take (pos st - start) (drop start (tokens st)) ++ [currentToken st].

Fixpoint expression (fuel : nat) (p : nat) {struct fuel} : PM (INodeResult Expr) :=
  match fuel with
  | O => out_of_fuel
  | S f =>
      let* st0 := getM in
      let start := pos st0 in
      setParseHotkey false;;
      catchM
        (let* c := cur in
         let* result :=
           match type c with
           | TokenType.plus | TokenType.minus | TokenType.and | TokenType.multi
           | TokenType.not | TokenType.bnot | TokenType.pplus | TokenType.mminus
           | TokenType.new =>
               let saveToken := c in
               advance;;
               let q := if is_incdec (type saveToken) then prec TokenType.pplus
                        else UnaryPrecedence in
               let* expr := expression f q in
               retM (nodeResult (Unary saveToken (value expr)) (errors expr))
           | TokenType.openParen =>
               advance;;
               let* r := expression f 0 in
               advance;;
               retM r
           | TokenType.number | TokenType.string | TokenType.openBrace
           | TokenType.openBracket | TokenType.id | TokenType.precent =>
               factor f
           | _ => throwM (error c "Expect an experssion")
           end in
         let* result := pratt f p result in
         setParseHotkey true;;
         retM result)
        (fun err =>
           synchronize f;;
           let* st1 := getM in
           let toks := consumed_tokens start st1 in
           retM (nodeResult (InvalidExpr (Tokens.start (tok_at toks 0)) toks) [err]))
  end

(** The [while (true)] loop of the Pratt parser (lines 892-997). *)
with pratt (fuel : nat) (p : nat) (result : INodeResult Expr) {struct fuel}
    : PM (INodeResult Expr) :=
  match fuel with
  | O => out_of_fuel
  | S f =>
      setParseHotkey false;;
      let* c := cur in
      if is_left_binary (type c) && prec_ge (type c) p then
        let saveToken := c in
        advance;;
        let q := prec (type saveToken) in
        let* right := expression f (q + 1) in
        pratt f p (nodeResult (Binary (value result) saveToken (value right))
                              (errors result ++ errors right))
      else if is_incdec (type c) && prec_ge (type c) p then
        let saveToken := c in
        advance;;
        pratt f p (nodeResult (Unary saveToken (value result)) (errors result))
      else if is_right_assoc (type c) && prec_ge (type c) p then
        let saveToken := c in
        advance;;
        let q := prec (type saveToken) in
        if decide (type saveToken = TokenType.question) then
          let* trueExpr := expression f 0 in
          let* colon := eatAndThrow TokenType.colon msg_ternary_colon in
          let* falseExpr := expression f q in
          pratt f p (nodeResult
                       (Ternary (value result) saveToken (value trueExpr) colon
                                (value falseExpr))
                       (errors result ++ errors trueExpr ++ errors falseExpr))
        else
          let* right := expression f q in
          pratt f p (nodeResult (Binary (value result) saveToken (value right))
                                (errors result ++ errors right))
      else if is_value_start (type c) && prec_ge TokenType.sconnect p then
        let* right := expression f (prec TokenType.sconnect + 1) in
        pratt f p (nodeResult
                     (Binary (value result)
                        (mkToken TokenType.implconn " " (expr_end (value result))
                                 (expr_start (value right)))
                        (value right))
                     (errors result ++ errors right))
      else retM result
  end

(** [factor()] (lines 1024-1058). *)
with factor (fuel : nat) {struct fuel} : PM (INodeResult Expr) :=
  match fuel with
  | O => out_of_fuel
  | S f =>
      let* suffixTerm0 := suffixTerm f false in
      let errs := errors suffixTerm0 in
      let* c := cur in
      if decide (type c = TokenType.dot) then
        let dot := c in
        advance;;
        let* suffixTerm1 := suffixTerm f true in
        let trailer := MkSuffixTrailer (value suffixTerm1) None None in
        let* '(current, errs') := factor_chain f trailer (errs ++ errors suffixTerm1) in
        retM (nodeResult (Factor (value suffixTerm0) (Some dot) (Some current)) errs')
      else retM (nodeResult (Factor (value suffixTerm0) None None) errs)
  end

(** The loop of lines 1046-1055.  [current] is never reassigned, so
    every dot after the first relinks the first trailer. *)
with factor_chain (fuel : nat) (current : SuffixTrailer) (errs : list ParseError)
    {struct fuel} : PM (SuffixTrailer * list ParseError) :=
  match fuel with
  | O => out_of_fuel
  | S f =>
      let* c := cur in
      if decide (type c = TokenType.dot) then
        let dot := c in
        advance;;
        let* st := suffixTerm f true in
        let trailer := MkSuffixTrailer (value st) None None in
        factor_chain f (link_trailer current dot trailer) (errs ++ errors st)
      else retM (current, errs)
  end

(** [suffixTerm(isTailor)] (lines 1060-1087). *)
with suffixTerm (fuel : nat) (isTailor : bool) {struct fuel} : PM (INodeResult SuffixTerm) :=
  match fuel with
  | O => out_of_fuel
  | S f =>
      let* atom0 := atom f isTailor in
      let isValid := negb (is_invalid_atom (value atom0)) in
      let* '(trailers, errs) := suffix_trailers f isValid [] (errors atom0) in
      retM (nodeResult (MkSuffixTerm (value atom0) trailers) errs)
  end

with suffix_trailers (fuel : nat) (isValid : bool) (trailers : list Trailer)
    (errs : list ParseError) {struct fuel} : PM (list Trailer * list ParseError) :=
  match fuel with
  | O => out_of_fuel
  | S f =>
      if isValid then
        let* c := cur in
        if decide (type c = TokenType.openBracket) then
          let* bracket := arrayBracket f in
          suffix_trailers f isValid (trailers ++ [value bracket]) (errs ++ errors bracket)
        else if decide (type c = TokenType.openParen) then
          let* callTrailer := funcCallTrailer f in
          suffix_trailers f isValid (trailers ++ [value callTrailer])
            (errs ++ errors callTrailer)
        else retM (trailers, errs)
      else retM (trailers, errs)
  end

(** [atom(isTailor)] (lines 1089-1131). *)
with atom (fuel : nat) (isTailor : bool) {struct fuel} : PM (INodeResult Atom) :=
  match fuel with
  | O => out_of_fuel
  | S f =>
      let* c := cur in
      match type c with
      | TokenType.id =>
          advance;;
          let* pr := previous in
          retM (nodeResult (Identifier pr) [])
      | TokenType.number | TokenType.string =>
          let t := c in
          advance;;
          retM (nodeResult (Literal t) [])
      | TokenType.precent =>
          advance;;
          let* derefAtom := atom f false in
          let errs := errors derefAtom in
          let* c2 := cur in
          if decide (type c2 = TokenType.precent) then
            advance;;
            retM (nodeResult (value derefAtom) errs)
          else throwM (error c2 msg_precent)
      | TokenType.openBracket => arrayTerm f
      | TokenType.openBrace => associativeArray f
      | _ =>
          if isTailor then
            let* prev := previous in
            retM (nodeResult (InvalidAtom (end_ prev)) [error prev "Expected suffix"])
          else throwM (error c "Expected an expression")
      end
  end

(** [arrayTerm()] (lines 1133-1161). *)
with arrayTerm (fuel : nat) {struct fuel} : PM (INodeResult Atom) :=
  match fuel with
  | O => out_of_fuel
  | S f =>
      let* open := cur in
      advance;;
      let* c := cur in
      let* '(items, errs) :=
        if negb (bool_decide (type c = TokenType.closeBracket))
           && negb (bool_decide (type c = TokenType.EOF)) then
          let* a := expression f 0 in
          array_items f [value a] (errors a)
        else retM ([], []) in
      let* close := eatAndThrow TokenType.closeBracket msg_array_end in
      retM (nodeResult (ArrayTerm open close items) errs)
  end

with array_items (fuel : nat) (items : list Expr) (errs : list ParseError) {struct fuel}
    : PM (list Expr * list ParseError) :=
  match fuel with
  | O => out_of_fuel
  | S f =>
      let* m := eatDiscardCR TokenType.comma in
      match m with
      | Some _ =>
          let* a := expression f 0 in
          array_items f (items ++ [value a]) (errs ++ errors a)
      | None => retM (items, errs)
      end
  end

(** [associativeArray()] (lines 1163-1188). *)
with associativeArray (fuel : nat) {struct fuel} : PM (INodeResult Atom) :=
  match fuel with
  | O => out_of_fuel
  | S f =>
      let* open := cur in
      advance;;
      let* c := cur in
      let* '(pairs, errs) :=
        if negb (bool_decide (type c = TokenType.closeBrace))
           && negb (bool_decide (type c = TokenType.EOF)) then
          assoc_pairs f [] []
        else retM ([], []) in
      let* close := eatAndThrow TokenType.closeBrace msg_dict_end in
      retM (nodeResult (AssociativeArray open close pairs) errs)
  end

with assoc_pairs (fuel : nat) (pairs : list Pair) (errs : list ParseError) {struct fuel}
    : PM (list Pair * list ParseError) :=
  match fuel with
  | O => out_of_fuel
  | S f =>
      let* a := pair f in
      let pairs' := pairs ++ [value a] in
      let errs' := errs ++ errors a in
      let* m := eatDiscardCR TokenType.comma in
      match m with
      | Some _ => assoc_pairs f pairs' errs'
      | None => retM (pairs', errs')
      end
  end

(** [pair()] (lines 1190-1217). *)
with pair (fuel : nat) {struct fuel} : PM (INodeResult Pair) :=
  match fuel with
  | O => out_of_fuel
  | S f =>
      let* key := expression f 0 in
      let errs := errors key in
      let* m := eatDiscardCR TokenType.colon in
      match m with
      | Some _ =>
          let* colon := previous in
          let* v := expression f 0 in
          retM (nodeResult (MkPair (value key) colon (value v)) (errs ++ errors v))
      | None =>
          let* c := cur in
          retM (nodeResult (MkPair (value key) c (InvalidExpr (start c) [c]))
                           (errs ++ [error c msg_pair_colon]))
      end
  end

(** [arrayBracket()] (lines 1219-1231).  The source passes the single
    index expression where [BracketIndex] declares an array [indexs]
    (line 1228); the node holds that expression, and its [toLines] and
    [ranges] raise a [TypeError] (see [Ast.trailer_lines]). *)
with arrayBracket (fuel : nat) {struct fuel} : PM (INodeResult Trailer) :=
  match fuel with
  | O => out_of_fuel
  | S f =>
      let* open := cur in
      advance;;
      let* index := expression f 0 in
      let* close := eatAndThrow TokenType.closeBracket msg_index_end in
      retM (nodeResult (BracketIndex open (value index) close) (errors index))
  end

(** [funcCallTrailer()] (lines 1233-1267). *)
with funcCallTrailer (fuel : nat) {struct fuel} : PM (INodeResult Trailer) :=
  match fuel with
  | O => out_of_fuel
  | S f =>
      let* open := cur in
      advance;;
      let* c := cur in
      let* '(args, errs) :=
        if negb (bool_decide (type c = TokenType.closeParen))
           && negb (bool_decide (type c = TokenType.EOF)) then
          if decide (type c = TokenType.comma) then call_args f [emptyArg] []
          else
            let* a := expression f 0 in
            call_args f [value a] (errors a)
        else retM ([], []) in
      let* close := eatAndThrow TokenType.closeParen msg_call_end in
      retM (nodeResult (Call open args close) errs)
  end

with call_args (fuel : nat) (args : list Expr) (errs : list ParseError) {struct fuel}
    : PM (list Expr * list ParseError) :=
  match fuel with
  | O => out_of_fuel
  | S f =>
      let* m := eatDiscardCR TokenType.comma in
      match m with
      | Some _ =>
          let* c := cur in
          if decide (type c = TokenType.comma) then call_args f (args ++ [emptyArg]) errs
          else
            let* a := expression f 0 in
            call_args f (args ++ [value a]) (errs ++ errors a)
      | None => retM (args, errs)
      end
  end.

(** [testExpr()] (lines 828-835): the tokenizer read again from the
    start with hotkey lexing off, the first token in place of the one
    the constructor read, then [expression()].  The model starts from a
    fresh parser: the comments and token errors the constructor may have
    collected on its first read are not kept. *)
Definition testExpr (fuel : nat) (tz : Tokenizer) : outcome ParseError (INodeResult Expr) * AHKParser :=
  expression fuel 0 (start_buffer false tz).

(** ** Inputs and observations of the theorems below *)

(** The shape of the expression [testExpr] returns, if it returns one. *)
Definition shape_of (r : outcome ParseError (INodeResult Expr) * AHKParser)
    : option ExprShape :=
  match r with (Ok n, _) => Some (expr_shape (value n)) | _ => None end.

(** [x o1 y o2 z] for three identifiers. *)
Definition binop_src (x y z : string) (o1 o2 : TokenType.type) : list (TokenType.type * string) :=
  [(TokenType.id, x); (o1, "o1"); (TokenType.id, y); (o2, "o2"); (TokenType.id, z)].

(** The token source of [a.b.c.d]. *)
Definition dotted4_src : list (TokenType.type * string) :=
  [(TokenType.id, "a"); (TokenType.dot, "."); (TokenType.id, "b"); (TokenType.dot, ".");
   (TokenType.id, "c"); (TokenType.dot, "."); (TokenType.id, "d")].

(** The expression built for a concrete run, [emptyArg] when there is none. *)
Definition run_value (r : outcome ParseError (INodeResult Expr) * AHKParser) : Expr :=
  match r with (Ok n, _) => value n | _ => emptyArg end.

(** [( x t]: a grouping whose closing token is [t]. *)
Definition grouping_src (x : string) (t : TokenType.type) : list (TokenType.type * string) :=
  [(TokenType.openParen, "("); (TokenType.id, x); (t, "t")].

(** The errors reported by a concrete run. *)
Definition run_errors (r : outcome ParseError (INodeResult Expr) * AHKParser)
    : list ParseError :=
  match r with (Ok n, _) => errors n | _ => [] end.

(** ** Error boundary *)

(** (C8) A structural error never escapes [expression]: whatever the
    input and the fuel, [expression] returns a node (an [InvalidExpr]
    after recovery) or runs out of fuel, and never throws (spec 4.3 and 7). *)
Theorem expression_nothrow fuel p : nothrow (expression fuel p).
Proof.
  destruct fuel as [|f]; simpl; [apply nothrow_out_of_fuel|].
  unfold setParseHotkey. solve_nothrow.
Qed.

(** ** Dotted chains *)

Lemma chain_length_link current dot s :
  chain_length (link_trailer current dot (MkSuffixTrailer s None None)) = 2.
Proof. by destruct current. Qed.

Lemma factor_chain_le2 fuel current errs st r st' :
  chain_length current <= 2 ->
  factor_chain fuel current errs st = (Ok r, st') -> chain_length (fst r) <= 2.
Proof.
  revert current errs st. induction fuel as [|f IH]; intros current errs st Hc H;
    simpl in H; [done|].
  inv_buf H. case_decide; inv_buf H; [|done].
  eapply IH; [|exact H]. by rewrite chain_length_link.
Qed.

(** (C14) However many dots follow an operand, the [Factor] that [factor]
    builds carries at most two [SuffixTrailer] links: the loop of lines
    1046-1055 relinks the first trailer and never moves [current].  So in
    [a.b.c.d] the link to [c] is overwritten by the link to [d].  The
    spec (section 3) asks for an append-only chain. *)
Theorem factor_chain_at_most_two fuel st r st' :
  factor fuel st = (Ok r, st') -> factor_chain_length (value r) <= 2.
Proof.
  intros H. destruct fuel as [|f]; simpl in H; [done|].
  inv_buf H. case_decide; inv_buf H; simpl; [|lia].
  match goal with Hc : factor_chain _ _ _ _ = (Ok ?p, _) |- _ =>
    destruct p as [current errs']; cbn beta iota in H; inv_ok H; simpl;
    eapply factor_chain_le2 in Hc; [exact Hc|simpl; lia] end.
Qed.

(** ** Precedence climbing on concrete token sources *)

(** Reduce membership in a literal list to one case per element. *)
Ltac elem_cases H :=
  repeat (apply elem_of_cons in H as [->|H]); try (by apply elem_of_nil in H).

(** (C11) Left-associative binary operators: in [x o1 y o2 z] the
    operator of higher precedence binds tighter, and of two operators of
    equal precedence the left one binds tighter (spec 4.3 and 8). *)
Theorem binary_precedence x y z o1 o2 :
  o1 ∈ left_binary_ops -> o2 ∈ left_binary_ops ->
  shape_of (testExpr 20 (source_of (binop_src x y z o1 o2))) =
  Some (if prec o1 <? prec o2
        then SBinary (SLeaf x) o1 (SBinary (SLeaf y) o2 (SLeaf z))
        else SBinary (SBinary (SLeaf x) o1 (SLeaf y)) o2 (SLeaf z)).
Proof.
  intros H1 H2. elem_cases H1; elem_cases H2; vm_compute; reflexivity.
Qed.

(** Assignments are right-associative and bind more loosely than
    every binary operator: [x o1 y o2 z] with an assignment [o1] nests
    to the right whatever [o2] is (spec 4.3: [a = b = c]). *)
Theorem assignment_right_assoc x y z o1 o2 :
  o1 ∈ assign_ops -> o2 ∈ assign_ops ++ left_binary_ops ->
  shape_of (testExpr 20 (source_of (binop_src x y z o1 o2))) =
  Some (SBinary (SLeaf x) o1 (SBinary (SLeaf y) o2 (SLeaf z))).
Proof.
  intros H1 H2. elem_cases H1; elem_cases H2; vm_compute; reflexivity.
Qed.

(** Witness of (C11): [x + y * z] nests to the right, [x * y + z] to the
    left. *)
Lemma binary_precedence_witness :
  TokenType.plus ∈ left_binary_ops /\ TokenType.multi ∈ left_binary_ops /\
  shape_of (testExpr 20 (source_of (binop_src "x" "y" "z" TokenType.plus TokenType.multi))) =
    Some (SBinary (SLeaf "x") TokenType.plus
            (SBinary (SLeaf "y") TokenType.multi (SLeaf "z"))) /\
  shape_of (testExpr 20 (source_of (binop_src "x" "y" "z" TokenType.multi TokenType.plus))) =
    Some (SBinary (SBinary (SLeaf "x") TokenType.multi (SLeaf "y"))
            TokenType.plus (SLeaf "z")).
Proof.
  split; [elem_of_lit|]. split; [elem_of_lit|].
  split; [rewrite (binary_precedence "x" "y" "z" TokenType.plus TokenType.multi) |
          rewrite (binary_precedence "x" "y" "z" TokenType.multi TokenType.plus)];
    try elem_of_lit; reflexivity.
Defined.

(** Example: [x := y += z] nests to the right. *)
Lemma assignment_right_assoc_witness :
  TokenType.aassign ∈ assign_ops /\ TokenType.pluseq ∈ assign_ops ++ left_binary_ops /\
  shape_of (testExpr 20 (source_of (binop_src "x" "y" "z" TokenType.aassign TokenType.pluseq))) =
    Some (SBinary (SLeaf "x") TokenType.aassign
            (SBinary (SLeaf "y") TokenType.pluseq (SLeaf "z"))).
Proof.
  split; [elem_of_lit|]. split; [elem_of_lit|].
  apply assignment_right_assoc; elem_of_lit.
Defined.

(** The ternary operator nests on its false branch:
    [a ? b : c ? d : e] is [a ? b : (c ? d : e)] (spec 4.3 and 8). *)
Theorem ternary_right_assoc a b c d e :
  shape_of (testExpr 20 (source_of
    [(TokenType.id, a); (TokenType.question, "?"); (TokenType.id, b);
     (TokenType.colon, ":"); (TokenType.id, c); (TokenType.question, "?");
     (TokenType.id, d); (TokenType.colon, ":"); (TokenType.id, e)])) =
  Some (STernary (SLeaf a) (SLeaf b) (STernary (SLeaf c) (SLeaf d) (SLeaf e))).
Proof. vm_compute. reflexivity. Qed.

(** Witness of (C14): [a.b.c.d] yields a chain of two links whose lines
    read [a.b.d]. *)
Lemma factor_chain_at_most_two_witness :
  let r := factor 20 (initParser (source_of dotted4_src)) in
  factor_chain_length (run_value r) <= 2 /\ expr_lines (run_value r) = Some ["a.b.d"].
Proof.
  cbv zeta. split; [|vm_compute; reflexivity].
  destruct (factor 20 (initParser (source_of dotted4_src))) as [[n| |] st'] eqn:E;
    [exact (factor_chain_at_most_two 20 _ n st' E) | vm_compute in E; discriminate..].
Defined.

(** An empty argument between two commas becomes the placeholder
    [emptyArg], an empty string literal, and no error is reported:
    [f(a,,b)] is a call with three arguments (spec 8). *)
Theorem call_empty_argument f a b :
  let r := testExpr 20 (source_of
    [(TokenType.id, f); (TokenType.openParen, "("); (TokenType.id, a);
     (TokenType.comma, ","); (TokenType.comma, ","); (TokenType.id, b);
     (TokenType.closeParen, ")")]) in
  run_errors r = [] /\
  match run_value r with
  | Factor (MkSuffixTerm (Identifier t) [Call _ args _]) None None =>
      content t = f /\ map expr_shape args = [SLeaf a; SLeaf ""; SLeaf b] /\
      args !! 1 = Some emptyArg
  | _ => False
  end.
Proof. vm_compute. auto. Qed.

(** The arguments [call_args] has collected are kept in front of the
    ones it adds. *)
Lemma call_args_prefix f args errs st r st' :
  call_args f args errs st = (Ok r, st') -> args `prefix_of` r.1.
Proof.
  revert args errs st. induction f as [|f IH]; intros args errs st H; [done|].
  cbn [call_args] in H. inv_ok H. destruct a as [t|]; inv_buf H.
  - case_decide; inv_ok H; (etrans; [apply prefix_app_r; reflexivity | eapply IH; eauto]).
  - done.
Qed.

(** (C16) The placeholder of an empty first argument lies outside its
    call.  Whenever the token after the [(] of a call is a [,],
    [funcCallTrailer] (lines 1240-1243) puts [emptyArg] first among the
    arguments, and [emptyArg] (lines 1269-1279) is placed at line -1,
    column -1: the child starts before its parent, against the range
    monotonicity of the spec (section 8), for every call on a line of
    the document. *)
Theorem empty_arg_outside_parent fuel st r st' :
  buffer_wf st -> type (fst (peek_st st)) = TokenType.comma ->
  (0 <= line (start (currentToken st)))%Z ->
  funcCallTrailer fuel st = (Ok r, st') ->
  exists args c, value r = Call (currentToken st) (emptyArg :: args) c /\
    pos_leb (trailer_start (value r)) (expr_start emptyArg) = false.
Proof.
  intros Hwf Hc Hl H. destruct fuel as [|f]; [done|]. cbn [funcCallTrailer] in H.
  inv_buf H. rewrite peek_advance_current, Hc in H0 by done. simpl in H0.
  destruct a0 as [args errs]. inv_buf H. simpl.
  pose proof (call_args_prefix _ _ _ _ _ _ H0) as [rest Hp]. simpl in Hp. subst args.
  exists rest, a0. split; [done|]. unfold pos_leb. simpl. apply orb_false_iff. lia.
Qed.

(** Witness of (C16): [f(,b)] on the first line. *)
Lemma empty_arg_outside_parent_witness :
  let st := snd (peek_st (advance_st (initParser (source_of
              [(TokenType.id, "f"); (TokenType.openParen, "("); (TokenType.comma, ",");
               (TokenType.id, "b"); (TokenType.closeParen, ")")])))) in
  exists r st', funcCallTrailer 20 st = (Ok r, st') /\
  exists args c, value r = Call (currentToken st) (emptyArg :: args) c /\
    pos_leb (trailer_start (value r)) (expr_start emptyArg) = false.
Proof.
  cbv zeta.
  match goal with |- context [funcCallTrailer 20 ?s] =>
    destruct (funcCallTrailer 20 s) as [[r| |] st'] eqn:E;
      [| vm_compute in E; discriminate..];
    exists r, st'; split; [reflexivity|];
    refine (empty_arg_outside_parent 20 s r st' _ _ _ E) end.
  - apply peek_st_wf, advance_st_wf, start_buffer_wf.
  - vm_compute. reflexivity.
  - vm_compute. discriminate.
Defined.

(** ** Recovery inside suffix terms *)

(** [atom] on a token that starts no atom: in trailer position it
    recovers with an [InvalidAtom] at the end of the previous token; as
    the first atom it throws (spec 4.2). *)
Lemma atom_no_start f isTailor st :
  type (currentToken st) ∉ [TokenType.id; TokenType.number; TokenType.string;
                            TokenType.precent; TokenType.openBracket; TokenType.openBrace] ->
  atom (S f) isTailor st =
    if isTailor then
      let prev := match pos st with O => undefined_token | S p => tok_at (tokens st) p end in
      (Ok (nodeResult (InvalidAtom (end_ prev)) [error prev "Expected suffix"]), st)
    else (Throw (error (currentToken st) "Expected an expression"), st).
Proof.
  intros Hn. unfold atom, cur, getsM, bindM.
  destruct (type (currentToken st)) eqn:Ht;
    try (exfalso; apply Hn; solve [elem_of_lit]);
    destruct isTailor; reflexivity.
Qed.

(** A [(] cannot start a factor: [factor] never returns there, and with
    fuel for three calls it throws "Expected an expression".  This is why
    a call statement [f(...)] without a body is rejected by [func]. *)
Lemma factor_at_openParen f st :
  type (currentToken st) = TokenType.openParen ->
  factor (S (S (S f))) st = (Throw (error (currentToken st) "Expected an expression"), st).
Proof.
  intros Ht. cbn [factor suffixTerm]. unfold bindM at 1 2.
  rewrite atom_no_start by (rewrite Ht; intros Hin; repeat (inversion Hin as [|? ? ? Hin']; subst; clear Hin; rename Hin' into Hin)).
  reflexivity.
Qed.

Lemma factor_openParen_not_ok f st v st' :
  type (currentToken st) = TokenType.openParen -> factor f st <> (Ok v, st').
Proof.
  intros Ht. destruct f as [|[|[|f]]]; [done| | |by rewrite factor_at_openParen].
  - cbn [factor suffixTerm]. done.
  - cbn [factor suffixTerm atom]. done.
Qed.

(** [expression] at the end of the input: it throws at once, recovery
    stops at the end of the input, and the cursor stays there. *)
Lemma expression_at_EOF f p st :
  type (currentToken st) = TokenType.EOF ->
  fst (expression f p st) = OutOfFuel \/
  exists r st', expression f p st = (Ok r, st') /\ currentToken st' = currentToken st.
Proof.
  destruct st as [tz [ty c s e] ps ts te cm inc]. cbn in *. intros ->.
  destruct f as [|[|f]]; [by left..|right]. cbn. eauto.
Qed.

(** [expression] on a directive token, which starts no expression: it
    throws "Expect an experssion" at that token and recovers with an
    [Invalid] expression that carries that one diagnostic. *)
Lemma expression_at_drective g p st :
  type (currentToken st) = TokenType.drective ->
  fst (expression (S g) p st) = OutOfFuel \/
  exists ts st', expression (S g) p st =
    (Ok (nodeResult (InvalidExpr (start (tok_at ts 0)) ts)
           [error (currentToken st) "Expect an experssion"]), st').
Proof.
  destruct st as [tz [ty c s e] ps ts te cm inc]. cbn in *. intros ->.
  cbn -[synchronize]. unfold bindM.
  match goal with |- context [synchronize g ?s] =>
    destruct (synchronize g s) as [[[]| |] s2] eqn:E end; simpl; eauto.
  exfalso. by eapply synchronize_nothrow.
Qed.

(** ** Groupings *)

(** (C20) The close paren of a grouping is not checked: the [openParen]
    case of [expression()] (lines 867-873) reads [CPar] and advances
    over whatever token it is.  In [( x t], for every token [t] that
    does not continue the expression after [x], the parse is [x] without
    any diagnostic and [t] is consumed: an unclosed [(] at the end of a
    line takes the line end as its close paren. *)
Theorem grouping_close_unchecked x t :
  t ∉ [TokenType.dot; TokenType.openParen; TokenType.openBracket] ->
  is_left_binary t = false -> is_incdec t = false -> is_right_assoc t = false ->
  is_value_start t = false ->
  match testExpr 20 (source_of (grouping_src x t)) with
  | (Ok n, st) => expr_shape (value n) = SLeaf x /\ errors n = [] /\
                  type (currentToken st) = TokenType.EOF
  | _ => False
  end.
Proof.
  intros Hn H1 H2 H3 H4.
  destruct t;
    try (exfalso; first [discriminate H1 | discriminate H2 | discriminate H3 |
                         discriminate H4 | apply Hn; elem_of_lit]);
    vm_compute; auto.
Qed.

(** Witness of (C20): [( x] followed by a line end. *)
Lemma grouping_close_unchecked_witness :
  TokenType.EOL ∉ [TokenType.dot; TokenType.openParen; TokenType.openBracket] /\
  (match testExpr 20 (source_of (grouping_src "x" TokenType.EOL)) with
   | (Ok n, st) => expr_shape (value n) = SLeaf "x" /\ errors n = [] /\
                   type (currentToken st) = TokenType.EOF
   | _ => False
   end).
Proof.
  split; [decide_closed|].
  apply grouping_close_unchecked; [decide_closed | reflexivity..].
Defined.
