(* ===== verification/StmtParser.v ===== *)
(** * StmtParser: the statement parser and [parse] (spec 4.4, 4.5, 6)

    The statement-level methods of [class AHKParser] in
    [src/server/src/parser/newtry/parser/parser.ts]: [parse] (125-164),
    [declaration] (170-218), [varDecl], [classDefine], [label], [hotkey],
    [hotstring], [statement], [idLeadStatement], [block], [ifStmt],
    [breakStmt], [returnStmt], [switchStmt], [stmtList], [loopStmt],
    [whileStmt], [forStmt], [tryStmt], [drective], [assign] (220-825),
    [func] and [parameters] (1281-1368).  The methods that call back into
    [declaration] form one mutual [Fixpoint] over fuel.  The others call
    only the expression parser and are defined before it.  Each loop of
    the source is a function of its own. *)

From S2P Require Import Prelude Tokens Ast TokenBuffer ExprParser.

Definition msg_hotkey : string := "Expect a " +:+ q "::" +:+ " at the end of hotkey declaration".
Definition msg_block_open : string := "Expect a " +:+ q "{" +:+ " at begining of block".
Definition msg_block_close : string := "Expect a " +:+ q "}" +:+ " at block end".
Definition msg_brace_open : string := "Expect a " +:+ q "{".
Definition msg_brace_close : string := "Expect a " +:+ q "}".
Definition msg_case_colon : string := "Expect a " +:+ q ":" +:+ " at end of case".
Definition msg_paren_close : string := "Expect a " +:+ q ")".

(** ** [Script] and [IAST] ([models/script] and [newtry/types] are not
    among the sources; spec section 6). *)
Record Script : Set := mkScript {
  script_stmts : list Stmt;
  script_tokens : list Token;
  script_comments : list Token;
  script_include : list string
}.

Record IAST : Set := mkIAST {
  script : Script;
  sytanxErrors : list ParseError;
  ast_tokenErrors : list IDiagnosticInfo
}.

(** ** Statements that do not call [declaration] *)

(** [label()] (lines 315-319). *)
Definition label : PM (INodeResult Stmt) :=
  let* name := cur in
  advance;;
  retM (nodeResult (Label name) []).

(** [hotkey()] (lines 322-338). *)
Definition hotkey : PM (INodeResult Stmt) :=
  let* k1 := cur in
  advance;;
  let* c := cur in
  if decide (type c = TokenType.hotkeyand) then
    let and_ := c in
    advance;;
    let* k2 := cur in
    advance;;
    retM (nodeResult (Hotkey k1 (Some and_) (Some k2)) [])
  else
    eatAndThrow TokenType.hotkey msg_hotkey;;
    retM (nodeResult (Hotkey k1 None None) []).

(** [hotstring()] (lines 340-356). *)
Definition hotstring : PM (INodeResult Stmt) :=
  let* option_ := eat in
  let* str := eatAndThrow TokenType.hotstringEnd "Expect a hotstring in hotstring" in
  let* c := cur in
  if decide (type c = TokenType.EOL) then
    let* expend := eat in
    retM (nodeResult (HotString option_ str expend) [])
  else
    let* expend := eatAndThrow TokenType.string "Expect a expend string in hotstring" in
    retM (nodeResult (HotString option_ str expend) []).

(** The [do ... while (this.eatDiscardCR(TokenType.comma))] loop of
    [varDecl] (lines 227-265). *)
Fixpoint var_items (fuel : nat) (assign : list OptionalAssginStmt) (errs : list ParseError)
    : PM (list OptionalAssginStmt * list ParseError) :=
  match fuel with
  | O => out_of_fuel
  | S f =>
      let* c := cur in
      let* '(assign', errs') :=
        if decide (type c = TokenType.id) then
          let id_ := c in
          advance;;
          let* saveToken := cur in
          if decide (type saveToken = TokenType.aassign \/ type saveToken = TokenType.equal) then
            advance;;
            let* expr := expression f 0 in
            retM (assign ++ [MkOptionalAssign id_ (Some saveToken) (Some (value expr))],
                  errs ++ errors expr)
          else retM (assign ++ [MkOptionalAssign id_ None None], errs)
        else
          retM (assign ++ [MkOptionalAssign c None (Some (InvalidExpr (start c) [c]))],
                errs ++ [error c "Expect an identifer in varible declaration"]) in
      let* m := eatDiscardCR TokenType.comma in
      match m with
      | Some _ => var_items f assign' errs'
      | None => retM (assign', errs')
      end
  end.

(** [varDecl()] (lines 220-273). *)
Definition varDecl (fuel : nat) : PM (INodeResult Stmt) :=
  let* scope := cur in
  advance;;
  let* '(assign, errs) := var_items fuel [] [] in
  terminal;;
  retM (nodeResult (VarDecl scope assign) errs).

(** [breakStmt()] (lines 491-513). *)
Definition breakStmt : PM (INodeResult Stmt) :=
  let* breakToken := cur in
  advance;;
  let* e := atLineEnd in
  if negb e then
    eatDiscardCR TokenType.comma;;
    let* lbl := eatAndThrow TokenType.id "Expect a label name" in
    terminal;;
    retM (nodeResult (Break breakToken (Some lbl)) [])
  else
    terminal;;
    retM (nodeResult (Break breakToken None) []).

(** [returnStmt()] (lines 515-531). *)
Definition returnStmt (fuel : nat) : PM (INodeResult Stmt) :=
  let* returnToken := eat in
  let* e := atLineEnd in
  if negb e then
    eatDiscardCR TokenType.comma;;
    let* expr := expression fuel 0 in
    terminal;;
    retM (nodeResult (Return returnToken (Some (value expr))) (errors expr))
  else
    terminal;;
    retM (nodeResult (Return returnToken None) []).

(** The [while (this.currentToken.type !== TokenType.EOL)] loop of
    [drective] (lines 791-795). *)
Fixpoint drective_args (fuel : nat) (args : list Expr) (errs : list ParseError)
    : PM (list Expr * list ParseError) :=
  match fuel with
  | O => out_of_fuel
  | S f =>
      let* c := cur in
      if decide (type c = TokenType.EOL) then retM (args, errs)
      else
        let* a := expression f 0 in
        drective_args f (args ++ [value a]) (errs ++ errors a)
  end.

(** [drective()] (lines 776-802). *)
Definition drective (fuel : nat) : PM (INodeResult Stmt) :=
  let* drective_ := cur in
  if decide (toLowerCase (content drective_) = "include") then
    setLiteralToken true;;
    advance;;
    let* includePath := eat in
    modifyM (add_include (content includePath));;
    terminal;;
    retM (nodeResult (Drective drective_ []) [])
  else
    let* '(args, errs) := drective_args fuel [] [] in
    terminal;;
    retM (nodeResult (Drective drective_ args) errs).

(** [assign()] (lines 805-825). *)
Definition assign (fuel : nat) : PM (INodeResult Stmt) :=
  let* left := factor fuel in
  let* c := cur in
  if is_assign_op (type c) then
    let assign_ := c in
    advance;;
    let* expr := expression fuel 0 in
    terminal;;
    retM (nodeResult (AssignStmt (value left) assign_ (value expr)) (errors left ++ errors expr))
  else
    (if decide (type c = TokenType.comma) then eat;; retM tt else retM tt);;
    retM (nodeResult (ExprStmt (value left)) (errors left)).

(** The [do ... while] loop of [parameters] (lines 1327-1353).  Every
    parameter is pushed on [requiredParameters], also one with a
    default value. *)
Fixpoint param_items (fuel : nat) (required : list Parameter_) (defaults : list DefaultParam)
    (errs : list ParseError) : PM (list Parameter_ * list DefaultParam * list ParseError) :=
  match fuel with
  | O => out_of_fuel
  | S f =>
      let* c := cur in
      (if decide (type c = TokenType.byref) then eat;; retM tt else retM tt);;
      let* name := eatAndThrow TokenType.id "Expect an identifier in parameter" in
      let* isDefault := matchTokens [TokenType.aassign; TokenType.equal] in
      let* '(defaults', errs') :=
        if isDefault then
          let* assign_ := eat in
          let* dflt := expression f 0 in
          retM (defaults ++ [MkDefaultParam name assign_ (value dflt)], errs ++ errors dflt)
        else retM (defaults, errs) in
      let required' := required ++ [MkParameter name] in
      let* m := eatDiscardCR TokenType.comma in
      match m with
      | Some _ => param_items f required' defaults' errs'
      | None => retM (required', defaults', errs')
      end
  end.

(** [parameters()] (lines 1319-1368). *)
Definition parameters (fuel : nat) : PM (INodeResult Param) :=
  let* open := eat in
  let* c := cur in
  let* '(required, defaults, errs) :=
    if decide (type c = TokenType.closeParen) then retM ([], [], [])
    else param_items fuel [] [] [] in
  let* close := eatAndThrow TokenType.closeParen msg_paren_close in
  retM (nodeResult (MkParam open required defaults close) errs).

(** The paren-counting scan of [func] (lines 1286-1293). *)
Fixpoint scan_parens (fuel : nat) (unclosed : nat) : PM unit :=
  match fuel with
  | O => out_of_fuel
  | S f =>
      if decide (unclosed = 0) then retM tt
      else
        let* t := peek in
        let unclosed1 := if decide (type t = TokenType.closeParen) then unclosed - 1
                         else unclosed in
        let unclosed2 := if decide (type t = TokenType.openParen) then S unclosed1
                         else unclosed1 in
        advance;;
        scan_parens f unclosed2
  end.

(** The [do ... while] loop over the conditions of a [case] (lines 557-561). *)
Fixpoint case_conditions (fuel : nat) (conds : list Expr) (errs : list ParseError)
    : PM (list Expr * list ParseError) :=
  match fuel with
  | O => out_of_fuel
  | S f =>
      let* cond := expression f 0 in
      let conds' := conds ++ [value cond] in
      let errs' := errs ++ errors cond in
      let* m := eatDiscardCR TokenType.comma in
      match m with
      | Some _ => case_conditions f conds' errs'
      | None => retM (conds', errs')
      end
  end.

Definition is_default_label (c : Token) : bool :=
  bool_decide (type c = TokenType.label) && bool_decide (content c = "default").

(** ** The statements that call [declaration] *)

Fixpoint declaration (fuel : nat) {struct fuel} : PM (INodeResult Stmt) :=
  match fuel with
  | O => out_of_fuel
  | S f =>
      let* st0 := getM in
      let start := pos st0 in
      catchM
        (let* c := cur in
         match type c with
         | TokenType.id => idLeadStatement f
         | TokenType.class => classDefine f
         | TokenType.global | TokenType.local | TokenType.static => varDecl f
         | TokenType.label => label
         | TokenType.key => hotkey
         | TokenType.hotstringOpen => hotstring
         | _ => statement f
         end)
        (fun err =>
           synchronize f;;
           let* st1 := getM in
           let toks := consumed_tokens start st1 in
           retM (nodeResult (InvalidStmt (Tokens.start (tok_at toks 0)) toks) [err]))
  end

(** [classDefine()] (lines 275-302). *)
with classDefine (fuel : nat) {struct fuel} : PM (INodeResult Stmt) :=
  match fuel with
  | O => out_of_fuel
  | S f =>
      let* classToken := eat in
      let* name := eatAndThrow TokenType.id "Expect an indentifier in class define" in
      let* c := cur in
      if decide (type c = TokenType.extends) then
        let* extendsToken := eat in
        let* parentName := eatAndThrow TokenType.id
                             ("Expect an indentifier after " +:+ q "extends" +:+ " keyword") in
        let* body := block f in
        retM (nodeResult (ClassDef classToken name (value body) (Some extendsToken)
                                   (Some parentName)) (errors body))
      else
        let* body := block f in
        retM (nodeResult (ClassDef classToken name (value body) None None) (errors body))
  end

(** [statement()] (lines 358-389). *)
with statement (fuel : nat) {struct fuel} : PM (INodeResult Stmt) :=
  match fuel with
  | O => out_of_fuel
  | S f =>
      let* c := cur in
      match type c with
      | TokenType.id => idLeadStatement f
      | TokenType.openBrace => block f
      | TokenType.if_ => ifStmt f
      | TokenType.break => breakStmt
      | TokenType.return_ => returnStmt f
      | TokenType.switch => switchStmt f
      | TokenType.loop => loopStmt f
      | TokenType.while => whileStmt f
      | TokenType.for_ => forStmt f
      | TokenType.try => tryStmt f
      | TokenType.drective => drective f
      | _ => throwM (error c "UnKnown statment found")
      end
  end

(** [idLeadStatement()] (lines 391-412). *)
with idLeadStatement (fuel : nat) {struct fuel} : PM (INodeResult Stmt) :=
  match fuel with
  | O => out_of_fuel
  | S f =>
      let* p := peek in
      match type p with
      | TokenType.openParen => func f
      | TokenType.equal | TokenType.aassign | TokenType.dot | TokenType.openBracket => assign f
      | TokenType.hotkeyand | TokenType.hotkey => hotkey
      | _ => if is_assign_op (type p) then assign f
             else throwM (error p "Invalid follower(s) of identifer")
      end
  end

(** [block()] (lines 414-441). *)
with block (fuel : nat) {struct fuel} : PM (INodeResult Stmt) :=
  match fuel with
  | O => out_of_fuel
  | S f =>
      let* open := eatDiscardCR TokenType.openBrace in
      match open with
      | None => let* c := cur in throwM (error c msg_block_open)
      | Some open =>
          jumpWhiteSpace f;;
          let* '(stmts, errs) := block_loop f [] [] in
          let* close := eatAndThrow TokenType.closeBrace msg_block_close in
          retM (nodeResult (Block open stmts close) errs)
      end
  end

with block_loop (fuel : nat) (stmts : list Stmt) (errs : list ParseError) {struct fuel}
    : PM (list Stmt * list ParseError) :=
  match fuel with
  | O => out_of_fuel
  | S f =>
      let* c := cur in
      if decide (type c = TokenType.closeBrace \/ type c = TokenType.EOF) then
        retM (stmts, errs)
      else
        let* stmt := declaration f in
        jumpWhiteSpace f;;
        block_loop f (stmts ++ [value stmt]) (errs ++ errors stmt)
  end

(** [ifStmt()] (lines 443-489).  In the [else] branch the inner
    [const body = this.block()] shadows the body of the [if]. *)
with ifStmt (fuel : nat) {struct fuel} : PM (INodeResult Stmt) :=
  match fuel with
  | O => out_of_fuel
  | S f =>
      let* iftoken := cur in
      advance;;
      let* condition := expression f 0 in
      jumpWhiteSpace f;;
      let* body := declaration f in
      let errs := errors condition ++ errors body in
      let* c := cur in
      if decide (type c = TokenType.else_) then
        let elsetoken := c in
        advance;;
        let* isElif := matchTokens [TokenType.if_] in
        let* '(elifcondition, errs') :=
          if isElif then
            eat;;
            let* ec := expression f 0 in
            retM (Some ec, errs ++ errors ec)
          else retM (None, errs) in
        let* body' := block f in
        retM (nodeResult
                (If iftoken (value condition) (value body')
                    (Some (MkElse elsetoken (value body') (option_map value elifcondition))))
                (errs' ++ errors body'))
      else retM (nodeResult (If iftoken (value condition) (value body) None) errs)
  end

(** [switchStmt()] (lines 533-610). *)
with switchStmt (fuel : nat) {struct fuel} : PM (INodeResult Stmt) :=
  match fuel with
  | O => out_of_fuel
  | S f =>
      let* switchToken := eat in
      let* cond := expression f 0 in
      let* open := eatAndThrow TokenType.openBrace msg_brace_open in
      let* '(cases, errs) := switch_loop f [] (errors cond) in
      let* close := eatAndThrow TokenType.closeBrace msg_brace_close in
      retM (nodeResult (SwitchStmt switchToken (value cond) open cases close) errs)
  end

(** The [while (inloop)] loop of lines 547-599.  On a token that is
    neither a [case], a [default:] nor a [}] the source builds an error
    with [this.error(...)] and drops it: the loop goes round again on the
    same token. *)
with switch_loop (fuel : nat) (cases : list CaseStmt) (errs : list ParseError) {struct fuel}
    : PM (list CaseStmt * list ParseError) :=
  match fuel with
  | O => out_of_fuel
  | S f =>
      let* c := cur in
      match type c with
      | TokenType.closeBrace => retM (cases, errs)
      | TokenType.case =>
          let* caseToken := eat in
          let* '(conditions, errs1) := case_conditions f [] errs in
          let* colon := eatAndThrow TokenType.colon msg_case_colon in
          let* stmts := stmtList f in
          switch_loop f (cases ++ [MkCaseStmt (CaseExpr caseToken conditions colon) (value stmts)])
            (errs1 ++ errors stmts)
      | _ =>
          if is_default_label c then
            let* caseToken := eat in
            let* stmts := stmtList f in
            switch_loop f (cases ++ [MkCaseStmt (DefaultCase caseToken) (value stmts)])
              (errs ++ errors stmts)
          else switch_loop f cases errs
      end
  end

(** [stmtList()] (lines 617-635). *)
with stmtList (fuel : nat) {struct fuel} : PM (INodeResult (list Stmt)) :=
  match fuel with
  | O => out_of_fuel
  | S f =>
      let* '(stmts, errs) := stmtList_loop f [] [] in
      retM (nodeResult stmts errs)
  end

with stmtList_loop (fuel : nat) (stmts : list Stmt) (errs : list ParseError) {struct fuel}
    : PM (list Stmt * list ParseError) :=
  match fuel with
  | O => out_of_fuel
  | S f =>
      let* stmt := declaration f in
      let stmts' := stmts ++ [value stmt] in
      let errs' := errs ++ errors stmt in
      let* c := cur in
      if is_default_label c then retM (stmts', errs')
      else
        let* stop := matchTokens [TokenType.case; TokenType.closeBrace] in
        if stop then retM (stmts', errs') else stmtList_loop f stmts' errs'
  end

(** [loopStmt()] (lines 637-673). *)
with loopStmt (fuel : nat) {struct fuel} : PM (INodeResult Stmt) :=
  match fuel with
  | O => out_of_fuel
  | S f =>
      let* loop := eat in
      let* noCond := matchTokens [TokenType.EOL; TokenType.openBrace] in
      if noCond then
        jumpWhiteSpace f;;
        let* body := declaration f in
        let* isUntil := matchTokens [TokenType.until] in
        if isUntil then
          let* until := eatAndThrow TokenType.until "Expect a until in loop-until" in
          let* cond := expression f 0 in
          terminal;;
          retM (nodeResult (UntilLoop loop (value body) until (value cond))
                           (errors body ++ errors cond))
        else retM (nodeResult (Loop loop (value body) None) (errors body))
      else
        let* cond := expression f 0 in
        jumpWhiteSpace f;;
        let* body := declaration f in
        retM (nodeResult (Loop loop (value body) (Some (value cond)))
                         (errors cond ++ errors body))
  end

(** [whileStmt()] (lines 675-687). *)
with whileStmt (fuel : nat) {struct fuel} : PM (INodeResult Stmt) :=
  match fuel with
  | O => out_of_fuel
  | S f =>
      let* whileToken := cur in
      advance;;
      let* cond := expression f 0 in
      jumpWhiteSpace f;;
      let* body := declaration f in
      retM (nodeResult (WhileStmt whileToken (value cond) (value body))
                       (errors cond ++ errors body))
  end

(** [forStmt()] (lines 689-734). *)
with forStmt (fuel : nat) {struct fuel} : PM (INodeResult Stmt) :=
  match fuel with
  | O => out_of_fuel
  | S f =>
      let* forToken := cur in
      advance;;
      let* id1 := eatAndThrow TokenType.id "Expect an identifer in for loop" in
      let* c := cur in
      if decide (type c = TokenType.comma) then
        let* comma := eat in
        let* id2 := eatAndThrow TokenType.id
                      "Expect second identifer after `,` in for loop" in
        let* inToken := eatAndThrow TokenType.in_ "Expect in keyword in for loop" in
        let* iterable := expression f 0 in
        let* body := declaration f in
        retM (nodeResult (ForStmt forToken inToken (value iterable) (value body) id1
                                  (Some comma) (Some id2))
                         (errors iterable ++ errors body))
      else
        let* inToken := eatAndThrow TokenType.in_ "Expect in keyword in for loop" in
        let* iterable := expression f 0 in
        let* body := declaration f in
        retM (nodeResult (ForStmt forToken inToken (value iterable) (value body) id1 None None)
                         (errors iterable ++ errors body))
  end

(** [tryStmt()] (lines 736-773). *)
with tryStmt (fuel : nat) {struct fuel} : PM (INodeResult Stmt) :=
  match fuel with
  | O => out_of_fuel
  | S f =>
      let* tryToken := cur in
      advance;;
      jumpWhiteSpace f;;
      let* body := declaration f in
      let* c := cur in
      let* '(catchStmt, errs) :=
        if decide (type c = TokenType.catch) then
          let catchToken := c in
          advance;;
          let* errorVar := eatAndThrow TokenType.id "Expect an identifer as output variable" in
          jumpWhiteSpace f;;
          let* cbody := declaration f in
          retM (Some (MkCatchStmt catchToken errorVar (value cbody)),
                errors body ++ errors cbody)
        else retM (None, errors body) in
      let* c2 := cur in
      let* '(finallyStmt, errs') :=
        if decide (type c2 = TokenType.finally) then
          let finallyToken := c2 in
          advance;;
          jumpWhiteSpace f;;
          let* fbody := declaration f in
          retM (Some (MkFinallyStmt finallyToken (value fbody)), errs ++ errors fbody)
        else retM (None, errs) in
      retM (nodeResult (TryStmt tryToken (value body) catchStmt finallyStmt) errs')
  end

(** [func()] (lines 1281-1317): scan to the matching [)], look one
    token further for a [{], then go back to [pos], the index of the [(]
    (line 1284, after [advance]). *)
with func (fuel : nat) {struct fuel} : PM (INodeResult Stmt) :=
  match fuel with
  | O => out_of_fuel
  | S f =>
      let* token := cur in
      advance;;
      let* st := getM in
      let pos0 := pos st in
      scan_parens f 1;;
      advance;;
      let* isBlock := eatDiscardCR TokenType.openBrace in
      match isBlock with
      | Some _ =>
          backto pos0;;
          let* params := parameters f in
          let* blk := block f in
          retM (nodeResult (FuncDef token (value params) (value blk))
                           (errors params ++ errors blk))
      | None =>
          backto pos0;;
          let* call := factor f in
          retM (nodeResult (ExprStmt (value call)) (errors call))
      end
  end.

(** The [while] loop of [parse()] (lines 134-139). *)
Fixpoint parse_loop (fuel : nat) (stmts : list Stmt) (diags : list ParseError)
    : PM (list Stmt * list ParseError) :=
  match fuel with
  | O => out_of_fuel
  | S f =>
      let* c := cur in
      if decide (type c = TokenType.EOF) then retM (stmts, diags)
      else
        let* r := declaration f in
        jumpWhiteSpace f;;
        parse_loop f (stmts ++ [value r]) (diags ++ errors r)
  end.

(** One round of the loop of [parse()] (lines 136-138): a declaration,
    then the blank lines after it. *)
Definition loop_step (f : nat) : PM (INodeResult Stmt) :=
  let* r := declaration f in
  jumpWhiteSpace f;;
  retM r.

(** The [try] block of [parse()] (lines 132-154). *)
Definition parse_body (fuel : nat) : PM IAST :=
  jumpWhiteSpace fuel;;
  let* '(stmts, diags) := parse_loop fuel [] [] in
  let* st := getM in
  retM (mkIAST (mkScript stmts (tokens st) (comments st) (includes st)) diags
               (tokenErrors st)).

(** [parse()] (lines 125-164).  The [catch] of the source also catches
    JavaScript errors other than [ParseError]; in the model the only
    exception is [ParseError]. *)
Definition parse (fuel : nat) : PM IAST :=
  catchM (parse_body fuel) (fun _ => retM (mkIAST (mkScript [] [] [] []) [] [])).

(** [testDeclaration()] (lines 166-168). *)
Definition testDeclaration (fuel : nat) : PM (INodeResult Stmt) := declaration fuel.

(** Parsing a whole token source. *)
Definition parse_source (fuel : nat) (tz : Tokenizer) : outcome ParseError IAST :=
  fst (parse fuel (initParser tz)).

(** ** Inputs and observations of the theorems below *)

Definition funcdef_src : list (TokenType.type * string) :=
  [(TokenType.id, "f"); (TokenType.openParen, "("); (TokenType.id, "a");
   (TokenType.comma, ","); (TokenType.id, "b"); (TokenType.closeParen, ")");
   (TokenType.openBrace, "{"); (TokenType.EOL, ""); (TokenType.closeBrace, "}")].

Definition else_if_src : list (TokenType.type * string) :=
  [(TokenType.else_, "else"); (TokenType.if_, "if"); (TokenType.id, "x"); (TokenType.EOL, "")].

Definition if_else_src : list (TokenType.type * string) :=
  [(TokenType.if_, "if"); (TokenType.id, "x"); (TokenType.EOL, "");
   (TokenType.id, "a"); (TokenType.aassign, ":="); (TokenType.number, "1"); (TokenType.EOL, "");
   (TokenType.else_, "else"); (TokenType.openBrace, "{"); (TokenType.EOL, "");
   (TokenType.id, "b"); (TokenType.aassign, ":="); (TokenType.number, "2"); (TokenType.EOL, "");
   (TokenType.closeBrace, "}")].

(** [switch x {] with one case, the brace on the line of the [switch]
    ([same_line = true]) or on the next line. *)
Definition switch_src (same_line : bool) (x : string) : list (TokenType.type * string) :=
  [(TokenType.switch, "switch"); (TokenType.id, x)] ++
  (if same_line then [] else [(TokenType.EOL, "")]) ++
  [(TokenType.openBrace, "{"); (TokenType.EOL, "");
   (TokenType.case, "case"); (TokenType.number, "1"); (TokenType.colon, ":"); (TokenType.EOL, "");
   (TokenType.id, "b"); (TokenType.aassign, ":="); (TokenType.number, "2"); (TokenType.EOL, "");
   (TokenType.closeBrace, "}")].

Definition noenv_src (eol : bool) : list (TokenType.type * string) :=
  [(TokenType.drective, "NoEnv")] ++ (if eol then [(TokenType.EOL, "")] else []).

Definition params_src : list (TokenType.type * string) :=
  [(TokenType.openParen, "("); (TokenType.id, "a"); (TokenType.comma, ",");
   (TokenType.id, "b"); (TokenType.aassign, ":="); (TokenType.number, "1");
   (TokenType.closeParen, ")")].

Definition call_src (f a b : string) : list (TokenType.type * string) :=
  [(TokenType.id, f); (TokenType.openParen, "("); (TokenType.id, a);
   (TokenType.comma, ","); (TokenType.id, b); (TokenType.closeParen, ")");
   (TokenType.EOL, "")].

Definition else_body (e : Else) : Stmt := match e with MkElse _ b _ => b end.

(** The first statement of a parse and the first diagnostic. *)
Definition first_stmt_error (o : outcome ParseError IAST) : option (bool * option string) :=
  match o with
  | Ok ast =>
      Some (match script_stmts (script ast) with InvalidStmt _ _ :: _ => true | _ => false end,
            option_map message (head (sytanxErrors ast)))
  | _ => None
  end.

(** The token types on which [declaration] and [statement] start a
    statement. *)
Definition statement_starts : list TokenType.type :=
  [TokenType.id; TokenType.class; TokenType.global; TokenType.local; TokenType.static;
   TokenType.label; TokenType.key; TokenType.hotstringOpen; TokenType.openBrace;
   TokenType.if_; TokenType.break; TokenType.return_; TokenType.switch; TokenType.loop;
   TokenType.while; TokenType.for_; TokenType.try; TokenType.drective].

(** ** Call statements *)

Lemma grows_scan_parens f u : grows (scan_parens f u).
Proof. revert u; induction f; intros u; simpl; solve_grows. Qed.

#[export] Hint Resolve grows_scan_parens : ahk.

(** [func] goes back to the [(] before it parses anything: the paren
    scan and the look for a [{] only read the buffer further. *)
Lemma func_backto_paren f st r st' :
  buffer_wf st -> type (currentToken (advance_st st)) = TokenType.openParen ->
  func (S f) st = (Ok r, st') -> exists name params body, value r = FuncDef name params body.
Proof.
  intros Hwf Hp H. cbn [func] in H. inv_buf H.
  destruct (advance_st_wf _ Hwf) as [_ Hcur].
  match goal with
  | Hs : scan_parens _ _ _ = (Ok _, ?s3), He : eatDiscardCR _ (advance_st ?s3) = (Ok ?m, ?s5)
    |- _ =>
      assert (Hpre : tokens (advance_st st) `prefix_of` tokens s5)
        by (etrans; [by eapply grows_scan_parens|];
            etrans; [apply advance_st_prefix | by eapply grows_eatDiscardCR]);
      destruct m
  end.
  - inv_ok H. eauto.
  - apply bind_Ok_inv in H as (u2 & s6 & Hback & H).
    apply bind_Ok_inv in H as (call & s7 & Hfac & _).
    eapply factor_openParen_not_ok in Hfac; [done|].
    erewrite backto_current; [exact Hp | | exact Hback].
    eapply prefix_lookup_Some; [exact Hcur | exact Hpre].
Qed.

(** (C1) Function versus call: on an identifier followed by [(], the
    only statement [idLeadStatement] ever returns is a function
    definition.  [func] rewinds to the [(] itself, not to the name
    (line 1284), so the call branch asks [factor] to start at [(],
    which throws: a call statement [f(a, b)] is never parsed as one. *)
Theorem call_statement_only_funcdef fuel st r st' :
  buffer_wf st -> type (fst (peek_st st)) = TokenType.openParen ->
  idLeadStatement fuel st = (Ok r, st') ->
  exists name params body, value r = FuncDef name params body.
Proof.
  intros Hwf Hp H. destruct fuel as [|[|f]]; [done|..];
    cbn [idLeadStatement] in H; unfold bindM at 1, peek in H;
    pose proof (peek_then_advance st Hwf) as Hpa;
    pose proof (peek_advance_current st Hwf) as Hpc;
    pose proof (peek_st_wf st Hwf) as Hwf';
    destruct (peek_st st) as [p s1]; cbn [fst snd] in Hp, Hpa, Hpc, Hwf';
    cbv iota beta in H; rewrite Hp in H; [done|].
  eapply func_backto_paren; [exact Hwf' | | exact H]. by rewrite Hpa, Hpc.
Qed.

(** Witness of (C1): [f(a, b) {}] is a function definition. *)
Lemma call_statement_only_funcdef_witness :
  let st := parser_of funcdef_src in
  buffer_wf st /\ type (fst (peek_st st)) = TokenType.openParen /\
  exists r st', idLeadStatement 30 st = (Ok r, st') /\
           exists name params body, value r = FuncDef name params body.
Proof.
  cbv zeta. split; [apply start_buffer_wf|]. split; [vm_compute; reflexivity|].
  destruct (idLeadStatement 30 (parser_of funcdef_src)) as [[n| |] st'] eqn:E;
    [| vm_compute in E; discriminate..].
  exists n, st'. split; [reflexivity|].
  exact (call_statement_only_funcdef 30 _ n st' (start_buffer_wf true (source_of funcdef_src))
           ltac:(vm_compute; reflexivity) E).
Defined.

(** A call statement is rejected: [f(a, b)] on a line of its own
    parses to one [Invalid] statement and the diagnostic "Expected an
    expression" at the [(], where the spec (section 8) expects a call
    expression statement. *)
Theorem call_statement_rejected f a b :
  match parse_source 40 (source_of (call_src f a b)) with
  | Ok ast =>
      (exists p ts, script_stmts (script ast) = [InvalidStmt p ts]) /\
      map (fun e => (type (err_token e), message e)) (sytanxErrors ast) =
        [(TokenType.openParen, "Expected an expression")]
  | _ => False
  end.
Proof. vm_compute. eauto. Qed.

(** ** Structural errors stay inside [declaration] *)

Lemma declaration_catches fuel : nothrow (declaration fuel).
Proof. destruct fuel as [|f]; simpl; solve_nothrow. Qed.

#[export] Hint Resolve declaration_catches : ahk.

Lemma loop_step_nothrow f : nothrow (loop_step f).
Proof. unfold loop_step. solve_nothrow. Qed.

Lemma parse_loop_nothrow fuel stmts diags : nothrow (parse_loop fuel stmts diags).
Proof.
  revert stmts diags. induction fuel; intros; simpl; unfold cur; solve_nothrow.
Qed.

#[export] Hint Resolve loop_step_nothrow parse_loop_nothrow : ahk.

(** The [catch] of [parse()] never handles a structural error:
    [declaration] turns every [ParseError] into an [Invalid] statement,
    so the [try] block never throws and [parse] is its [try] block.  The
    empty script of lines 159-163 is reached only through a failure
    that is not a [ParseError] (spec 7). *)
Theorem parse_catch_unused fuel st : parse fuel st = parse_body fuel st.
Proof.
  unfold parse. apply catch_no_throw. apply nothrow_bind; [apply jumpWhiteSpace_nothrow|].
  intros _. apply nothrow_bind; [apply parse_loop_nothrow|].
  intros [stmts diags]. solve_nothrow.
Qed.

(** ** The loop of [parse()] without progress *)

Lemma parse_loop_step f stmts diags st :
  type (currentToken st) <> TokenType.EOF ->
  parse_loop (S f) stmts diags st =
    bindM (loop_step f) (fun r => parse_loop f (stmts ++ [value r]) (diags ++ errors r)) st.
Proof.
  intros Hc. cbn [parse_loop]. unfold loop_step, cur, getsM, bindM, retM.
  rewrite decide_False by done.
  destruct (declaration f st) as [[r| |] s1]; [|done..].
  by destruct (jumpWhiteSpace f s1) as [[[]| |] s2].
Qed.

(** A round of the loop of [parse()] on a token that starts no
    statement, in front of a statement keyword: [statement] throws,
    [synchronize] stops at once, and the cursor stays where it was. *)
Lemma loop_step_unknown g st :
  type (currentToken st) ∉ statement_starts ->
  type (currentToken st) <> TokenType.EOF -> type (currentToken st) <> TokenType.EOL ->
  type (fst (peek_st st)) ∈ sync_stop_types ->
  exists r, loop_step (S (S g)) st = (Ok r, snd (peek_st st)).
Proof.
  intros Hn He Hl Hs. unfold loop_step.
  assert (Hstmt : exists m, statement (S g) st = (Throw m, st)).
  { cbn [statement]. unfold cur, getsM, bindM.
    destruct (type (currentToken st)) eqn:Ht;
      try (exfalso; apply Hn; unfold statement_starts; elem_of_lit); eauto. }
  destruct Hstmt as [m Hm].
  assert (Hd : exists r, declaration (S (S g)) st = (Ok r, snd (peek_st st))).
  { cbn [declaration]. unfold getM, bindM at 1, catchM, cur, getsM, bindM at 1.
    destruct (type (currentToken st)) eqn:Ht;
      try (exfalso; apply Hn; unfold statement_starts; elem_of_lit);
      rewrite Hm; unfold bindM; rewrite synchronize_stop by (rewrite ?Ht; done); eauto. }
  destruct Hd as [r Hd]. exists r. rewrite (bind_Ok _ _ _ _ _ Hd).
  pose proof (peek_st_cursor st) as [_ Hc].
  rewrite (bind_Ok _ _ _ _ _ (jumpWhiteSpace_stop _ _ ltac:(by rewrite Hc))). reflexivity.
Qed.

(** A state from which a round of the loop comes back to itself, or
    runs out of fuel, is a trap: [parse] never leaves it. *)
Lemma parse_loop_stall st :
  type (currentToken st) <> TokenType.EOF ->
  (forall f, fst (loop_step f st) = OutOfFuel \/ exists r, loop_step f st = (Ok r, st)) ->
  forall fuel stmts diags, fst (parse_loop fuel stmts diags st) = OutOfFuel.
Proof.
  intros Hc Hstep fuel. induction fuel as [|f IH]; intros stmts diags; [done|].
  rewrite parse_loop_step by done. unfold bindM.
  destruct (Hstep f) as [Hf | [r Hr]].
  - destruct (loop_step f st) as [o s1]. simpl in Hf. by subst.
  - rewrite Hr. apply IH.
Qed.

(** (C2) A stray [else] hangs the parser: on [else if x] the statement
    parser throws at [else], [synchronize] stops at once because the next
    token [if] starts a statement, and the loop of [parse()] starts again
    at the same token.  Whatever the fuel, [parse] never returns, where
    the spec (section 7) promises one diagnostic per malformed region. *)
Theorem stray_else_never_returns fuel :
  parse_source fuel (source_of else_if_src) = OutOfFuel.
Proof.
  set (st0 := parser_of else_if_src). set (st1 := snd (peek_st st0)).
  assert (Hfix : snd (peek_st st1) = st1) by (vm_compute; reflexivity).
  assert (Hloop : forall g stmts diags, fst (parse_loop g stmts diags st1) = OutOfFuel).
  { apply parse_loop_stall; [vm_compute; done|].
    intros [|[|g]]; [left; reflexivity | left; vm_compute; reflexivity | right].
    destruct (loop_step_unknown g st1) as [r Hr]; try decide_closed.
    rewrite Hfix in Hr. eauto. }
  destruct fuel as [|[|[|f]]]; [vm_compute; reflexivity..|].
  destruct (loop_step_unknown f st0) as [r Hs]; try decide_closed.
  change (snd (peek_st st0)) with st1 in Hs.
  unfold parse_source, parse, parse_body, catchM.
  rewrite (bind_Ok _ _ _ _ _ (jumpWhiteSpace_stop _ st0 ltac:(decide_closed))).
  unfold bindM at 1. rewrite parse_loop_step by decide_closed.
  unfold bindM at 1. rewrite Hs.
  specialize (Hloop (S (S f)) ([] ++ [value r]) ([] ++ errors r)).
  destruct (parse_loop _ _ _ st1) as [o s2]. simpl in Hloop. subst o. reflexivity.
Qed.

(** ** [if] with [else] *)

(** (C3) The body of an [if] with an [else] is lost: the inner
    [const body = this.block()] of the [else] branch (line 464) shadows
    the body of the [if], and both the [If] node and its [Else] hold the
    block of the [else].  What [declaration] parsed after the condition
    is dropped from the tree. *)
Theorem if_else_body_shadowed fuel st r st' :
  ifStmt fuel st = (Ok r, st') ->
  forall i c b e, value r = If i c b (Some e) -> b = else_body e.
Proof.
  intros H i c b e Hv. destruct fuel as [|f]; [done|].
  cbn [ifStmt] in H. inv_buf H.
  repeat (case_match; inv_ok H); simpl in Hv; by simplify_eq.
Qed.

(** Witness of (C3): in [if x / a := 1 / else { b := 2 }] the [If] node
    and its [Else] both hold the block [{ b := 2 }]; [a := 1] is gone. *)
Lemma if_else_body_shadowed_witness :
  exists r st' i c b e, ifStmt 40 (parser_of if_else_src) = (Ok r, st') /\
    value r = If i c b (Some e) /\ b = else_body e.
Proof.
  destruct (ifStmt 40 (parser_of if_else_src)) as [[n| |] st'] eqn:E;
    [| vm_compute in E; discriminate..].
  assert (Hv : exists i c b e, value n = If i c b (Some e)).
  { vm_compute in E. injection E as <- _. vm_compute. do 4 eexists. reflexivity. }
  destruct Hv as (i & c & b & e & Hv).
  exists n, st', i, c, b, e. split; [done|]. split; [done|].
  exact (if_else_body_shadowed 40 _ n st' E i c b e Hv).
Defined.

(** ** [switch] *)

(** A [switch] never parses: with the [{] on the line of the
    [switch], the condition [expression()] takes the [{] as the start of
    an implicit concatenation (spec 4.3); with the [{] on the next line,
    [eatAndThrow] (line 540) meets the end of line first.  Either way the
    statement becomes [Invalid] with "Expect a {". *)
Theorem switch_never_parses same_line x :
  first_stmt_error (parse_source 60 (source_of (switch_src same_line x))) =
    Some (true, Some msg_brace_open).
Proof. destruct same_line; vm_compute; reflexivity. Qed.

(** (C4) The [while (inloop)] of [switchStmt] spins on any token that is
    not a [}], a [case] or a [default:] label: [this.error(...)]
    (line 593) builds a diagnostic that is neither thrown nor recorded,
    and the loop goes round on the same token.  From such a token,
    whatever the fuel, [switch_loop] never returns; an end of line after
    the [{] of a [switch] is such a token. *)
Theorem switch_loop_spins fuel cases errs st :
  type (currentToken st) <> TokenType.closeBrace ->
  type (currentToken st) <> TokenType.case ->
  is_default_label (currentToken st) = false ->
  switch_loop fuel cases errs st = (OutOfFuel, st).
Proof.
  intros H1 H2 H3. induction fuel as [|f IH]; [done|].
  cbn [switch_loop]. unfold cur, getsM, bindM.
  destruct (type (currentToken st)) eqn:Ht; try done; rewrite H3; exact IH.
Qed.

(** Witness of (C4): an end of line where the cases should start. *)
Lemma switch_loop_spins_witness :
  let st := parser_of [(TokenType.EOL, ""); (TokenType.case, "case")] in
  type (currentToken st) <> TokenType.closeBrace /\
  type (currentToken st) <> TokenType.case /\
  is_default_label (currentToken st) = false /\
  switch_loop 50 [] [] st = (OutOfFuel, st).
Proof.
  cbv zeta. split; [vm_compute; discriminate|]. split; [vm_compute; discriminate|].
  split; [vm_compute; reflexivity|].
  apply switch_loop_spins; vm_compute; [discriminate | discriminate | reflexivity].
Defined.

(** ** Directives *)

(** (C5) The argument loop of a directive, [while (currentToken.type
    !== EOL)] (lines 791-795), never ends at the end of the input: there
    [expression()] throws, recovers without moving and the loop goes
    round again.  A directive on the last line of a file without a final
    newline hangs the parser. *)
Theorem drective_args_spin_at_EOF fuel args errs st :
  type (currentToken st) = TokenType.EOF ->
  fst (drective_args fuel args errs st) = OutOfFuel.
Proof.
  revert args errs st. induction fuel as [|f IH]; intros args errs st He; [done|].
  cbn [drective_args]. unfold cur, getsM, bindM at 1.
  rewrite decide_False by (rewrite He; done).
  destruct (expression_at_EOF f 0 st He) as [Ho | (r & st' & Hr & Hc)].
  - unfold bindM. destruct (expression f 0 st) as [o s]. simpl in Ho. by subst.
  - rewrite (bind_Ok _ _ _ _ _ Hr). apply IH. by rewrite Hc.
Qed.

(** Witness of (C5): [#NoEnv] as the last line, without a newline: the
    parser reaches the end of the input inside the argument loop. *)
Lemma drective_args_spin_at_EOF_witness :
  let st := snd (synchronize 5 (parser_of (noenv_src false))) in
  type (currentToken st) = TokenType.EOF /\
  fst (drective_args 50 [] [] st) = OutOfFuel.
Proof.
  cbv zeta. split; [vm_compute; reflexivity|].
  apply drective_args_spin_at_EOF. vm_compute. reflexivity.
Defined.

(** The arguments and the errors [drective_args] has collected are kept
    in front of the ones it adds. *)
Lemma drective_args_prefix f args errs st r st' :
  drective_args f args errs st = (Ok r, st') -> args `prefix_of` r.1 /\ errs `prefix_of` r.2.
Proof.
  revert args errs st. induction f as [|f IH]; intros args errs st H; [done|].
  cbn [drective_args] in H. inv_buf H. case_decide; inv_ok H; [done|].
  destruct (IH _ _ _ H) as [Hp1 Hp2].
  split; (etrans; [apply prefix_app_r; reflexivity | done]).
Qed.

(** (C6) A directive other than [#Include] reports a spurious error: its
    argument loop (lines 791-795) starts on the directive token itself,
    which [expression()] rejects.  Whatever follows it, every directive
    [drective] parses has an [Invalid] expression as its first argument
    and, as its first diagnostic, "Expect an experssion" at the
    directive token; [#NoEnv] on a line of its own is reported. *)
Theorem drective_spurious_error fuel st r st' :
  type (currentToken st) = TokenType.drective ->
  toLowerCase (content (currentToken st)) <> "include" ->
  drective fuel st = (Ok r, st') ->
  exists ts args, value r = Drective (currentToken st) (InvalidExpr (start (tok_at ts 0)) ts :: args) /\
    head (errors r) = Some (error (currentToken st) "Expect an experssion").
Proof.
  intros Ht Hi H. unfold drective in H. inv_buf H. rewrite decide_False in H by done.
  inv_ok H. destruct a as [args errs]. inv_buf H. simpl.
  destruct fuel as [|f]; cbn [drective_args] in H0; [by inv_ok H0|]. inv_buf H0.
  rewrite decide_False in H0 by (rewrite Ht; done).
  destruct f as [|g]; [by inv_ok H0|].
  destruct (expression_at_drective g 0 _ Ht) as [Ho | (ts & s2 & He)].
  - unfold bindM in H0. destruct (expression (S g) 0 _) as [o s3]. simpl in Ho. by subst.
  - rewrite (bind_Ok _ _ _ _ _ He) in H0.
    destruct (drective_args_prefix _ _ _ _ _ _ H0) as [[a1 Ha] [e1 He1]]. simpl in Ha, He1.
    subst args errs. eauto.
Qed.

(** Witness of (C6): [#NoEnv] on a line of its own. *)
Lemma drective_spurious_error_witness :
  let st := parser_of (noenv_src true) in
  type (currentToken st) = TokenType.drective /\
  toLowerCase (content (currentToken st)) <> "include" /\
  exists r st', drective 30 st = (Ok r, st') /\
  exists ts args, value r = Drective (currentToken st) (InvalidExpr (start (tok_at ts 0)) ts :: args) /\
    head (errors r) = Some (error (currentToken st) "Expect an experssion").
Proof.
  cbv zeta. split; [vm_compute; reflexivity|]. split; [vm_compute; discriminate|].
  destruct (drective 30 (parser_of (noenv_src true))) as [[r| |] st'] eqn:E;
    [| vm_compute in E; discriminate..].
  exists r, st'. split; [reflexivity|].
  exact (drective_spurious_error 30 (parser_of (noenv_src true)) r st' ltac:(vm_compute; reflexivity)
           ltac:(vm_compute; discriminate) E).
Defined.

(** ** Parameters *)

Lemma param_items_defaults_required f req defs errs st r st' :
  map default_name defs `sublist_of` map param_name req ->
  param_items f req defs errs st = (Ok r, st') ->
  map default_name r.1.2 `sublist_of` map param_name r.1.1.
Proof.
  revert req defs errs st. induction f as [|f IH]; intros req defs errs st Hsub H; [done|].
  cbn [param_items] in H. inv_buf H.
  repeat (first [progress inv_ok_all | case_match]); simplify_eq;
    try (eapply IH; [|eassumption]);
    simpl; rewrite ?map_app; simpl; auto with ahk.
Qed.

(** (C7) A parameter with a default value is also listed as required:
    [requiredParameters.push] (line 1350) runs for every parameter, so
    the names of the default parameters form a sublist of the names of
    the required ones. *)
Theorem parameters_defaults_required fuel st r st' o req defs c :
  parameters fuel st = (Ok r, st') -> value r = MkParam o req defs c ->
  map default_name defs `sublist_of` map param_name req.
Proof.
  intros H Hv. unfold parameters in H. inv_buf H.
  repeat (first [progress inv_ok_all | case_match]); simplify_eq; simpl in Hv; simplify_eq;
    [done|].
  match goal with
  | Hp : param_items _ _ _ _ _ = _ |- _ =>
      exact (param_items_defaults_required _ [] [] _ _ _ _ (sublist_nil_l _) Hp)
  end.
Qed.

(** Witness of (C7): in [(a, b := 1)] the two names are required and
    [b] is also a default parameter. *)
Lemma parameters_defaults_required_witness :
  exists r st' o req defs c, parameters 20 (parser_of params_src) = (Ok r, st') /\
    value r = MkParam o req defs c /\ length req = 2 /\ length defs = 1 /\
    map default_name defs `sublist_of` map param_name req.
Proof.
  destruct (parameters 20 (parser_of params_src)) as [[n| |] st'] eqn:E;
    [| vm_compute in E; discriminate..].
  assert (Hv : exists o req defs c, value n = MkParam o req defs c /\
                 length req = 2 /\ length defs = 1).
  { vm_compute in E. injection E as <- _. do 4 eexists. vm_compute. eauto. }
  destruct Hv as (o & req & defs & c & Hv & Hr & Hd).
  exists n, st', o, req, defs, c. do 4 (split; [done|]).
  exact (parameters_defaults_required 20 _ n st' o req defs c E Hv).
Defined.
