(* ===== verification/Statements.v ===== *)
(** * Statements: whole statements parsed from concrete sources

    [parse] of [StmtParser] run on short programs, laid out the ways
    AutoHotkey programs are written.  These examples, each a run of [parse]
    on fixed programs, show which layouts
    the statement methods of [src/server/src/parser/newtry/parser/parser.ts]
    accept and which they break: a [{] on the line of a condition is
    read by [expression()] as an associative array, an [else] or a
    [catch] on the line after a [}] is not attached to its statement,
    and [forStmt] does not skip the line end before its body.  Error
    locality (spec section 8) is checked on the example of the spec and
    on a malformed line followed by a correct one. *)

From S2P Require Import Prelude Tokens Ast TokenBuffer ExprParser StmtParser.

(** ** Observations *)

(** The kind of a statement node, by the name of its class. *)
Definition stmt_kind (s : Stmt) : string :=
  match s with
  | InvalidStmt _ _ => "Invalid"
  | Block _ _ _ => "Block"
  | If _ _ _ None => "If"
  | If _ _ _ (Some _) => "IfElse"
  | Break _ _ => "Break"
  | Return _ _ => "Return"
  | SwitchStmt _ _ _ _ _ => "Switch"
  | Loop _ _ _ => "Loop"
  | UntilLoop _ _ _ _ => "UntilLoop"
  | WhileStmt _ _ _ => "While"
  | ForStmt _ _ _ _ _ _ _ => "For"
  | TryStmt _ _ None _ => "Try"
  | TryStmt _ _ (Some _) _ => "TryCatch"
  | Drective _ _ => "Drective"
  | AssignStmt _ _ _ => "Assign"
  | ExprStmt _ => "ExprStmt"
  | VarDecl _ _ => "VarDecl"
  | ClassDef _ _ _ _ _ => "ClassDef"
  | Label _ => "Label"
  | Hotkey _ _ _ => "Hotkey"
  | HotString _ _ _ => "HotString"
  | FuncDef _ _ _ => "FuncDef"
  end.

(** The kinds of the top-level statements and the messages of the
    diagnostics of a parse. *)
Definition outline (o : outcome ParseError IAST) : option (list string * list string) :=
  match o with
  | Ok ast => Some (map stmt_kind (script_stmts (script ast)), map message (sytanxErrors ast))
  | _ => None
  end.

Definition run_source (ts : list (TokenType.type * string)) : option (list string * list string) :=
  outline (parse_source 80 (source_of ts)).

(** ** Sources *)

Definition eol : TokenType.type * string := (TokenType.EOL, "").

(** [v := n] on a line of its own. *)
Definition assign_line (v n : string) : list (TokenType.type * string) :=
  [(TokenType.id, v); (TokenType.aassign, ":="); (TokenType.number, n); eol].

(** A block holding one assignment, its braces on lines of their own;
    the line end after the [}] is left to the caller. *)
Definition block_lines (v : string) : list (TokenType.type * string) :=
  [(TokenType.openBrace, "{"); eol] ++ assign_line v "1" ++ [(TokenType.closeBrace, "}")].

(** [if x {] or [while x {] with the brace on the line of the condition. *)
Definition brace_on_condition_src (is_if : bool) (x v : string) : list (TokenType.type * string) :=
  [if is_if then (TokenType.if_, "if") else (TokenType.while, "while"); (TokenType.id, x)] ++
  block_lines v ++ [eol].

(** [if x / { ... } / else / { ... }] and [try / { ... } / catch e / { ... }]:
    the second keyword on the line after the [}]. *)
Definition else_next_line_src (x : string) : list (TokenType.type * string) :=
  [(TokenType.if_, "if"); (TokenType.id, x); eol] ++ block_lines "a" ++ [eol] ++
  [(TokenType.else_, "else"); eol] ++ block_lines "b" ++ [eol].

Definition catch_next_line_src (e : string) : list (TokenType.type * string) :=
  [(TokenType.try, "try"); eol] ++ block_lines "a" ++ [eol] ++
  [(TokenType.catch, "catch"); (TokenType.id, e); eol] ++ block_lines "b" ++ [eol].

(** [for k in arr] with the body on the next line. *)
Definition for_next_line_src (k arr : string) : list (TokenType.type * string) :=
  [(TokenType.for_, "for"); (TokenType.id, k); (TokenType.in_, "in"); (TokenType.id, arr); eol] ++
  assign_line "a" "1".

(** The example of the spec, section 8: [x := 1 / y := ( / z := 3]. *)
Definition spec_locality_src : list (TokenType.type * string) :=
  assign_line "x" "1" ++
  [(TokenType.id, "y"); (TokenType.aassign, ":="); (TokenType.openParen, "("); eol] ++
  assign_line "z" "3".

(** A malformed line [x := )] followed by [z := 3]. *)
Definition bad_line_src (x z : string) : list (TokenType.type * string) :=
  [(TokenType.id, x); (TokenType.aassign, ":="); (TokenType.closeParen, ")"); eol] ++
  assign_line z "3".

(** Statements laid out with their braces on lines of their own. *)
Definition well_laid_src : list (TokenType.type * string) :=
  [(TokenType.while, "while"); (TokenType.id, "x"); eol] ++ block_lines "a" ++ [eol] ++
  [(TokenType.loop, "loop"); eol] ++ block_lines "b" ++
    [(TokenType.until, "until"); (TokenType.id, "y"); eol] ++
  [(TokenType.try, "try"); eol] ++ block_lines "c" ++
    [(TokenType.catch, "catch"); (TokenType.id, "e"); eol] ++ block_lines "d" ++ [eol] ++
  [(TokenType.if_, "if"); (TokenType.id, "x"); eol] ++ block_lines "f" ++
    [(TokenType.else_, "else"); eol] ++ block_lines "g" ++ [eol] ++
  [(TokenType.class, "class"); (TokenType.id, "C"); eol] ++ block_lines "h" ++ [eol] ++
  [(TokenType.id, "fn"); (TokenType.openParen, "("); (TokenType.id, "p"); (TokenType.closeParen, ")"); eol] ++
    block_lines "i" ++ [eol] ++
  [(TokenType.global, "global"); (TokenType.id, "g"); eol] ++
  [(TokenType.return_, "return"); (TokenType.id, "x"); eol].

(** ** Layouts the statement parser breaks *)

(** A [{] on the line of an [if] or [while] condition is read as
    an associative array: the condition is parsed by [expression()],
    whose implicit concatenation takes a value-starting token, [{]
    included (spec 4.3), and the associative array then fails at the
    line end.  The first diagnostic is "Expect a } at the end of
    associative array". *)
Theorem brace_on_condition_line is_if x v :
  option_map (fun o => head o.2) (run_source (brace_on_condition_src is_if x v)) =
    Some (Some msg_dict_end).
Proof. destruct is_if; vm_compute; reflexivity. Qed.

(** An [else] or a [catch] on the line after the [}] is not
    attached: [ifStmt] (line 455) and [tryStmt] (line 745) test the
    current token, which is the line end after the block.  The keyword
    becomes a statement of its own, rejected with "UnKnown statment
    found", and the block after it a separate [Block]. *)
Theorem else_catch_next_line_detached x e :
  run_source (else_next_line_src x) =
    Some (["If"; "Invalid"; "Block"], ["UnKnown statment found"]) /\
  run_source (catch_next_line_src e) =
    Some (["Try"; "Invalid"; "Block"], ["UnKnown statment found"]).
Proof. split; vm_compute; reflexivity. Qed.

(** [forStmt] (lines 706 and 723) parses its body right after the
    iterable, without [jumpWhiteSpace]: a body on the next line is
    replaced by an [Invalid] statement made of the line end, with the
    diagnostic "UnKnown statment found". *)
Theorem for_body_next_line k arr :
  match parse_source 80 (source_of (for_next_line_src k arr)) with
  | Ok ast =>
      (exists ft it iter p ts i1, script_stmts (script ast) =
         [ForStmt ft it iter (InvalidStmt p ts) i1 None None]) /\
      map message (sytanxErrors ast) = ["UnKnown statment found"]
  | _ => False
  end.
Proof. vm_compute. eauto 10. Qed.

(** ** Error locality *)

(** The example of the spec (section 8) does not give three
    statements.  Inside the unclosed [(] of [y := (] the expression
    fails on the line end; [synchronize] starts there but looks only at
    the token after the current one, so it steps over [z := 3] and stops
    at the next line end.  The parse has two assignments, [x := 1] and
    [y := <Invalid>], and one diagnostic: [z := 3] is swallowed. *)
Theorem spec_locality_example :
  run_source spec_locality_src = Some (["Assign"; "Assign"], ["Expect an experssion"]).
Proof. vm_compute. reflexivity. Qed.

(** One malformed line costs one diagnostic: [x := )] followed by
    [z := 3] parses to two assignments, the second one complete, and the
    diagnostic of the first line only. *)
Theorem bad_line_local x z :
  match parse_source 80 (source_of (bad_line_src x z)) with
  | Ok ast =>
      map stmt_kind (script_stmts (script ast)) = ["Assign"; "Assign"] /\
      map message (sytanxErrors ast) = ["Expect an experssion"] /\
      match last (script_stmts (script ast)) with
      | Some (AssignStmt l _ r) => expr_lines l = Some [z] /\ expr_lines r = Some ["3"]
      | _ => False
      end
  | _ => False
  end.
Proof. vm_compute. auto. Qed.

(** ** Layouts the statement parser accepts *)

(** With every brace on a line of its own and [else], [until] and
    [catch] right after the [}], [while], [loop ... until], [try ...
    catch], [if ... else], [class], a function definition, [global] and
    [return] parse to their nodes without any diagnostic. *)
Theorem well_laid_statements :
  run_source well_laid_src =
    Some (["While"; "UntilLoop"; "TryCatch"; "IfElse"; "ClassDef"; "FuncDef"; "VarDecl"; "Return"],
          []).
Proof. vm_compute. reflexivity. Qed.
