(* ===== verification/LegacyTokens.v ===== *)
(** * LegacyTokens: the token enumeration of [src/server/src/utilities/types.ts]

    The older parser of [src/server/src/semantic_stack.ts] (the
    [SemanticStack] that the signature help of the Tree Manager runs on
    one line of text) does not use the token types of [Tokens]: it
    imports the enumeration [TokenType], the interface [Token] and the
    function [createToken] of [utilities/types.ts].  They live in the
    module [Legacy], so that a file can load both enumerations.

    The enumeration is numbered by TypeScript from [0] in the order of
    its members, and [SemanticStack.expr] tests the operators by ranges
    of that numbering ([type >= TokenType.number && type <= TokenType.less]),
    so [ord] is part of the model and the lemmas [*_spec] name the members
    of each range. *)

From S2P Require Import Prelude.

Module Legacy.

Module TokenType.
Inductive type : Set :=
(* literal *)
| number | string | true_ | false_
| id
(* equals *)
| aassign | equal
(* binary *)
| plus | minus | multi | div | power | not | and | or | notEqual | greaterEqual | greater
| lessEqual | less
(* paren *)
| openBrace | closeBrace | openBracket | closeBracket | openParen | closeParen
(* comment *)
| lineComment | openMultiComment | closeMultiComment
(* marks *)
| sharp | dot | comma
(* keyword *)
| if_ | else_ | switch | case | do_ | loop
| while | until | break | continue
| gosub | goto | return_ | global
| local | throw | include | class
| extends | new
(* file *)
| EOL | EOF
(* error *)
| unknown.

(** The number TypeScript gives each member. *)
Definition ord (t : type) : nat :=
  match t with
  | number => 0 | string => 1 | true_ => 2 | false_ => 3 | id => 4
  | aassign => 5 | equal => 6
  | plus => 7 | minus => 8 | multi => 9 | div => 10 | power => 11 | not => 12
  | and => 13 | or => 14 | notEqual => 15 | greaterEqual => 16 | greater => 17
  | lessEqual => 18 | less => 19
  | openBrace => 20 | closeBrace => 21 | openBracket => 22 | closeBracket => 23
  | openParen => 24 | closeParen => 25
  | lineComment => 26 | openMultiComment => 27 | closeMultiComment => 28
  | sharp => 29 | dot => 30 | comma => 31
  | if_ => 32 | else_ => 33 | switch => 34 | case => 35 | do_ => 36 | loop => 37
  | while => 38 | until => 39 | break => 40 | continue => 41
  | gosub => 42 | goto => 43 | return_ => 44 | global => 45
  | local => 46 | throw => 47 | include => 48 | class => 49
  | extends => 50 | new => 51
  | EOL => 52 | EOF => 53
  | unknown => 54
  end.

(** [t >= a && t <= b] on the numbering. *)
Definition between (a b t : type) : bool := (ord a <=? ord t) && (ord t <=? ord b).
End TokenType.

#[export] Instance TokenType_eq_dec : EqDecision TokenType.type.
Proof. solve_decision. Defined.

(** [interface Token]: the offsets are character offsets of the line. *)
Record Token : Set := mkToken {
  type : TokenType.type;
  content : string;
  start : Z;
  end_ : Z
}.

(** [createToken(type, content, start, end)]. *)
Definition createToken (t : TokenType.type) (c : string) (s e : Z) : Token :=
  mkToken t c s e.

(** ** The ranges [SemanticStack.expr] tests *)

(** The operators of the loop of [expr]: the range [number..less]. *)
Definition is_operator_range (t : TokenType.type) : bool :=
  TokenType.between TokenType.number TokenType.less t.

(** The tokens that start an implicit concatenation: [number..id]. *)
Definition is_implicit_range (t : TokenType.type) : bool :=
  TokenType.between TokenType.number TokenType.id t.

(** The members in the order of their declaration. *)
Definition members : list TokenType.type :=
  [TokenType.number; TokenType.string; TokenType.true_; TokenType.false_; TokenType.id;
   TokenType.aassign; TokenType.equal; TokenType.plus; TokenType.minus; TokenType.multi;
   TokenType.div; TokenType.power; TokenType.not; TokenType.and; TokenType.or;
   TokenType.notEqual; TokenType.greaterEqual; TokenType.greater; TokenType.lessEqual;
   TokenType.less; TokenType.openBrace; TokenType.closeBrace; TokenType.openBracket;
   TokenType.closeBracket; TokenType.openParen; TokenType.closeParen; TokenType.lineComment;
   TokenType.openMultiComment; TokenType.closeMultiComment; TokenType.sharp; TokenType.dot;
   TokenType.comma; TokenType.if_; TokenType.else_; TokenType.switch; TokenType.case;
   TokenType.do_; TokenType.loop; TokenType.while; TokenType.until; TokenType.break;
   TokenType.continue; TokenType.gosub; TokenType.goto; TokenType.return_; TokenType.global;
   TokenType.local; TokenType.throw; TokenType.include; TokenType.class; TokenType.extends;
   TokenType.new; TokenType.EOL; TokenType.EOF; TokenType.unknown].

(** [ord] is the position of a member in the declaration. *)
Lemma members_ord t : members !! TokenType.ord t = Some t.
Proof. by destruct t. Qed.

Lemma ord_inj t1 t2 : TokenType.ord t1 = TokenType.ord t2 -> t1 = t2.
Proof. intros H. pose proof (members_ord t1) as H1. rewrite H, members_ord in H1. congruence. Qed.

Lemma is_operator_range_spec t :
  is_operator_range t = true <->
  t ∈ [TokenType.number; TokenType.string; TokenType.true_; TokenType.false_; TokenType.id;
       TokenType.aassign; TokenType.equal; TokenType.plus; TokenType.minus; TokenType.multi;
       TokenType.div; TokenType.power; TokenType.not; TokenType.and; TokenType.or;
       TokenType.notEqual; TokenType.greaterEqual; TokenType.greater; TokenType.lessEqual;
       TokenType.less].
Proof.
  split.
  - destruct t; try discriminate; intros _; elem_of_lit.
  - intros H. repeat (apply elem_of_cons in H as [->|H]; [reflexivity|]).
    by apply elem_of_nil in H.
Qed.

Lemma is_implicit_range_spec t :
  is_implicit_range t = true <->
  t ∈ [TokenType.number; TokenType.string; TokenType.true_; TokenType.false_; TokenType.id].
Proof.
  split.
  - destruct t; try discriminate; intros _; elem_of_lit.
  - intros H. repeat (apply elem_of_cons in H as [->|H]; [reflexivity|]).
    by apply elem_of_nil in H.
Qed.

Lemma implicit_range_operator t : is_implicit_range t = true -> is_operator_range t = true.
Proof. by destruct t. Qed.

End Legacy.
