(* ===== verification/SemanticStack.v ===== *)
(** * SemanticStack: the one-line parser of [src/server/src/semantic_stack.ts]

    [SemanticStack] is an older recursive-descent parser of one line of
    text.  The signature help of the Tree Manager ([getFuncAtPosition])
    imports the [SemanticStack] of [parser/regParser] instead, which is
    not among the sources; this parser is an instance of the interface
    [getFuncAtPosition] is stated against ([Queries.LineParser]).  It reads the tokens of
    [utilities/types.ts] ([LegacyTokens]) from a [Tokenizer] of the
    module [./tokenizer], which is not among the sources.  The parser
    uses three things of it: [new Tokenizer(document)], [Reset(document)],
    [GetNextToken()] and the field [currChar], the character that follows
    the last token read.  They form the class [SemTokenizer]; the
    parser is defined and its termination proved against the class, and
    [ListTokenizer] is an instance that serves a fixed list of tokens.

    The nodes of [./asttypes] (not among the sources either) are the
    inductive [SNode], with one constructor per node class the parser
    builds and the fields it passes to their constructors, and the
    [CommandCall] of [regParser/asttypes], which this parser never
    builds.  A method is
    a computation of [SM A := StExc SemanticStack string A]; [throw new
    Error("Unexpect Token")] is [Throw], and [try]/[catch] is [catchM].
    Each method and each round of a loop takes one unit of fuel. *)

From S2P Require Import Prelude LegacyTokens.
Import Legacy.

(** ** The nodes of [asttypes] *)

(** [Offrange(start, end)]: offsets in the line. *)
Record Offrange : Set := mkOffrange { or_start : Z; or_end : Z }.

Definition token_range (t : Token) : Offrange := mkOffrange (start t) (end_ t).

(** [INodeResult<T>] is [{ errors, value }]; [SNode] has the node kinds
    of the parser: [IVariable], [ILiteral], [IUnaryOperator], [IBinOp],
    [INoOpt] (the node of a failed expression), [FunctionCall],
    [MethodCall], [PropertCall] and [IAssign]. *)
Inductive SNode : Set :=
| SVariable (name : string) (token : Token) (offrange : Offrange)
| SLiteral (token : Token) (value : string) (offrange : Offrange)
| SUnary (operator : Token) (expr : NodeResult) (offrange : Offrange)
| SBinOp (left : NodeResult) (operator : Token) (right : NodeResult) (offrange : Offrange)
| SNoOpt (offrange : Offrange)
| SFunctionCall (name : string) (actualParams : list NodeResult) (token : Token)
    (offrange : Offrange)
| SMethodCall (name : string) (actualParams : list NodeResult) (token : Token)
    (ref : list Token) (offrange : Offrange)
| SPropertCall (name : string) (token : Token) (ref : list Token) (offrange : Offrange)
| SAssign (left : NodeResult) (operator : Token) (right : NodeResult) (offrange : Offrange)
(* [CommandCall] of [regParser/asttypes], a [FunctionCall] for a
   command; the parser of this file never builds one. *)
| SCommandCall (name : string) (actualParams : list NodeResult) (token : Token)
    (offrange : Offrange)
with NodeResult : Set :=
| mkResult (errors : bool) (value : SNode).

Definition errors (r : NodeResult) : bool := match r with mkResult e _ => e end.
Definition value (r : NodeResult) : SNode := match r with mkResult _ v => v end.

(** The fields [offrange], [name], [actualParams], [token] and [ref] as
    JavaScript reads them off a node; the parser reads [name],
    [actualParams], [token] and [ref] only off call nodes. *)
Definition offrange (n : SNode) : Offrange :=
  match n with
  | SVariable _ _ o | SLiteral _ _ o | SUnary _ _ o | SBinOp _ _ _ o | SNoOpt o
  | SFunctionCall _ _ _ o | SMethodCall _ _ _ _ o | SPropertCall _ _ _ o
  | SAssign _ _ _ o | SCommandCall _ _ _ o => o
  end.

Definition node_name (n : SNode) : string :=
  match n with
  | SVariable x _ _ | SFunctionCall x _ _ _ | SMethodCall x _ _ _ _ | SPropertCall x _ _ _
  | SCommandCall x _ _ _ => x
  | _ => ""
  end.

Definition node_params (n : SNode) : list NodeResult :=
  match n with
  | SFunctionCall _ ps _ _ | SMethodCall _ ps _ _ _ | SCommandCall _ ps _ _ => ps
  | _ => []
  end.

Definition node_token (n : SNode) : Token :=
  match n with
  | SVariable _ t _ | SLiteral t _ _ | SFunctionCall _ _ t _ | SMethodCall _ _ t _ _
  | SPropertCall _ t _ _ | SCommandCall _ _ t _ => t
  | SUnary t _ _ | SBinOp _ t _ _ | SAssign _ t _ _ => t
  | SNoOpt o => mkToken TokenType.unknown "" (or_start o) (or_end o)
  end.

Definition node_ref (n : SNode) : list Token :=
  match n with SMethodCall _ _ _ r _ | SPropertCall _ _ r _ => r | _ => [] end.

(** [isExpr(node)]: the node has a field [right], as [IBinOp] and
    [IAssign] have (lines 30-35). *)
Definition isExpr (n : SNode) : bool :=
  match n with SBinOp _ _ _ _ | SAssign _ _ _ _ => true | _ => false end.

(** The nodes [getFuncAtPosition] declares for the result of
    [statement()], [INodeResult<IFunctionCall | IMethodCall |
    IPropertCall | IAssign | ICommandCall>] (line 709 of
    [services/treeManager.ts]), and casts the node it walks to
    (line 729). *)
Definition is_statement_node (n : SNode) : bool :=
  match n with
  | SFunctionCall _ _ _ _ | SMethodCall _ _ _ _ _ | SPropertCall _ _ _ _ | SAssign _ _ _ _
  | SCommandCall _ _ _ _ => true
  | _ => false
  end.

(** ** The tokenizer interface *)

(** The [Tokenizer] of [./tokenizer] as the parser uses it: a tokenizer
    made from a document, [Reset], [GetNextToken] and [currChar]. *)
Class SemTokenizer (D T : Type) := {
  tokenizer_new : D -> T;
  Reset : T -> D -> T;
  GetNextToken : T -> Token * T;
  currChar : T -> string
}.

(** A tokenizer whose work is bounded: reading a token other than [EOF]
    uses up one unit of [tok_measure], reading [EOF] none. *)
Class TokenMeasure (D T : Type) `{!SemTokenizer D T} := {
  tok_measure : T -> nat;
  next_measure : forall t,
    tok_measure (snd (GetNextToken t)) +
      (if decide (type (fst (GetNextToken t)) = TokenType.EOF) then 0 else 1)
    <= tok_measure t
}.

(** ** The parser

    The methods of [class SemanticStack], in a module of the same name. *)

Module SemanticStack.
Section Methods.
Context {D T : Type} `{!SemTokenizer D T}.

(** The fields of the class. *)
Record SemanticStack : Type := mkStack { tokenizer : T; currentToken : Token }.

Definition SM (A : Type) : Type := StExc SemanticStack string A.

(** [constructor(document)] (lines 41-44). *)
Definition semantic_stack (document : D) : SemanticStack :=
  let tz := tokenizer_new document in
  let (t, tz') := GetNextToken tz in
  mkStack tz' t.

(** [reset(document)] (lines 46-49): the tokenizer starts again on the
    new document, [currentToken] is left as it was. *)
Definition reset (document : D) (st : SemanticStack) : SemanticStack :=
  mkStack (Reset (tokenizer st) document) (currentToken st).

Definition cur : SM Token := getsM currentToken.

Definition curChar : SM string := getsM (fun st => currChar (tokenizer st)).

(** [eat(type)] (lines 51-58). *)
Definition eat (ty : TokenType.type) : SM unit :=
  let* st := getM in
  if decide (ty = type (currentToken st)) then
    let (t, tz) := GetNextToken (tokenizer st) in
    putM (mkStack tz t)
  else throwM "Unexpect Token".

(** [variable()] (lines 60-71). *)
Definition variable : SM NodeResult :=
  let* token := cur in
  eat TokenType.id;;
  retM (mkResult false (SVariable (content token) token (token_range token))).

(** [literal()] (lines 73-89): a token that is neither a string nor a
    number is not consumed. *)
Definition literal : SM NodeResult :=
  let* token := cur in
  (if decide (type token = TokenType.string) then eat TokenType.string
   else if decide (type token = TokenType.number) then eat TokenType.number
   else retM tt);;
  retM (mkResult false (SLiteral token (content token) (token_range token))).

(** The node [new C] of a class named by its name alone: [token] is the
    token [new] itself (captured before [eat(TokenType.new)]). *)
Definition new_by_name (token : Token) : SM NodeResult :=
  if decide (type token = TokenType.id) then
    eat TokenType.id;;
    retM (mkResult false (SMethodCall "__New" [] token [token] (token_range token)))
  else
    retM (mkResult true
            (SMethodCall "__New" [] (createToken TokenType.unknown "" (start token) (end_ token))
               [] (token_range token))).

(** The loop of [classCall] over [id .] (lines 326-330). *)
Fixpoint classCall_refs (fuel : nat) (classref : list Token) : SM (list Token) :=
  match fuel with
  | O => out_of_fuel
  | S f =>
      let* c := cur in
      let* ch := curChar in
      if bool_decide (type c = TokenType.id) && bool_decide (ch = ".") then
        eat TokenType.id;;
        eat TokenType.dot;;
        classCall_refs f (classref ++ [c])
      else retM classref
  end.

Fixpoint factor (fuel : nat) : SM NodeResult :=
  match fuel with
  | O => out_of_fuel
  | S f =>
      let* token := cur in
      match type token with
      | TokenType.string | TokenType.number => literal
      | TokenType.plus | TokenType.minus =>
          eat (type token);;
          let* exp := expr f in
          retM (mkResult false
                  (SUnary token exp (mkOffrange (start token) (or_end (offrange (value exp))))))
      | TokenType.new =>
          eat TokenType.new;;
          let* ch := curChar in
          if decide (ch = "(") then
            let* node := funcCall f in
            let v := value node in
            retM (mkResult (errors node)
                    (SMethodCall "__New" (node_params v) (node_token v) [node_token v]
                       (offrange v)))
          else if decide (ch = ".") then
            let* node := classCall f in
            let v := value node in
            let ref := node_ref v ++ [node_token v] in
            match v with
            | SMethodCall _ ps tok _ o =>
                retM (mkResult (errors node) (SMethodCall "__New" ps tok ref o))
            | _ =>
                retM (mkResult (errors node) (SMethodCall "__New" [] (node_token v) ref (offrange v)))
            end
          else new_by_name token
      | TokenType.openParen =>
          eat TokenType.openParen;;
          let* node := expr f in
          eat TokenType.closeParen;;
          retM node
      | _ =>
          let* ch := curChar in
          if decide (ch = "(") then funcCall f
          else if decide (ch = ".") then classCall f
          else variable
      end
  end

(** [expr()] (lines 209-256): any exception of the [try] block gives
    the node [INoOpt] of the current token. *)
with expr (fuel : nat) : SM NodeResult :=
  match fuel with
  | O => out_of_fuel
  | S f =>
      catchM
        (let* left := factor f in
         expr_loop f left (mkResult (errors left) (value left)))
        (fun _ =>
           let* c := cur in
           retM (mkResult true (SNoOpt (token_range c))))
  end

(** The [while] loop of [expr] (lines 220-245).  Every round builds its
    node from [left], the result of [factor], not from [node]. *)
with expr_loop (fuel : nat) (left node : NodeResult) : SM NodeResult :=
  match fuel with
  | O => out_of_fuel
  | S f =>
      let* c := cur in
      if is_operator_range (type c) || bool_decide (type c = TokenType.dot)
         || bool_decide (type c = TokenType.unknown) then
        let token := if is_implicit_range (type c)
                     then mkToken TokenType.unknown "" (start c) (start c) else c in
        eat (type c);;
        let* right := expr f in
        expr_loop f left
          (mkResult false
             (SBinOp left token right (mkOffrange (start token) (or_end (offrange (value right))))))
      else retM node
  end

(** [funcCall()] (lines 290-319). *)
with funcCall (fuel : nat) : SM NodeResult :=
  match fuel with
  | O => out_of_fuel
  | S f =>
      let* token := cur in
      let funcName := content token in
      eat TokenType.id;;
      eat TokenType.openParen;;
      let* c := cur in
      let* params :=
        if decide (type c <> TokenType.closeParen) then
          let* e := expr f in retM [e]
        else retM [] in
      let* actualParams := funcCall_args f params in
      let* c' := cur in
      let end0 := end_ c' in
      let* iserror := catchM (eat TokenType.closeParen;; retM false) (fun _ => retM true) in
      retM (mkResult iserror
              (SFunctionCall funcName actualParams token (mkOffrange (start token) end0)))
  end

(** The loop over [,] of [funcCall] (lines 302-305). *)
with funcCall_args (fuel : nat) (actualParams : list NodeResult) : SM (list NodeResult) :=
  match fuel with
  | O => out_of_fuel
  | S f =>
      let* c := cur in
      if decide (type c = TokenType.comma) then
        eat TokenType.comma;;
        let* e := expr f in
        funcCall_args f (actualParams ++ [e])
      else retM actualParams
  end

(** [classCall()] (lines 321-363).  The property node takes its name
    and token from [this.currentToken] after the property was eaten. *)
with classCall (fuel : nat) : SM NodeResult :=
  match fuel with
  | O => out_of_fuel
  | S f =>
      let* c0 := cur in
      eat TokenType.id;;
      eat TokenType.dot;;
      let* classref := classCall_refs f [c0] in
      let* token := cur in
      if decide (type token = TokenType.id) then
        let* ch := curChar in
        if decide (ch = "(") then
          let* callNode := funcCall f in
          let v := value callNode in
          retM (mkResult (errors callNode)
                  (SMethodCall (node_name v) (node_params v) (node_token v) classref
                     (mkOffrange (start c0) (or_end (offrange v)))))
        else
          eat TokenType.id;;
          let* c := cur in
          retM (mkResult false
                  (SPropertCall (content c) c classref (mkOffrange (start c0) (end_ token))))
      else
        let* c := cur in
        retM (mkResult true
                (SPropertCall (content c) c classref (mkOffrange (start c0) (end_ token))))
  end.

(** [assignment()] (lines 258-288).  The result of [classCall] is
    overwritten by [variable()] at once; [:=] is eaten and then an [=]
    is required all the same. *)
Definition assignment (fuel : nat) : SM NodeResult :=
  match fuel with
  | O => out_of_fuel
  | S f =>
      let* ch := curChar in
      (if decide (ch = ".") then let* _ := classCall f in retM tt else retM tt);;
      let* left := variable in
      let* token := cur in
      (if decide (type token = TokenType.aassign) then eat TokenType.aassign else retM tt);;
      let* isWrong := catchM (eat TokenType.equal;; retM false) (fun _ => retM true) in
      let* exprNode := expr f in
      retM (mkResult isWrong
              (SAssign left token exprNode
                 (mkOffrange (start token) (or_end (offrange (value exprNode))))))
  end.

(** The loop of [statement] that skips to the first [id] (lines 368-373):
    [false] is the [return undefined] at [EOF]. *)
Fixpoint statement_skip (fuel : nat) : SM bool :=
  match fuel with
  | O => out_of_fuel
  | S f =>
      let* c := cur in
      if decide (type c = TokenType.id) then retM true
      else if decide (type c = TokenType.EOF) then retM false
      else eat (type c);; statement_skip f
  end.

(** [statement()] (lines 365-390); [None] is [undefined]. *)
Definition statement (fuel : nat) : SM (option NodeResult) :=
  match fuel with
  | O => out_of_fuel
  | S f =>
      let* found := statement_skip f in
      if found then
        let* ch := curChar in
        if decide (ch = "(") then let* r := funcCall f in retM (Some r)
        else if decide (ch = ".") then let* r := classCall f in retM (Some r)
        else let* r := assignment f in retM (Some r)
      else retM None
  end.

End Methods.

Arguments SemanticStack T : clear implicits.
End SemanticStack.
Import SemanticStack.

(** ** A tokenizer over a list of tokens *)

(** Each token comes with the character that follows it in the line;
    after the last token the tokenizer serves [EOF] at the end of the
    line for ever, with [currChar] empty. *)
Record ListTokenizer : Set := mkListTokenizer {
  lt_rest : list (Token * string);
  lt_char : string;
  lt_end : Z
}.

Definition lt_eof (t : ListTokenizer) : Token :=
  createToken TokenType.EOF "" (lt_end t) (lt_end t).

Definition lt_next (t : ListTokenizer) : Token * ListTokenizer :=
  match lt_rest t with
  | [] => (lt_eof t, mkListTokenizer [] "" (lt_end t))
  | (tok, c) :: r => (tok, mkListTokenizer r c (lt_end t))
  end.

(** A document is its list of tokens and the offset of the end of its
    line. *)
#[export] Instance ListTokenizer_sem : SemTokenizer (list (Token * string) * Z) ListTokenizer := {
  tokenizer_new d := mkListTokenizer d.1 "" d.2;
  Reset _ d := mkListTokenizer d.1 "" d.2;
  GetNextToken := lt_next;
  currChar := lt_char
}.

#[export] Program Instance ListTokenizer_measure :
  TokenMeasure (list (Token * string) * Z) ListTokenizer := {
  tok_measure t := length (lt_rest t)
}.
Next Obligation.
  intros [[|[tok c] r] ch e]; cbn; [done|]. case_decide; lia.
Qed.

(** ** The work of a parse is bounded by the tokens of the line *)

Section Measure.
Context {D T : Type} `{!SemTokenizer D T} `{!TokenMeasure D T}.

(** The tokens left: those the tokenizer has still to serve, and the
    current token unless it is [EOF]. *)
Definition measure (st : SemanticStack T) : nat :=
  tok_measure (tokenizer st) +
    (if decide (type (currentToken st) = TokenType.EOF) then 0 else 1).

(** A computation that never gives back tokens. *)
Definition decr {A} (c : SM A) : Prop :=
  forall st, measure (snd (c st)) <= measure st.

(** A computation that finishes, by [Ok] or by an exception, from every
    state with at most [m] tokens left. *)
Definition runs {A} (c : SM A) (m : nat) : Prop :=
  forall st, measure st <= m -> fst (c st) <> OutOfFuel.

Lemma measure_next st t tz :
  GetNextToken (tokenizer st) = (t, tz) ->
  type (currentToken st) <> TokenType.EOF ->
  measure (mkStack tz t) < measure st.
Proof.
  intros Hn Hc. unfold measure. simpl.
  pose proof (next_measure (tokenizer st)) as Hm. rewrite Hn in Hm. simpl in Hm.
  rewrite (decide_False _ _ Hc). case_decide; lia.
Qed.

Lemma decr_ret {A} (a : A) : decr (retM a).
Proof. by intros st. Qed.

Lemma decr_gets {A} (f : SemanticStack T -> A) : decr (getsM f).
Proof. by intros st. Qed.

Lemma decr_get : decr getM.
Proof. by intros st. Qed.

Lemma decr_throw {A} e : decr (@throwM _ _ A e).
Proof. by intros st. Qed.

Lemma decr_out_of_fuel {A} : decr (@out_of_fuel _ _ A).
Proof. by intros st. Qed.

Lemma decr_bind {A B} (c : SM A) (k : A -> SM B) :
  decr c -> (forall a, decr (k a)) -> decr (bindM c k).
Proof.
  intros Hc Hk st. unfold bindM. specialize (Hc st).
  destruct (c st) as [[a| |] s1]; simpl in *; [|lia..]. etransitivity; [apply Hk | exact Hc].
Qed.

Lemma decr_catch {A} (c : SM A) (h : string -> SM A) :
  decr c -> (forall e, decr (h e)) -> decr (catchM c h).
Proof.
  intros Hc Hh st. unfold catchM. specialize (Hc st).
  destruct (c st) as [[| e |] s1]; simpl in *; [lia| |lia]. etransitivity; [apply Hh | exact Hc].
Qed.

Lemma decr_eat ty : decr (eat ty).
Proof.
  intros st. unfold eat, bindM, getM. simpl. case_decide as Hty; [|done].
  destruct (GetNextToken (tokenizer st)) as [t tz] eqn:Hn. simpl.
  destruct (decide (type (currentToken st) = TokenType.EOF)) as [He|He].
  - unfold measure. pose proof (next_measure (tokenizer st)) as Hm.
    rewrite Hn in Hm. simpl in *. case_decide; lia.
  - pose proof (measure_next st t tz Hn He). lia.
Qed.

(** A successful [eat] of a token type other than [EOF] uses up a token. *)
Lemma eat_Ok_lt ty st u st' :
  eat ty st = (Ok u, st') -> ty <> TokenType.EOF -> measure st' < measure st.
Proof.
  unfold eat, bindM, getM. simpl. case_decide as Hty; [|done].
  destruct (GetNextToken (tokenizer st)) as [t tz] eqn:Hn. intros [= _ <-] He.
  apply measure_next; [exact Hn | by rewrite <-Hty].
Qed.

Create HintDb semdecr.
#[local] Hint Resolve decr_ret decr_gets decr_get decr_throw decr_out_of_fuel decr_eat : semdecr.

Ltac solve_decr :=
  repeat first
    [ solve [eauto with semdecr]
    | apply decr_catch; [| intros ?]
    | apply decr_bind; [| intros ?]
    | case_match ].

Lemma decr_classCall_refs f refs : decr (classCall_refs f refs).
Proof. revert refs. induction f; intros refs; simpl; solve_decr. Qed.

#[local] Hint Resolve decr_classCall_refs : semdecr.

Lemma decr_family f :
  decr (factor f) /\ decr (expr f) /\ (forall l n, decr (expr_loop f l n)) /\
  decr (funcCall f) /\ (forall ps, decr (funcCall_args f ps)) /\ decr (classCall f).
Proof.
  induction f as [|f (IH1 & IH2 & IH3 & IH4 & IH5 & IH6)]; simpl;
    split_and!; intros; unfold cur, curChar, literal, variable, new_by_name; solve_decr.
Qed.

Lemma decr_expr f : decr (expr f).
Proof. apply decr_family. Qed.

Lemma decr_funcCall f : decr (funcCall f).
Proof. apply decr_family. Qed.

Lemma decr_classCall f : decr (classCall f).
Proof. apply decr_family. Qed.

Lemma decr_factor f : decr (factor f).
Proof. apply decr_family. Qed.

Lemma decr_expr_loop f l n : decr (expr_loop f l n).
Proof. apply decr_family. Qed.

Lemma decr_funcCall_args f ps : decr (funcCall_args f ps).
Proof. apply decr_family. Qed.

#[local] Hint Resolve decr_expr decr_funcCall decr_classCall decr_factor decr_expr_loop
  decr_funcCall_args : semdecr.

Lemma runs_ret {A} (a : A) m : runs (retM a) m.
Proof. by intros st. Qed.

Lemma runs_gets {A} (f : SemanticStack T -> A) m : runs (getsM f) m.
Proof. by intros st. Qed.

Lemma runs_throw {A} e m : runs (@throwM _ _ A e) m.
Proof. by intros st. Qed.

Lemma runs_eat ty m : runs (eat ty) m.
Proof.
  intros st _. unfold eat, bindM, getM. simpl. case_decide; [|done].
  by destruct (GetNextToken _).
Qed.

Lemma runs_bind {A B} (c : SM A) (k : A -> SM B) m :
  decr c -> runs c m -> (forall a, runs (k a) m) -> runs (bindM c k) m.
Proof.
  intros Hd Hc Hk st Hm. unfold bindM. specialize (Hd st). specialize (Hc st Hm).
  destruct (c st) as [[a| |] s1]; simpl in *; [|done|done]. apply Hk. lia.
Qed.

Lemma runs_catch {A} (c : SM A) (h : string -> SM A) m :
  decr c -> runs c m -> (forall e, runs (h e) m) -> runs (catchM c h) m.
Proof.
  intros Hd Hc Hh st Hm. unfold catchM. specialize (Hd st). specialize (Hc st Hm).
  destruct (c st) as [[| e |] s1]; simpl in *; [done| |done]. apply Hh. lia.
Qed.

(** After [eat] of a type other than [EOF], one token fewer is left. *)
Lemma runs_eat_bind {A} ty (k : SM A) m :
  ty <> TokenType.EOF -> (forall m', S m' <= m -> runs k m') -> runs (eat ty;; k) m.
Proof.
  intros He Hk st Hm. unfold bindM.
  destruct (eat ty st) as [[u| |] s1] eqn:E; simpl; [| |by pose proof (runs_eat ty m st Hm); rewrite E in *].
  - pose proof (eat_Ok_lt _ _ _ _ E He). apply (Hk (measure s1)); lia.
  - done.
Qed.

(** Follow the structure of a computation; [ih] closes the recursive
    calls. *)
Ltac solve_runs ih :=
  repeat first
    [ apply runs_ret | apply runs_gets | apply runs_throw | apply runs_eat
    | solve [ih]
    | apply runs_eat_bind; [ first [ discriminate | assumption
                                   | intros Hx; rewrite Hx in *; discriminate ]
                           | intros ?m' ?Hm' ]
    | apply runs_catch; [ solve [solve_decr] | | intros ? ]
    | apply runs_bind; [ solve [solve_decr] | | intros ? ]
    | case_match ].

Lemma runs_classCall_refs f refs m : m + 1 <= f -> runs (classCall_refs f refs) m.
Proof.
  revert refs m. induction f as [|f IH]; intros refs m Hf; [lia|]. simpl.
  unfold cur, curChar. solve_runs ltac:(apply IH; lia).
Qed.

(** Each method finishes when the fuel exceeds four times the tokens
    left, by a margin that covers the calls it makes before it eats a
    token. *)
Lemma runs_family f :
  (forall m, 4 * m + 3 <= f -> runs (factor f) m) /\
  (forall m, 4 * m + 4 <= f -> runs (expr f) m) /\
  (forall l n m, 4 * m + 3 <= f -> runs (expr_loop f l n) m) /\
  (forall m, 4 * m + 2 <= f -> runs (funcCall f) m) /\
  (forall ps m, 4 * m + 1 <= f -> runs (funcCall_args f ps) m) /\
  (forall m, 4 * m + 2 <= f -> runs (classCall f) m).
Proof.
  induction f as [|f (IH1 & IH2 & IH3 & IH4 & IH5 & IH6)];
    [split_and!; intros; lia|].
  split_and!; intros; simpl; unfold cur, curChar, literal, variable, new_by_name;
    solve_runs ltac:(first [ eapply IH1 | eapply IH2 | eapply IH3 | eapply IH4
                           | eapply IH5 | eapply IH6 | eapply runs_classCall_refs ]; lia).
Qed.

Lemma runs_expr f m : 4 * m + 4 <= f -> runs (expr f) m.
Proof. apply runs_family. Qed.

Lemma runs_funcCall f m : 4 * m + 2 <= f -> runs (funcCall f) m.
Proof. apply runs_family. Qed.

Lemma runs_classCall f m : 4 * m + 2 <= f -> runs (classCall f) m.
Proof. apply runs_family. Qed.

Lemma decr_assignment f : decr (assignment f).
Proof. destruct f; simpl; unfold cur, curChar, variable; solve_decr. Qed.

Lemma runs_assignment f m : 4 * m + 5 <= f -> runs (assignment f) m.
Proof.
  intros Hf. destruct f as [|f]; [lia|]. simpl. unfold cur, curChar, variable.
  solve_runs ltac:(first [eapply runs_expr | eapply runs_classCall]; lia).
Qed.

Lemma decr_statement_skip f : decr (statement_skip f).
Proof. induction f; simpl; unfold cur; solve_decr. Qed.

#[local] Hint Resolve decr_assignment decr_statement_skip : semdecr.

Lemma runs_statement_skip f m : m + 1 <= f -> runs (statement_skip f) m.
Proof.
  revert m. induction f as [|f IH]; intros m Hf; [lia|]. simpl. unfold cur.
  solve_runs ltac:(apply IH; lia).
Qed.

Lemma runs_statement f m : 4 * m + 6 <= f -> runs (statement f) m.
Proof.
  intros Hf. destruct f as [|f]; [lia|]. simpl. unfold curChar.
  solve_runs ltac:(first [ eapply runs_statement_skip | eapply runs_funcCall
                         | eapply runs_classCall | eapply runs_assignment ]; lia).
Qed.
End Measure.

(** ** Behaviour of the parser *)

Section Behaviour.
Context {D T : Type} `{!SemTokenizer D T} `{!TokenMeasure D T}.

Lemma nothrow_expr f : nothrow (expr (D:=D) (T:=T) f).
Proof.
  destruct f; simpl; [apply nothrow_out_of_fuel|].
  apply nothrow_catch; intros. unfold cur. solve_nothrow.
Qed.

(** With enough fuel [expr] returns a node. *)
Lemma expr_Ok f st : 4 * measure st + 4 <= f -> exists r st', expr f st = (Ok r, st').
Proof.
  intros Hf. pose proof (runs_expr f (measure st) Hf st (le_n _)) as Hr.
  pose proof (nothrow_expr f st) as Hn.
  destruct (expr f st) as [[r|e|] st']; [eauto | by destruct (Hn e st') | done].
Qed.

Lemma eat_next ty st t tz :
  ty = type (currentToken st) -> GetNextToken (tokenizer st) = (t, tz) ->
  eat ty st = (Ok tt, mkStack tz t).
Proof. intros -> Hn. unfold eat, bindM, getM. simpl. rewrite decide_True by done. by rewrite Hn. Qed.

Lemma eat_other ty st : ty <> type (currentToken st) -> eat ty st = (Throw "Unexpect Token", st).
Proof. intros Hn. unfold eat, bindM, getM. simpl. by rewrite decide_False by done. Qed.

(** [inv_ok] through the tests of the code. *)
Ltac inv_ok_cases H :=
  repeat (inv_ok H; try match type of H with
                        | context [if decide ?P then _ else _] => destruct (decide P)
                        end).

Lemma funcCall_kind f st r st' :
  funcCall (D:=D) f st = (Ok r, st') -> is_statement_node (value r) = true.
Proof. destruct f; simpl; intros H; [by apply out_of_fuel_not_Ok in H|]. by inv_ok_cases H. Qed.

Lemma classCall_kind f st r st' :
  classCall (D:=D) f st = (Ok r, st') -> is_statement_node (value r) = true.
Proof. destruct f; simpl; intros H; [by apply out_of_fuel_not_Ok in H|]. by inv_ok_cases H. Qed.

Lemma assignment_kind f st r st' :
  assignment (D:=D) f st = (Ok r, st') -> is_statement_node (value r) = true.
Proof. destruct f; simpl; intros H; [by apply out_of_fuel_not_Ok in H|]. by inv_ok_cases H. Qed.

(** (C12) The type of [statement()]: every node it returns is a
    function call, a method call, a property access or an assignment,
    the types [getFuncAtPosition] casts it to.  The skipping loop stops
    only at an identifier, which [statement] dispatches to [funcCall],
    [classCall] or [assignment]. *)
Theorem statement_node_kinds f st r st' :
  statement (D:=D) f st = (Ok (Some r), st') -> is_statement_node (value r) = true.
Proof.
  destruct f; simpl; intros H; [by apply out_of_fuel_not_Ok in H|].
  inv_ok H. destruct a; [|by inv_ok H]. unfold curChar in H. inv_ok H.
  repeat case_decide; inv_ok H; injection H as <-;
    first [ by eapply funcCall_kind | by eapply classCall_kind | by eapply assignment_kind ].
Qed.

(** (C21) Termination of [statement()] against any tokenizer whose work
    is bounded: from a state with [m] tokens left, [statement] returns
    (a node, [undefined] or an exception) within [4 m + 6] units of
    fuel.  Every recursive call and every round of a loop of the parser
    comes after an [eat] that uses up a token. *)
Theorem statement_terminates f st :
  4 * measure st + 6 <= f -> fst (statement f st) <> OutOfFuel.
Proof. intros Hf. exact (runs_statement f (measure st) Hf st (le_n _)). Qed.

(** (C22) An assignment with [:=] is always flagged as wrong:
    [assignment()] eats the [:=] and then requires an [=] all the same
    (lines 268-276).  On [x := e], [statement] returns an [IAssign]
    whose [errors] is [true], whatever [e]. *)
Theorem assignment_colon_equal_flagged f st t1 tz1 t2 tz2 :
  type (currentToken st) = TokenType.id ->
  currChar (tokenizer st) <> "(" -> currChar (tokenizer st) <> "." ->
  GetNextToken (tokenizer st) = (t1, tz1) -> type t1 = TokenType.aassign ->
  GetNextToken tz1 = (t2, tz2) -> type t2 <> TokenType.equal ->
  4 * measure st + 6 <= f ->
  exists r st', statement f st =
    (Ok (Some (mkResult true
       (SAssign (mkResult false (SVariable (content (currentToken st)) (currentToken st)
                                   (token_range (currentToken st))))
          t1 r (mkOffrange (start t1) (or_end (offrange (value r))))))), st').
Proof.
  intros Hid Hc1 Hc2 Hn1 Ht1 Hn2 Ht2 Hf.
  destruct f as [|[|f]]; [lia|lia|].
  pose proof (measure_next st t1 tz1 Hn1 ltac:(congruence)) as M1.
  pose proof (measure_next (mkStack tz1 t1) t2 tz2 Hn2 ltac:(simpl; congruence)) as M2.
  destruct (expr_Ok f (mkStack tz2 t2)) as (r & st' & Hr); [lia|].
  exists r, st'.
  unfold statement, assignment. simpl statement_skip.
  unfold variable, cur, curChar, bindM, getsM, retM. cbn beta iota.
  rewrite decide_True by done. rewrite !decide_False by done.
  rewrite (eat_next _ _ _ _ (eq_sym Hid) Hn1). simpl.
  rewrite decide_True by done.
  rewrite (eat_next _ (mkStack tz1 t1) _ _ (eq_sym Ht1) Hn2).
  unfold catchM. rewrite eat_other by (simpl; congruence). simpl. rewrite Hr. reflexivity.
Qed.

(** (C23) [new C] is never read: the branch for a class given by its
    name tests the type of [token], the token [new] itself captured
    before it was eaten (lines 158-186).  When no [(] or [.] follows
    the name, [factor] returns an erroneous [__New] call on an [unknown]
    token and leaves the name [C] unread, whatever it is. *)
Theorem new_class_name_unread f st t1 tz1 :
  type (currentToken st) = TokenType.new ->
  GetNextToken (tokenizer st) = (t1, tz1) ->
  currChar tz1 <> "(" -> currChar tz1 <> "." ->
  factor (S f) st =
    (Ok (mkResult true
           (SMethodCall "__New" []
              (createToken TokenType.unknown "" (start (currentToken st)) (end_ (currentToken st)))
              [] (token_range (currentToken st)))),
     mkStack tz1 t1).
Proof.
  intros Hnew Hn Hc1 Hc2. simpl. unfold cur, curChar, new_by_name, bindM, getsM, retM.
  cbn beta iota. rewrite Hnew. rewrite (eat_next _ _ _ _ (eq_sym Hnew) Hn). simpl.
  rewrite !decide_False by done. reflexivity.
Qed.

(** (C24) The node of a property access [a.b] is named after the token
    that follows [b]: [classCall()] eats the property and then reads
    [this.currentToken] for the name and token of the [PropertCall]
    (lines 346-353).  Only the end offset of [b] is kept. *)
Theorem property_name_from_next_token f st td tz1 tb tz2 tx tz3 :
  type (currentToken st) = TokenType.id ->
  GetNextToken (tokenizer st) = (td, tz1) -> type td = TokenType.dot ->
  GetNextToken tz1 = (tb, tz2) -> type tb = TokenType.id ->
  currChar tz2 <> "." -> currChar tz2 <> "(" ->
  GetNextToken tz2 = (tx, tz3) ->
  classCall (S (S f)) st =
    (Ok (mkResult false
           (SPropertCall (content tx) tx [currentToken st]
              (mkOffrange (start (currentToken st)) (end_ tb)))),
     mkStack tz3 tx).
Proof.
  intros Hid Hn1 Hd Hn2 Hb Hc1 Hc2 Hn3. simpl. unfold cur, curChar, bindM, getsM, retM.
  cbn beta iota.
  rewrite (eat_next _ _ _ _ (eq_sym Hid) Hn1), (eat_next _ (mkStack tz1 td) _ _ (eq_sym Hd) Hn2).
  simpl. rewrite (bool_decide_eq_false_2 (currChar tz2 = ".") Hc1), andb_false_r. simpl.
  rewrite decide_True by done. rewrite decide_False by done.
  rewrite (eat_next _ (mkStack tz2 tb) _ _ (eq_sym Hb) Hn3). reflexivity.
Qed.
(** (C31) The operator loop of [expr] (lines 220-245) builds every node
    from [left], the first factor, not from the node built so far, and
    marks it as free of errors: whatever the loop returns is the node it
    was given, or a [BinOp] whose left operand is the first factor and
    whose [errors] is [false], whatever the errors of its right operand.
    An unfinished call on the right of an operator is thus hidden from
    [getUnfinishedFunc], which reads [errors]. *)
Theorem expr_loop_left_first_factor f left node st r st' :
  expr_loop (D:=D) f left node st = (Ok r, st') ->
  r = node \/ exists tok right o, r = mkResult false (SBinOp left tok right o).
Proof.
  revert node st. induction f as [|f IH]; intros node st H; simpl in H;
    [by apply out_of_fuel_not_Ok in H|].
  inv_ok H. destruct (_ || _ || _); inv_ok H; [|by left].
  destruct (IH _ _ H) as [->|Hr]; [right; eauto | by right].
Qed.

End Behaviour.

(** ** Lines parsed with the list tokenizer *)

(** A token of the type [t] and text [c] at the offset [s]. *)
Definition tok (t : TokenType.type) (c : string) (s : Z) : Token :=
  createToken t c s (s + Z.of_nat (String.length c)).

(** [x := 1] *)
Definition assign_src : list (Token * string) * Z :=
  ([(tok TokenType.id "x" 0, " "); (tok TokenType.aassign ":=" 2, " ");
    (tok TokenType.number "1" 5, "")], 6%Z).

(** [new C] *)
Definition new_src : list (Token * string) * Z :=
  ([(tok TokenType.new "new" 0, " "); (tok TokenType.id "C" 4, "")], 5%Z).

(** [a.b + c] *)
Definition prop_src : list (Token * string) * Z :=
  ([(tok TokenType.id "a" 0, ""); (tok TokenType.dot "." 1, ""); (tok TokenType.id "b" 2, " ");
    (tok TokenType.plus "+" 4, " "); (tok TokenType.id "c" 6, "")], 7%Z).

Definition stack_of (d : list (Token * string) * Z) : SemanticStack ListTokenizer :=
  semantic_stack d.

(** The tokenizer after [n] more tokens. *)
Definition tz_after (n : nat) (st : SemanticStack ListTokenizer) : ListTokenizer :=
  Nat.iter n (fun tz => snd (GetNextToken tz)) (tokenizer st).

Definition tok_after (n : nat) (st : SemanticStack ListTokenizer) : Token :=
  fst (GetNextToken (tz_after n st)).

Lemma next_after n st : GetNextToken (tz_after n st) = (tok_after n st, tz_after (S n) st).
Proof. apply surjective_pairing. Qed.

Ltac next_tok :=
  match goal with |- GetNextToken _ = (tok_after ?n ?st, _) => exact (next_after n st) end.

Lemma statement_terminates_witness :
  4 * measure (stack_of assign_src) + 6 <= 30 /\
  fst (statement 30 (stack_of assign_src)) <> OutOfFuel.
Proof. split; [decide_closed|]. apply statement_terminates. decide_closed. Defined.

Lemma assignment_colon_equal_flagged_witness :
  exists r, fst (statement 30 (stack_of assign_src)) = Ok (Some r) /\ errors r = true.
Proof.
  destruct (assignment_colon_equal_flagged 30 (stack_of assign_src)
              (tok_after 0 (stack_of assign_src)) (tz_after 1 (stack_of assign_src))
              (tok_after 1 (stack_of assign_src)) (tz_after 2 (stack_of assign_src)))
    as (r & st' & E);
    [decide_closed | decide_closed | decide_closed | next_tok | decide_closed
    | next_tok | decide_closed | decide_closed | ].
  rewrite E. eexists. split; reflexivity.
Defined.

Lemma new_class_name_unread_witness :
  exists r st', factor 5 (stack_of new_src) = (Ok r, st') /\ errors r = true /\
    currentToken st' = tok TokenType.id "C" 4.
Proof.
  rewrite (new_class_name_unread 4 (stack_of new_src)
             (tok_after 0 (stack_of new_src)) (tz_after 1 (stack_of new_src)));
    [| decide_closed | next_tok | decide_closed | decide_closed].
  do 2 eexists. split; [reflexivity|]. split; vm_compute; reflexivity.
Defined.

Lemma property_name_from_next_token_witness :
  exists r st', classCall 5 (stack_of prop_src) = (Ok r, st') /\ node_name (value r) = "+".
Proof.
  rewrite (property_name_from_next_token 3 (stack_of prop_src)
             (tok_after 0 (stack_of prop_src)) (tz_after 1 (stack_of prop_src))
             (tok_after 1 (stack_of prop_src)) (tz_after 2 (stack_of prop_src))
             (tok_after 2 (stack_of prop_src)) (tz_after 3 (stack_of prop_src)));
    [| decide_closed | next_tok | decide_closed | next_tok | decide_closed
     | decide_closed | decide_closed | next_tok].
  do 2 eexists. split; [reflexivity|]. vm_compute. reflexivity.
Defined.

Lemma statement_node_kinds_witness :
  match statement 20 (stack_of assign_src) with
  | (Ok (Some r), _) => is_statement_node (value r) = true
  | _ => False
  end.
Proof.
  destruct (statement 20 (stack_of assign_src)) as [[[r|]|e|] st'] eqn:E;
    try (vm_compute in E; discriminate).
  exact (statement_node_kinds 20 (stack_of assign_src) r st' E).
Defined.

(** Witness of (C31): [a + b], the loop started after the factor [a]. *)
Lemma expr_loop_left_first_factor_witness :
  let a := mkResult false (SVariable "a" (tok TokenType.id "a" 0) (mkOffrange 0 1)) in
  exists r st', expr_loop 10 a a (stack_of ([(tok TokenType.plus "+" 2, " ");
                                             (tok TokenType.id "b" 4, "")], 5%Z)) = (Ok r, st') /\
    (r = a \/ exists tok right o, r = mkResult false (SBinOp a tok right o)).
Proof.
  cbv zeta.
  match goal with |- context [expr_loop 10 ?l ?n ?s] =>
    destruct (expr_loop 10 l n s) as [[r| |] st'] eqn:E; [| vm_compute in E; discriminate..];
    exists r, st'; split; [reflexivity | exact (expr_loop_left_first_factor 10 l n s r st' E)] end.
Defined.
