(* ===== verification/TreeQueries.v ===== *)
(** * TreeQueries: the text and signature queries of the Tree Manager

    The methods of [TreeManager] in [src/server/src/services/treeManager.ts]
    that compute on the text of one line and on the nodes of the
    [SemanticStack]: [getChar], [getWordAtPosition] and
    [getLexemsAtPosition] (the dotted words before the cursor),
    [isLessPosition] and [getCurrentScoop], [arrayFilter],
    [getFuncPrototype], [findActiveSignature], [convertBuiltin2Signature],
    [getUnfinishedFunc] and the part of [getFuncAtPosition] that picks
    the call whose signature is shown ([signature_target]; the rest of
    [getFuncAtPosition] is in [Queries]).  The tree of scopes and
    symbols the analyzer builds is [Scoop].

    A JavaScript string is the list of its UTF-16 code units ([jstring]):
    [context[pos]] reads one code unit, and the class of word characters
    of [getWordAtPosition] includes the code units [一-龥].  The
    text of a line comes from a function [getLine] (the method of the
    same name, defined on the document cache in [DocCache]); [undefined]
    is [None], and the empty string, which the callers also test with
    [!context], is [Some []]. *)

From S2P Require Import Prelude Tokens LegacyTokens SemanticStack.
Import SemanticStack.

Local Open Scope Z_scope.

(** ** JavaScript strings as code units *)

Definition jstring : Set := list Z.

(** [getChar(context, pos)] (lines 903-910): [context[pos]], or [''] when
    [pos] is outside the string. *)
Definition getChar (context : jstring) (pos : Z) : option Z :=
  if (pos <? 0)%Z then None else context !! Z.to_nat pos.

(** The index [String.prototype.slice] takes for an argument [i]. *)
Definition js_index (len i : Z) : Z :=
  if (i <? 0)%Z then Z.max 0 (len + i) else Z.min i len.

(** [s.slice(b, e)]. *)
Definition js_slice {A} (s : list A) (b e : Z) : list A :=
  let len := Z.of_nat (length s) in
  let b' := js_index len b in
  let e' := js_index len e in
  take (Z.to_nat (e' - b')) (drop (Z.to_nat b') s).

(** The white space and line terminators that [trimRight] removes. *)
Definition is_js_space (c : Z) : bool :=
  bool_decide (c ∈ [9; 10; 11; 12; 13; 32; 160; 5760; 8232; 8233; 8239; 8287; 12288; 65279]%Z)
  || ((8192 <=? c) && (c <=? 8202))%Z.

Fixpoint drop_while {A} (p : A -> bool) (l : list A) : list A :=
  match l with
  | x :: r => if p x then drop_while p r else l
  | [] => []
  end.

(** [s.trimRight()]. *)
Definition trimRight (s : jstring) : jstring :=
  reverse (drop_while is_js_space (reverse s)).

(** ** Words at a position *)

(** [Range] of [vscode-languageserver]. *)
Record Range : Set := mkRange { r_start : Position; r_end : Position }.

(** [Word] of [regParser/types]: a name and its range. *)
Record Word : Set := mkWord { word_name : jstring; word_range : Range }.

(** [/[a-zA-Z0-9一-龥#_@\$\?]+/.test(c)] on one code unit. *)
Definition is_word_char (c : Z) : bool :=
  (((65 <=? c) && (c <=? 90)) || ((97 <=? c) && (c <=? 122)) || ((48 <=? c) && (c <=? 57))
   || ((19968 <=? c) && (c <=? 40869)))%Z || bool_decide (c ∈ [35; 95; 64; 36; 63]%Z).

(** The test of the regular expression on [getChar]: [''] does not match. *)
Definition reg_test (c : option Z) : bool :=
  match c with Some c => is_word_char c | None => false end.

(** The scan of the start (lines 880-885) from [pos = k]: each round
    tests the code unit before [pos]; at [0] it reads [getChar(context, -1)],
    which is [''], and stops. *)
Fixpoint scan_start (context : jstring) (k : nat) : nat :=
  match k with
  | O => O
  | S k' => if reg_test (getChar context (Z.of_nat k')) then scan_start context k' else k
  end.

Definition word_start (context : jstring) (character : Z) : Z :=
  if (character <? 0)%Z then character else Z.of_nat (scan_start context (Z.to_nat character)).

(** The scan of the end (lines 891-896) from [pos]: [rest] is the text
    from [pos] on, so [getChar(context, pos)] is its head; past the end
    it is [''] and the loop stops. *)
Fixpoint scan_end (pos : Z) (rest : jstring) : Z :=
  match rest with
  | c :: r => if is_word_char c then scan_end (pos + 1) r else pos
  | [] => pos
  end.

Definition word_end (context : jstring) (character : Z) : Z :=
  if (character <? 0)%Z then character
  else scan_end character (drop (Z.to_nat character) context).

(** [getWordAtPosition(position)] (lines 866-901). *)
Definition getWordAtPosition (getLine : Z -> option jstring) (position : Position) : Word :=
  match getLine (line position) with
  | None | Some [] => mkWord [] (mkRange position position)
  | Some context =>
      let s := word_start context (character position) in
      let e := word_end context (character position) in
      mkWord (js_slice context s e)
        (mkRange (mkPosition (line position) s) (mkPosition (line position) e))
  end.

(** The loop of [getLexemsAtPosition] over the dots before the word
    (lines 585-590); [None] when the fuel runs out. *)
Fixpoint lexems_loop (fuel : nat) (getLine : Z -> option jstring) (context : jstring)
    (ln temppos : Z) (perfixs : list jstring) : option (list jstring) :=
  match fuel with
  | O => None
  | S f =>
      if decide (getChar context temppos = Some 46%Z) then
        let word := getWordAtPosition getLine (mkPosition ln (temppos - 1)) in
        lexems_loop f getLine context ln (character (r_start (word_range word)) - 1)
          (perfixs ++ [word_name word])
      else Some perfixs
  end.

(** [getLexemsAtPosition(position)] (lines 575-592): the word at the
    position and the words before it joined by dots, innermost first.
    The fuel is the length of the line, which is enough (see
    [lexems_loop_finishes]). *)
Definition getLexemsAtPosition (getLine : Z -> option jstring) (position : Position)
    : option (option (list jstring)) :=
  match getLine (line position) with
  | None | Some [] => None
  | Some context =>
      let suffix := getWordAtPosition getLine position in
      let temppos := if decide (word_name suffix = []) then character position - 1
                     else character (r_start (word_range suffix)) - 1 in
      Some (option_map (fun ps => word_name suffix :: ps)
              (lexems_loop (S (Z.to_nat (temppos + 1))) getLine context (line position) temppos []))
  end.

(** ** Scopes *)

(** [isLessPosition(pos1, pos2)] (lines 524-529), as written: the second
    test compares [pos1.character] with itself. *)
Definition isLessPosition (pos1 pos2 : Position) : bool :=
  if (line pos1 <? line pos2)%Z then true
  else if (line pos1 =? line pos2)%Z && (character pos1 <? character pos1)%Z then true
  else false.

(** The scopes and symbols of the symbol table ([IScoop], [ISymbol] and
    the symbol classes of [newtry/analyzer], which are not among the
    sources).  A scope has a name and lists its symbols; a method
    ([AHKMethodSymbol]) and a class ([AHKObjectSymbol]) are scopes of
    their own.  Each symbol keeps what the Tree Manager reads of it: its
    name, the uri and range of its definition, for a method the text of
    [toString()] and its required and optional parameters, for a
    variable whether its tag is [VarKind.property]. *)
Inductive Scoop : Set :=
| MkScoop (scoop_name : string) (symbols : list Sym)
with Sym : Set :=
| MethodSym (name uri : string) (range : Range) (label : string)
    (requiredParameters optionalParameters : list string) (scoop : Scoop)
| ObjectSym (name uri : string) (range : Range) (scoop : Scoop)
| VariableSym (name uri : string) (range : Range) (is_property : bool)
| HotkeySym (name : string)
| HotStringSym (name : string)
| OtherSym (name : string).

Definition scoop_name (s : Scoop) : string := match s with MkScoop n _ => n end.

(** [scoop.allSymbols()]. *)
Definition allSymbols (s : Scoop) : list Sym := match s with MkScoop _ syms => syms end.

Definition sym_name (s : Sym) : string :=
  match s with
  | MethodSym n _ _ _ _ _ _ | ObjectSym n _ _ _ | VariableSym n _ _ _
  | HotkeySym n | HotStringSym n | OtherSym n => n
  end.

(** [symbol.allSymbols()] of a method or a class. *)
Definition sym_allSymbols (s : Sym) : list Sym :=
  match s with
  | MethodSym _ _ _ _ _ _ sc | ObjectSym _ _ _ sc => allSymbols sc
  | _ => []
  end.

(** [sym instanceof AHKObjectSymbol]. *)
Definition is_object (s : Sym) : bool := if s is ObjectSym _ _ _ _ then true else false.

(** [getCurrentScoop(pos, table)] (lines 505-518): the first method or
    class whose range holds the position, searched again inside it. *)
Fixpoint getCurrentScoop (pos : Position) (table : Scoop) : Scoop :=
  match table with
  | MkScoop _ syms =>
      (fix go (syms : list Sym) : Scoop :=
         match syms with
         | [] => table
         | MethodSym _ _ r _ _ _ s :: rest | ObjectSym _ _ r s :: rest =>
             if isLessPosition (r_start r) pos && isLessPosition pos (r_end r)
             then getCurrentScoop pos s else go rest
         | _ :: rest => go rest
         end) syms
  end.

(** ** Built-in signatures *)

(** [arrayFilter(list, callback)] (lines 918-932): the first block of
    consecutive items that satisfy the callback. *)
Fixpoint arrayFilter_loop {A} (callback : A -> bool) (flag : bool) (items : list A) (l : list A)
    : list A :=
  match l with
  | [] => items
  | item :: rest =>
      if callback item then arrayFilter_loop callback true (items ++ [item]) rest
      else if flag then items
      else arrayFilter_loop callback flag items rest
  end.

Definition arrayFilter {A} (l : list A) (callback : A -> bool) : list A :=
  arrayFilter_loop callback false [] l.

(** A parameter of a function node or of a built-in ([IFuncNode],
    [BuiltinFuncNode] of [utilities/constants]). *)
Record FuncParam : Set := mkFuncParam {
  fp_name : string;
  isOptional : bool;
  defaultVal : option string
}.

Record FuncSig : Set := mkFuncSig { fs_name : string; fs_params : list FuncParam }.

(** The text [getFuncPrototype] appends for one parameter; [if
    (param.defaultVal)] is false for an empty default. *)
Definition param_text (p : FuncParam) : string :=
  fp_name p +:+ (if isOptional p then "?" else "") +:+
  match defaultVal p with
  | Some d => if decide (d = "") then "" else " := " +:+ d
  | None => ""
  end.

(** The callback of [symbol.params.map] in [getFuncPrototype] (lines
    416-421): it appends to [result] and adds [', '] after every
    parameter but the last ([array.length-1 !== index]). *)
Fixpoint proto_params (n index : nat) (result : string) (ps : list FuncParam) : string :=
  match ps with
  | [] => result
  | param :: rest =>
      proto_params n (S index)
        (result +:+ param_text param +:+ (if decide ((n - 1)%nat <> index) then ", " else ""))
        rest
  end.

(** [getFuncPrototype(symbol, cmdFormat)] (lines 412-423). *)
Definition getFuncPrototype (symbol : FuncSig) (cmdFormat : bool) : string :=
  let paramStartSym := if cmdFormat then ", " else "(" in
  let paramEndSym := if cmdFormat then "" else ")" in
  let result := fs_name symbol +:+ paramStartSym in
  proto_params (length (fs_params symbol)) 0 result (fs_params symbol) +:+ paramEndSym.

(** [findActiveSignature(symbols, paramIndex)] (lines 841-848). *)
Definition findActiveSignature (symbols : list FuncSig) (paramIndex : nat) : nat :=
  default 0%nat (fst <$> list_find (fun s => (paramIndex <= length (fs_params s))%nat) symbols).

(** The label [convertBuiltin2Signature] gives a parameter (line 824):
    a default value is shown after [' = '], where [getFuncPrototype]
    writes [' := ']. *)
Definition builtin_param_label (p : FuncParam) : string :=
  fp_name p +:+ (if isOptional p then "?" else "") +:+
  match defaultVal p with
  | Some d => if decide (d = "") then "" else " = " +:+ d
  | None => ""
  end.

(** [SignatureInformation] of [vscode-languageserver]: the label and the
    labels of the parameters. *)
Record SignatureInformation : Set := mkSignatureInformation {
  si_label : string;
  si_parameters : list string
}.

(** [convertBuiltin2Signature(symbols, iscmd)] (lines 818-833). *)
Definition convertBuiltin2Signature (symbols : list FuncSig) (iscmd : bool)
    : option (list SignatureInformation) :=
  match symbols with
  | [] => None
  | _ => Some (map (fun sym => mkSignatureInformation (getFuncPrototype sym iscmd)
                                 (map builtin_param_label (fs_params sym))) symbols)
  end.

(** ** The call of a signature help *)

Import Legacy.

(** [getUnfinishedFunc(node)] (lines 799-816) on the nodes of
    [regParser/asttypes]: the deepest call whose last argument has
    errors.  [MethodCall] and [CommandCall] extend [FunctionCall], so
    all three are calls here. *)
Definition is_call (n : SNode) : bool :=
  match n with
  | SFunctionCall _ _ _ _ | SMethodCall _ _ _ _ _ | SCommandCall _ _ _ _ => true
  | _ => false
  end.

(** [node instanceof CommandCall]. *)
Definition is_command (n : SNode) : bool :=
  match n with SCommandCall _ _ _ _ => true | _ => false end.

Fixpoint getUnfinishedFunc (node : SNode) : option SNode :=
  let fix go (ps : list NodeResult) : option SNode :=
    match ps with
    | [] => None
    | [mkResult e v] =>
        if negb e then None
        else if is_call v then
          match getUnfinishedFunc v with
          | Some lastnode => Some lastnode
          | None => Some v
          end
        else Some node
    | _ :: r => go r
    end in
  match node with
  | SFunctionCall _ ps _ _ | SMethodCall _ ps _ _ _ | SCommandCall _ ps _ _ => go ps
  | _ => None
  end.

(** The walk down the right operands of [getFuncAtPosition] (lines
    721-727): [node = stmt.value.right] while [isExpr(node.value)]. *)
Fixpoint descend_right (n : NodeResult) : NodeResult :=
  match n with
  | mkResult _ (SBinOp _ _ r _) | mkResult _ (SAssign _ _ r _) => descend_right r
  | _ => n
  end.

(** What [getFuncAtPosition] looks up for a parsed statement (lines
    719-748): the name of the call, the words [searchNode] receives
    ([[funcName].concat(...perfixs.reverse())]), the active parameter
    ([null] for a call without arguments), the number of arguments and
    whether the call is a command.  A call without errors, a finished
    call, gives no signature unless it is a command (line 735: "CommandCall
    always no errors"). *)
Record SigTarget : Set := mkSigTarget {
  target_name : string;
  target_lexems : list string;
  activeParameter : option nat;
  target_count : nat;
  target_command : bool
}.

Definition signature_target (stmt : NodeResult) : option SigTarget :=
  let node := descend_right stmt in
  if is_call (value node) then
    if negb (errors node) && negb (is_command (value node)) then None
    else
      let lastnode := default (value node) (getUnfinishedFunc (value node)) in
      let perfixs := match lastnode with SMethodCall _ _ _ ref _ => map content ref | _ => [] end in
      let funcName := node_name lastnode in
      let n := length (node_params lastnode) in
      Some (mkSigTarget funcName (funcName :: reverse perfixs)
              (if decide (n = 0%nat) then None else Some (n - 1)%nat) n (is_command lastnode))
  else None.

(** ** Properties *)

Fixpoint take_while {A} (p : A -> bool) (l : list A) : list A :=
  match l with
  | x :: r => if p x then x :: take_while p r else []
  | [] => []
  end.

Lemma arrayFilter_loop_true {A} (p : A -> bool) items l :
  arrayFilter_loop p true items l = items ++ take_while p l.
Proof.
  revert items. induction l as [|x l IH]; intros items; simpl; [by rewrite app_nil_r|].
  destruct (p x); [by rewrite IH, <-app_assoc | by rewrite app_nil_r].
Qed.

Lemma arrayFilter_loop_false {A} (p : A -> bool) items l :
  arrayFilter_loop p false items l = items ++ take_while p (drop_while (fun x => negb (p x)) l).
Proof.
  revert items. induction l as [|x l IH]; intros items; simpl; [by rewrite app_nil_r|].
  destruct (p x) eqn:Hx; simpl; [|apply IH].
  rewrite Hx, arrayFilter_loop_true. by rewrite <-app_assoc.
Qed.

Lemma proto_params_join n index acc ps :
  (index + length ps)%nat = n ->
  proto_params n index acc ps = acc +:+ String.concat ", " (map param_text ps).
Proof.
  revert index acc. induction ps as [|p [|q r] IH]; intros index acc Hn; simpl in *.
  - by rewrite str_app_nil_r.
  - rewrite decide_False by lia. by rewrite !str_app_nil_r.
  - rewrite decide_True by lia. rewrite IH by (simpl; lia). simpl.
    by rewrite <-!str_app_assoc.
Qed.

(** The prototype is the name, the texts of the parameters joined by
    [', '], and the delimiters. *)
Lemma getFuncPrototype_join symbol cmdFormat :
  getFuncPrototype symbol cmdFormat =
    fs_name symbol +:+ (if cmdFormat then ", " else "(") +:+
    String.concat ", " (map param_text (fs_params symbol)) +:+ (if cmdFormat then "" else ")").
Proof.
  unfold getFuncPrototype. rewrite proto_params_join by lia. by rewrite <-!str_app_assoc.
Qed.

Lemma scan_start_le context k : (scan_start context k <= k)%nat.
Proof. induction k as [|k IH]; simpl; [lia|]. destruct (reg_test _); lia. Qed.

(** The word found at a position starts at or before it. *)
Lemma word_start_le getLine position :
  character (r_start (word_range (getWordAtPosition getLine position))) <= character position.
Proof.
  unfold getWordAtPosition. destruct (getLine (line position)) as [[|c l]|]; simpl; try lia.
  unfold word_start. destruct (character position <? 0) eqn:E; simpl; [lia|].
  apply Z.ltb_ge in E. pose proof (scan_start_le (c :: l) (Z.to_nat (character position))). lia.
Qed.

(** The loop over the dots moves left by at least two code units a
    round and stops before the start of the line. *)
Lemma lexems_loop_finishes fuel getLine context ln temppos perfixs :
  (Z.to_nat (temppos + 1) < fuel)%nat ->
  lexems_loop fuel getLine context ln temppos perfixs <> None.
Proof.
  revert temppos perfixs. induction fuel as [|f IH]; intros temppos perfixs Hf; [lia|]. simpl.
  case_decide as Hc; [|done]. apply IH.
  assert (Hpos : 0 <= temppos).
  { unfold getChar in Hc. destruct (temppos <? 0) eqn:E; [discriminate|]. by apply Z.ltb_ge in E. }
  pose proof (word_start_le getLine (mkPosition ln (temppos - 1))) as Hs. simpl in Hs. lia.
Qed.

(** [getLexemsAtPosition] gives the words before the cursor whenever the
    line is not empty. *)
Lemma getLexemsAtPosition_finishes getLine position context :
  getLine (line position) = Some context -> context <> [] ->
  exists ws, getLexemsAtPosition getLine position = Some (Some ws).
Proof.
  intros Hl Hne. unfold getLexemsAtPosition. rewrite Hl.
  destruct context as [|c l]; [done|].
  match goal with |- context [lexems_loop ?fu ?g ?ctx ?ln ?tp ?ps] =>
    destruct (lexems_loop fu g ctx ln tp ps) as [ps'|] eqn:E;
      [eauto | exfalso; exact (lexems_loop_finishes fu g ctx ln tp ps ltac:(lia) E)] end.
Qed.

(** Two positions on the same line are never ordered by
    [isLessPosition]. *)
Lemma isLessPosition_same_line p q : line p = line q -> isLessPosition p q = false.
Proof.
  intros Hl. unfold isLessPosition. rewrite Hl, Z.ltb_irrefl, Z.ltb_irrefl. by rewrite andb_false_r.
Qed.

(** A position on the first or the last line of a method is not inside
    it for [getCurrentScoop]. *)
Lemma getCurrentScoop_edge_line pos n u r s name :
  (line pos = line (r_start r) \/ line pos = line (r_end r)) ->
  getCurrentScoop pos (MkScoop name [ObjectSym n u r s]) = MkScoop name [ObjectSym n u r s].
Proof.
  intros [Hl|Hl]; simpl.
  - by rewrite (isLessPosition_same_line (r_start r) pos) by done.
  - rewrite (isLessPosition_same_line pos (r_end r)) by done. by rewrite andb_false_r.
Qed.

(** The code units the scan of the start steps over are word
    characters. *)
Lemma scan_start_word context k i :
  (scan_start context k <= i < k)%nat ->
  exists c, context !! i = Some c /\ is_word_char c = true.
Proof.
  induction k as [|k IH]; simpl; [lia|].
  destruct (reg_test (getChar context (Z.of_nat k))) eqn:E; [|lia].
  intros Hi. destruct (decide (i = k)) as [->|Hne]; [|apply IH; lia].
  unfold reg_test, getChar in E. rewrite Nat2Z.id in E.
  destruct (Z.of_nat k <? 0); [done|].
  destruct (context !! k) as [c|]; [eauto|done].
Qed.

(** The scan of the end steps over a prefix of word characters. *)
Lemma scan_end_word pos rest :
  exists n, scan_end pos rest = pos + Z.of_nat n /\
    forall j, (j < n)%nat -> exists c, rest !! j = Some c /\ is_word_char c = true.
Proof.
  revert pos. induction rest as [|c r IH]; intros pos; simpl.
  - exists O. split; [lia | intros; lia].
  - destruct (is_word_char c) eqn:Ec; [|exists O; split; [lia | intros; lia]].
    destruct (IH (pos + 1)) as (n & Hn & Hw). exists (S n). split; [lia|].
    intros [|j] Hj; simpl; [eauto|]. apply Hw. lia.
Qed.

(** An element of [s.slice(b, e)] for [0 <= b <= e] is an element of
    [s] at an index between [b] and [e]. *)
Lemma js_slice_lookup {A} (s : list A) b e i x :
  0 <= b -> b <= e -> js_slice s b e !! i = Some x ->
  exists j, b <= Z.of_nat j < e /\ s !! j = Some x.
Proof.
  intros Hb He. unfold js_slice, js_index.
  rewrite (proj2 (Z.ltb_ge b 0)), (proj2 (Z.ltb_ge e 0)) by lia.
  rewrite lookup_take_Some, lookup_drop. intros [Hx Hi].
  pose proof (lookup_lt_Some _ _ _ Hx) as Hl.
  exists (Z.to_nat (Z.min b (Z.of_nat (length s))) + i)%nat. split; [lia | done].
Qed.

(** (C33) The word [getWordAtPosition] finds holds the position, and is made
    of word characters only: the scans left and right of the position
    (lines 880-896) stop at the first code unit that is not one. *)
Theorem getWordAtPosition_contains getLine position :
  0 <= character position ->
  let w := getWordAtPosition getLine position in
  character (r_start (word_range w)) <= character position <= character (r_end (word_range w)) /\
  Forall (fun c => is_word_char c = true) (word_name w).
Proof.
  intros H0. cbv zeta. unfold getWordAtPosition.
  destruct (getLine (line position)) as [[|c0 l]|]; simpl;
    [split; [lia | constructor] | | split; [lia | constructor]].
  unfold word_start, word_end. rewrite (proj2 (Z.ltb_ge _ 0)) by lia.
  generalize (c0 :: l) as context. intros context. set (k := Z.to_nat (character position)).
  pose proof (scan_start_le context k) as Hs.
  destruct (scan_end_word (character position) (drop k context)) as (n & -> & Hw).
  split; [lia|]. apply Forall_lookup. intros i x Hx.
  apply js_slice_lookup in Hx as (j & Hj & Hx); [|lia..].
  destruct (decide (j < k)%nat) as [Hlt|Hge].
  - destruct (scan_start_word context k j) as (c & Hc & Hwc); [lia|]. cbv [jstring] in *. congruence.
  - destruct (Hw (j - k)%nat) as (c & Hc & Hwc); [lia|].
    cbv [jstring] in *. rewrite lookup_drop, (Nat.add_comm k), Nat.sub_add in Hc by lia.
    congruence.
Qed.

(** Witness of (C33): [foo.bar] with the cursor in [bar]. *)
Lemma getWordAtPosition_contains_witness :
  let getLine (n : Z) := if (n =? 0)%Z then Some [102; 111; 111; 46; 98; 97; 114] else None in
  0 <= character (mkPosition 0 5) /\
  word_name (getWordAtPosition getLine (mkPosition 0 5)) = [98; 97; 114] /\
  let w := getWordAtPosition getLine (mkPosition 0 5) in
  character (r_start (word_range w)) <= character (mkPosition 0 5) <= character (r_end (word_range w)) /\
  Forall (fun c => is_word_char c = true) (word_name w).
Proof.
  cbv zeta. split; [simpl; lia|]. split; [vm_compute; reflexivity|].
  exact (getWordAtPosition_contains _ (mkPosition 0 5) ltac:(simpl; lia)).
Defined.

(** The range of a symbol that is a scope of its own: a method or a
    class. *)
Definition scope_range (s : Sym) : option Range :=
  match s with
  | MethodSym _ _ r _ _ _ _ | ObjectSym _ _ r _ => Some r
  | _ => None
  end.

(** [isLessPosition] orders positions by their lines only. *)
Lemma isLessPosition_line p q : isLessPosition p q = true -> line p < line q.
Proof.
  unfold isLessPosition. destruct (line p <? line q) eqn:E; [intros _; by apply Z.ltb_lt|].
  rewrite Z.ltb_irrefl, andb_false_r. done.
Qed.

(** (C30) [getCurrentScoop] (lines 505-518) enters a method or a class
    only when the position lies on a line strictly between the first and
    the last line of its range: [isLessPosition] (lines 524-529) compares
    [pos1.character] with itself, so two positions on the same line are
    never ordered.  Whenever the scope found is not the table itself,
    some method or class of the table has the position strictly inside
    its lines; a cursor on the line of a method's header or of its
    closing brace is resolved in the enclosing scope. *)
Theorem getCurrentScoop_strict_lines pos n syms :
  getCurrentScoop pos (MkScoop n syms) <> MkScoop n syms ->
  exists sym r, sym ∈ syms /\ scope_range sym = Some r /\
    line (r_start r) < line pos < line (r_end r).
Proof.
  cbn [getCurrentScoop]. generalize (MkScoop n syms) as t.
  induction syms as [|sym rest IH]; intros t Ht; [done|].
  assert (Hrest : (exists sym r, sym ∈ rest /\ scope_range sym = Some r /\
                    line (r_start r) < line pos < line (r_end r)) ->
                  exists sym' r, sym' ∈ sym :: rest /\ scope_range sym' = Some r /\
                    line (r_start r) < line pos < line (r_end r))
    by (intros (s' & r & Hin & Hr & Hl); exists s', r; split; [by right|done]).
  destruct sym; simpl in Ht; try (apply Hrest, (IH t), Ht);
    (destruct (isLessPosition _ pos && isLessPosition pos _) eqn:E;
       [apply andb_true_iff in E as [E1 E2];
        apply isLessPosition_line in E1, E2;
        eexists _, _; split; [left|split; [reflexivity|lia]]
       | apply Hrest, (IH t), Ht]).
Qed.

(** Witness of (C30): a class spanning lines 0 to 2 is entered from
    line 1. *)
Lemma getCurrentScoop_strict_lines_witness :
  let r := mkRange (mkPosition 0 0) (mkPosition 2 1) in
  let inner := MkScoop "C" [] in
  getCurrentScoop (mkPosition 1 4) (MkScoop "global" [ObjectSym "C" "u" r inner])
    <> MkScoop "global" [ObjectSym "C" "u" r inner] /\
  exists sym r', sym ∈ [ObjectSym "C" "u" r inner] /\ scope_range sym = Some r' /\
    line (r_start r') < line (mkPosition 1 4) < line (r_end r').
Proof.
  cbv zeta. split; [vm_compute; discriminate|].
  apply (getCurrentScoop_strict_lines _ "global"). vm_compute. discriminate.
Defined.

(** (C29) [arrayFilter] returns the first block of consecutive items that
    satisfy the callback: it skips the items before the first match,
    takes the matches that follow, and stops at the first item after
    them that does not match.  Matches after that block are lost, so the
    built-ins of a name are all found only when they are adjacent in
    the list. *)
Theorem arrayFilter_first_block {A} (l : list A) (callback : A -> bool) :
  arrayFilter l callback = take_while callback (drop_while (fun x => negb (callback x)) l).
Proof. unfold arrayFilter. by rewrite arrayFilter_loop_false. Qed.

Lemma drop_while_Forall {A} (p : A -> bool) l r :
  Forall (fun x => p x = true) l -> drop_while p (l ++ r) = drop_while p r.
Proof. induction 1 as [|x l Hx _ IH]; simpl; [done|]. by rewrite Hx. Qed.

Lemma take_while_Forall {A} (p : A -> bool) b c :
  Forall (fun x => p x = true) b -> Forall (fun x => p x = false) c -> take_while p (b ++ c) = b.
Proof.
  induction 1 as [|x b Hx _ IH]; simpl; intros Hc.
  - destruct Hc as [|y c Hy _]; simpl; [done|]. by rewrite Hy.
  - rewrite Hx. f_equal. by apply IH.
Qed.

(** When all the matches are adjacent, [arrayFilter] returns them all. *)
Lemma arrayFilter_adjacent {A} (a b c : list A) (callback : A -> bool) :
  Forall (fun x => callback x = false) a -> Forall (fun x => callback x = true) b ->
  Forall (fun x => callback x = false) c ->
  arrayFilter (a ++ b ++ c) callback = b.
Proof.
  intros Ha Hb Hc. unfold arrayFilter. rewrite arrayFilter_loop_false. simpl.
  rewrite drop_while_Forall by (eapply Forall_impl; [exact Ha | intros x ->; done]).
  destruct Hb as [|x b Hx Hb].
  - simpl. rewrite <-(app_nil_r c), drop_while_Forall by (eapply Forall_impl; [exact Hc | intros x ->; done]).
    done.
  - simpl. rewrite Hx. simpl. rewrite Hx. f_equal. by apply take_while_Forall.
Qed.

(** [f(a, g(b, ] with the cursor at the end of the line: both calls are
    unfinished. *)
Definition nested_call_src (f a g b : string) : list (Token * string) * Z :=
  ([(tok TokenType.id f 0, "("); (tok TokenType.openParen "(" 3, "");
    (tok TokenType.id a 4, ","); (tok TokenType.comma "," 5, " ");
    (tok TokenType.id g 7, "("); (tok TokenType.openParen "(" 10, "");
    (tok TokenType.id b 11, ","); (tok TokenType.comma "," 12, " ")], 14%Z).

(** With the [SemanticStack] of [src/server/src/semantic_stack.ts] as
    the line parser, [signature_target] picks the innermost unfinished
    call: on [f(a, g(b, ] it looks up [g] with the second parameter
    active. *)
Theorem signature_innermost_unfinished_call f a g b :
  match fst (statement 60 (stack_of (nested_call_src f a g b))) with
  | Ok (Some r) => signature_target r
  | _ => None
  end = Some (mkSigTarget g [g] (Some 1%nat) 2 false).
Proof. vm_compute. reflexivity. Qed.
