(* ===== verification/DocCache.v ===== *)
(** * DocCache: the document cache of the Tree Manager

    The state of [class TreeManager] of [src/server/src/services/treeManager.ts]
    and the methods that change it: the constructor (lines 130-146),
    [initDocument], [selectDocument], [updateDocumentAST] with its loop
    over the includes, [loadDocumnet], [linkInclude],
    [deleteUnusedDocument], [include2Path] and [setDiffSet], and the
    readers [getLine], [LineTextToPosition] and
    [allIncludeTreeinfomation].

    The program around the Tree Manager is the class [Host]: the parser
    ([new AHKParser(text, uri, logger).parse()], modelled in [StmtParser],
    whose [IAST] the cache stores), the lines of a [TextDocument], the
    [IoService] that reads files, [URI] of [vscode-uri], the functions
    [normalize], [extname] and [dirname] of [path], [os.homedir], the
    directory listing [IoService.statDirectory], and the conversion of
    a line text (its code units) to the [string] of names.  The
    definitions and theorems hold for every [Host].

    The maps [serverDocs], [docsAST], [localAST] and [incInfos] are
    [gmap]s: the code only looks them up, sets and deletes keys, and
    tests whether some entry has a property, so their order does not
    matter.  The inner maps of [incInfos] ([Map<absolute path, raw
    path>]) are iterated by [linkInclude] to link the included tables in
    order, so they are association lists with the insertion order of a
    JavaScript [Map] ([JsMap]).  The [SymbolTable] of a document is
    shared: [updateDocumentAST] stores it in [docsAST] and then links the
    include tables into it, so the links are a field of the entry.

    [updateDocumentAST] is [async] and awaits each [loadDocumnet]; other
    events can run while it waits.  The model runs it to its end as one
    step. *)

From S2P Require Import Prelude Tokens TokenBuffer StmtParser TreeQueries.
From stdpp Require Import gmap.
From Stdlib Require Import Ascii.

(** ** JavaScript maps with their insertion order *)

Abbreviation JsMap V := (list (string * V)).

Section JsMap.
Context {V : Type}.

Definition jm_has (k : string) (m : JsMap V) : bool := bool_decide (k ∈ m.*1).

(** [m.set(k, v)]: an existing key keeps its place. *)
Definition jm_set (k : string) (v : V) (m : JsMap V) : JsMap V :=
  if jm_has k m then map (fun kv => if decide (kv.1 = k) then (k, v) else kv) m
  else m ++ [(k, v)].

(** [m.delete(k)]. *)
Definition jm_delete (k : string) (m : JsMap V) : JsMap V := filter (fun kv => kv.1 <> k) m.
End JsMap.

(** The first item that satisfies [p], as [for (const d of l) if (p(d)) return d]. *)
Fixpoint list_find_first {A} (p : A -> bool) (l : list A) : option A :=
  match l with
  | [] => None
  | x :: r => if p x then Some x else list_find_first p r
  end.

(** ** The host of the Tree Manager *)

Class Host (Text : Type) := {
  (** [new AHKParser(text, uri, logger).parse()] *)
  parse_text : Text -> IAST;
  (** the lines of a [TextDocument], without their line ends *)
  doc_lines : Text -> list jstring;
  (** [IoService.load(path)]; [None] when it fails *)
  io_load : string -> option Text;
  (** [IoService.fileExistsSync(path)] *)
  fileExistsSync : string -> bool;
  (** [URI.file(path).toString()] *)
  uri_file : string -> string;
  (** [URI.parse(uri).fsPath] *)
  uri_fsPath : string -> string;
  (** [normalize], [extname] and [dirname] of [path] *)
  normalize : string -> string;
  extname : string -> string;
  dirname : string -> string;
  (** [os.homedir()] *)
  homedir : string;
  (** [IoService.statDirectory(dir)]: the entries of a directory, each a
      path and whether it is a folder ([IoKind.folder]); [[]] when the
      directory does not exist *)
  statDirectory : string -> list (string * bool);
  (** a JavaScript string, given by its code units, as the [string]
      that the names of tokens and symbols are *)
  text_of : jstring -> string
}.

(** [setDiffSet(set1, set2)] (lines 61-74) on sets iterated in insertion
    order: the items of [set1] not in [set2], and those of [set2] not in
    [set1]. *)
Definition setDiffSet (set1 set2 : list string) : list string * list string :=
  (filter (fun item => item ∉ set2) set1, filter (fun item => item ∉ set1) set2).

Section DocCache.
Context {Text : Type} `{!Host Text}.

(** [interface DocInfo]: the parsed tree and the symbol table, here the
    uris of the include tables linked into it. *)
Record DocInfo : Type := mkDocInfo { AST : IAST; table_includes : list string }.

(** The fields of [TreeManager] that change ([conn], [logger] and the
    built-in nodes are constant). *)
Record TreeManager : Type := mkTreeManager {
  serverDocs : gmap string Text;
  docsAST : gmap string DocInfo;
  localAST : gmap string DocInfo;
  incInfos : gmap string (JsMap string);
  currentDocUri : string
}.

Definition set_serverDocs m tm :=
  mkTreeManager m (docsAST tm) (localAST tm) (incInfos tm) (currentDocUri tm).
Definition set_docsAST m tm :=
  mkTreeManager (serverDocs tm) m (localAST tm) (incInfos tm) (currentDocUri tm).
Definition set_localAST m tm :=
  mkTreeManager (serverDocs tm) (docsAST tm) m (incInfos tm) (currentDocUri tm).
Definition set_incInfos m tm :=
  mkTreeManager (serverDocs tm) (docsAST tm) (localAST tm) m (currentDocUri tm).
Definition set_currentDocUri u tm :=
  mkTreeManager (serverDocs tm) (docsAST tm) (localAST tm) (incInfos tm) u.

(** The constructor (lines 130-146). *)
Definition tree_manager : TreeManager := mkTreeManager ∅ ∅ ∅ ∅ "".

Definition SLibDir : string := "C:\Program Files\AutoHotkey\Lib".
Definition ULibDir : string := homedir +:+ "\Documents\AutoHotkey\Lib".

(** [initDocument(uri, doc)] (lines 152-155). *)
Definition initDocument (uri : string) (doc : Text) (tm : TreeManager) : TreeManager :=
  set_currentDocUri uri tm.

(** [selectDocument(uri)] (lines 161-164). *)
Definition selectDocument (uri : string) (tm : TreeManager) : TreeManager :=
  set_currentDocUri (if bool_decide (is_Some (serverDocs tm !! uri)) then uri else "") tm.

(** [include2Path(rawPath, scriptPath)] (lines 355-386). *)
Definition include2Path (rawPath scriptPath : string) : option string :=
  let scriptDir := scriptPath in
  let normalized := normalize rawPath in
  if decide (extname normalized = ".ahk") then
    if decide (String.get 0 (dirname normalized) = Some "."%char) then
      Some (normalize (scriptDir +:+ "\" +:+ normalized))
    else Some normalized
  else if decide (extname normalized = "") then
    if decide (String.get 0 rawPath = Some "<"%char /\
               String.get (String.length rawPath - 1) rawPath = Some ">"%char) then
      let np := normalize (String.substring 1 (String.length rawPath - 2) rawPath +:+ ".ahk") in
      let dir := normalize (scriptDir +:+ "\Lib\" +:+ np) in
      let ULib := normalize (ULibDir +:+ "\" +:+ np) in
      let SLib := normalize (SLibDir +:+ "\" +:+ np) in
      list_find_first fileExistsSync [dir; ULib; SLib]
    else None
  else None.

(** [loadDocumnet(path)] (lines 274-285): the document of uri
    [URI.file(path).toString()] with the content of the file. *)
Definition loadDocumnet (path : string) : option (string * Text) :=
  (fun c => (uri_file path, c)) <$> io_load path.

(** [linkInclude(table, uri)] (lines 287-296): the include tables found
    in [localAST], in the order of [incInfos]. *)
Definition linkInclude (uri : string) (tm : TreeManager) : list string :=
  match incInfos tm !! uri with
  | None => []
  | Some includes =>
      omap (fun '(path, raw) =>
              let incUri := uri_file path in
              (fun _ => incUri) <$> localAST tm !! incUri) includes
  end.

(** The links are added to the table of the entry of [uri] in
    [docsAST], the object [docTable] that [updateDocumentAST] stored. *)
Definition link_table (uri : string) (tm : TreeManager) : TreeManager :=
  match docsAST tm !! uri with
  | Some di =>
      set_docsAST (<[uri := mkDocInfo (AST di) (table_includes di ++ linkInclude uri tm)]>
                     (docsAST tm)) tm
  | None => tm
  end.

(** The removal of the include entries whose raw path is no longer
    included (lines 205-217). *)
Definition delete_useless (useless : list string) (incInfo : JsMap string) : JsMap string :=
  let tempInfo := useless ≫= (fun u => (filter (fun ar => ar.2 = u) incInfo).*1) in
  foldl (fun m abs => jm_delete abs m) incInfo tempInfo.

(** The [while (path)] loop of [updateDocumentAST] (lines 226-258): the
    queue of raw include paths, resolved against the directory of the
    current document. *)
Fixpoint include_loop (fuel : nat) (uri : string) (path : option string)
    (incQueue : list string) (tm : TreeManager) : option TreeManager :=
  match fuel with
  | O => None
  | S f =>
      match path with
      | None => Some tm
      | Some path =>
          if decide (path = "") then Some tm
          else
            let docDir := dirname (uri_fsPath (currentDocUri tm)) in
            let next tm' q := include_loop f uri (head q) (tail q) tm' in
            match include2Path path docDir with
            | Some p =>
                if decide (p = "") then next tm incQueue
                else if bool_decide (is_Some (localAST tm !! uri_file p)) then next tm incQueue
                else
                  match loadDocumnet p with
                  | Some (docuri, text) =>
                      let ast := parse_text text in
                      let tm' := set_incInfos
                                   (<[uri := jm_set p path (default [] (incInfos tm !! uri))]>
                                      (incInfos tm))
                                   (set_localAST (<[docuri := mkDocInfo ast []]> (localAST tm)) tm) in
                      next tm' (incQueue ++ script_include (script ast))
                  | None => next tm incQueue
                  end
            | None => next tm incQueue
            end
      end
  end.

(** [updateDocumentAST(uri, doc)] (lines 172-266), for a document whose
    uri is [uri]; [None] when the include loop runs out of fuel. *)
Definition updateDocumentAST (fuel : nat) (uri : string) (doc : Text) (tm : TreeManager)
    : option TreeManager :=
  let tm1 := set_serverDocs (<[uri := doc]> (serverDocs tm)) tm in
  let ast := parse_text doc in
  let oldInclude := (fun di => script_include (script (AST di))) <$> docsAST tm1 !! uri in
  let tm2 := set_docsAST (<[uri := mkDocInfo ast []]> (docsAST tm1)) tm1 in
  let newInclude := script_include (script ast) in
  let '(useless, useneed) :=
    match oldInclude with
    | Some old => setDiffSet old newInclude
    | None => ([], newInclude)
    end in
  let tm3 :=
    match incInfos tm2 !! uri with
    | Some incInfo => set_incInfos (<[uri := delete_useless useless incInfo]> (incInfos tm2)) tm2
    | None => tm2
    end in
  match useneed with
  | [] => Some (link_table uri tm3)
  | path :: incQueue =>
      tm4 ← include_loop fuel uri (Some path) incQueue tm3;
      Some (link_table uri tm4)
  end.

(** [deleteUnusedDocument(uri)] (lines 298-315): an included file is
    dropped from [localAST] when no other document lists it. *)
Definition deleteUnusedDocument (uri : string) (tm : TreeManager) : TreeManager :=
  let incinfo := incInfos tm !! uri in
  let tm1 := set_incInfos (delete uri (incInfos tm)) (set_docsAST (delete uri (docsAST tm)) tm) in
  match incinfo with
  | None => tm1
  | Some inc =>
      foldl (fun tm' '(path, raw) =>
               let isUseless :=
                 negb (existsb (fun '(docuri, docinc) => jm_has path docinc)
                               (map_to_list (incInfos tm'))) in
               if isUseless then set_localAST (delete (uri_file path) (localAST tm')) tm' else tm')
            tm1 inc
  end.

(** ** Reading the current document *)

(** [getText] of the range from the start of a line to the start of the
    next one: the line with its line end; [""] out of the document. *)
Definition line_of (doc : Text) (ln : Z) : jstring :=
  if (ln <? 0)%Z then [] else default [] (doc_lines doc !! Z.to_nat ln).

(** [getLine(line)] (lines 344-353); the line end is removed by
    [trimRight]. *)
Definition getLine (tm : TreeManager) (ln : Z) : option jstring :=
  if decide (currentDocUri tm = "") then None
  else (fun doc => trimRight (line_of doc ln)) <$> serverDocs tm !! currentDocUri tm.

(** [LineTextToPosition(position)] (lines 329-338). *)
Definition LineTextToPosition (tm : TreeManager) (position : Position) : option jstring :=
  if decide (currentDocUri tm = "") then None
  else (fun doc => trimRight (take (Z.to_nat (character position)) (line_of doc (line position))))
         <$> serverDocs tm !! currentDocUri tm.

(** [allIncludeTreeinfomation(docinfo)] (lines 388-399). *)
Definition allIncludeTreeinfomation (tm : TreeManager) : list DocInfo :=
  omap (fun '(path, raw) => localAST tm !! uri_file path)
       (default [] (incInfos tm !! currentDocUri tm)).

End DocCache.

Arguments TreeManager Text : clear implicits.
Arguments DocInfo : clear implicits.

(** ** Properties of the cache *)

Lemma filter_length_impl {A} (P Q : A -> Prop) `{!forall x, Decision (P x), !forall x, Decision (Q x)}
    (l : list A) :
  (forall y, Q y -> P y) -> length (filter Q l) <= length (filter P l).
Proof.
  intros HQP. induction l as [|y l IH]; [done|].
  rewrite !filter_cons. repeat case_decide; simpl; try lia. exfalso; auto.
Qed.

Lemma filter_length_lt {A} (P Q : A -> Prop) `{!forall x, Decision (P x), !forall x, Decision (Q x)}
    (l : list A) x :
  (forall y, Q y -> P y) -> x ∈ l -> P x -> ~ Q x ->
  length (filter Q l) < length (filter P l).
Proof.
  intros HQP Hx HP HQ. induction l as [|y l IH]; [by apply elem_of_nil in Hx|].
  pose proof (filter_length_impl P Q l HQP).
  rewrite !filter_cons. apply elem_of_cons in Hx as [->|Hx].
  - repeat case_decide; simpl; try lia; contradiction.
  - specialize (IH Hx). repeat case_decide; simpl; try lia. exfalso; auto.
Qed.

Lemma jm_delete_sub {V} k (m : JsMap V) x : x ∈ jm_delete k m -> x ∈ m.
Proof. unfold jm_delete. intros H. by apply list_elem_of_filter in H as [_ H]. Qed.

Lemma jm_set_elem {V} k (v : V) m x : x ∈ jm_set k v m -> x ∈ m \/ x = (k, v).
Proof.
  unfold jm_set. destruct (jm_has k m).
  - intros (y & -> & Hy)%list_elem_of_fmap. case_decide; auto.
  - intros [Hx | ->%list_elem_of_singleton]%elem_of_app; auto.
Qed.

Lemma delete_useless_sub useless inc x : x ∈ delete_useless useless inc -> x ∈ inc.
Proof.
  unfold delete_useless. cbv zeta.
  generalize (useless ≫= (fun u => (filter (fun ar => ar.2 = u) inc).*1)) as l.
  intros l. revert inc. induction l as [|a l IH]; intros inc Hx; simpl in *; [done|].
  apply (jm_delete_sub a). by apply IH.
Qed.

Lemma setDiffSet_snd_sub set1 set2 x : x ∈ (setDiffSet set1 set2).2 -> x ∈ set2.
Proof. simpl. intros H. by apply list_elem_of_filter in H as [_ H]. Qed.

Lemma setDiffSet_snd_length set1 set2 : length (setDiffSet set1 set2).2 <= length set2.
Proof. apply length_filter. Qed.

Section Termination.
Context {Text : Type} `{!Host Text}.

(** The files that can be read, and a bound on the includes of a file. *)
Variable files : list string.
Hypothesis files_load : forall p t, io_load p = Some t -> p ∈ files.
Variable K : nat.
Hypothesis includes_bound :
  forall p t, io_load p = Some t -> length (script_include (script (parse_text t))) < K.

(** The readable files that are not yet in [localAST]. *)
Definition unloaded (tm : TreeManager Text) : nat :=
  length (filter (fun p => ~ is_Some (localAST tm !! uri_file p)) files).

Definition loop_measure (path : option string) (q : list string) (tm : TreeManager Text) : nat :=
  K * unloaded tm + (if path is Some _ then 1 else 0) + length q.

Lemma loop_measure_next q tm :
  loop_measure (head q) (tail q) tm = K * unloaded tm + length q.
Proof. unfold loop_measure. destruct q; simpl; lia. Qed.

Lemma unloaded_insert tm p v :
  p ∈ files -> ~ is_Some (localAST tm !! uri_file p) ->
  unloaded (set_localAST (<[uri_file p := v]> (localAST tm)) tm) < unloaded tm.
Proof.
  intros Hp Hn. unfold unloaded. simpl. apply (filter_length_lt _ _ _ p); [|done|done|].
  - intros y Hy Hs. apply Hy. destruct (decide (uri_file y = uri_file p)) as [E|E].
    + rewrite E, lookup_insert_eq. by eexists.
    + by rewrite lookup_insert_ne by done.
  - intros H. apply H. rewrite lookup_insert_eq. by eexists.
Qed.

Lemma unloaded_le tm : unloaded tm <= length files.
Proof. apply length_filter. Qed.

(** The include loop ends within its measure: every round takes an item
    off the queue, and a round that reads a file removes one readable
    file from those not yet cached and adds fewer than [K] items. *)
Lemma include_loop_finishes fuel uri path q tm :
  loop_measure path q tm < fuel -> include_loop fuel uri path q tm <> None.
Proof.
  revert path q tm. induction fuel as [|f IH]; intros path q tm Hm; [lia|]. simpl.
  destruct path as [path|]; [|done]. case_decide; [done|].
  assert (Hskip : loop_measure (head q) (tail q) tm < f).
  { rewrite loop_measure_next. unfold loop_measure in Hm. lia. }
  destruct (include2Path path _) as [p|]; [|by apply IH].
  case_decide; [by apply IH|]. case_bool_decide as Hc; [by apply IH|].
  unfold loadDocumnet. destruct (io_load p) as [t|] eqn:Ht; simpl; [|by apply IH].
  apply IH. rewrite loop_measure_next. unfold loop_measure in Hm. rewrite length_app.
  pose proof (unloaded_insert tm p (mkDocInfo (parse_text t) []) (files_load p t Ht) Hc) as H1.
  pose proof (includes_bound p t Ht) as H2.
  set (u' := unloaded _) in H1. change (unloaded _) with u'. nia.
Qed.
Lemma update_tail_finishes fuel uri useneed tm :
  K * length files + length useneed < fuel ->
  match useneed with
  | [] => Some (link_table uri tm)
  | path :: incQueue => tm4 ← include_loop fuel uri (Some path) incQueue tm; Some (link_table uri tm4)
  end <> None.
Proof.
  intros Hf. destruct useneed as [|path q]; [done|].
  destruct (include_loop fuel uri (Some path) q tm) eqn:E; [done|].
  exfalso. refine (include_loop_finishes fuel uri (Some path) q tm _ E).
  unfold loop_measure. pose proof (unloaded_le tm). simpl in Hf. nia.
Qed.
End Termination.

Section Update.
Context {Text : Type} `{!Host Text}.

(** The result of [updateDocumentAST] once the include entries that are
    no longer used have been removed ([tm3] in the definition). *)
Definition update_prefix (uri : string) (doc : Text) (tm : TreeManager Text)
    : list string * TreeManager Text :=
  let tm1 := set_serverDocs (<[uri := doc]> (serverDocs tm)) tm in
  let ast := parse_text doc in
  let oldInclude := (fun di => script_include (script (AST di))) <$> docsAST tm1 !! uri in
  let tm2 := set_docsAST (<[uri := mkDocInfo ast []]> (docsAST tm1)) tm1 in
  let newInclude := script_include (script ast) in
  let '(useless, useneed) :=
    match oldInclude with
    | Some old => setDiffSet old newInclude
    | None => ([], newInclude)
    end in
  (useneed,
   match incInfos tm2 !! uri with
   | Some incInfo => set_incInfos (<[uri := delete_useless useless incInfo]> (incInfos tm2)) tm2
   | None => tm2
   end).

Lemma updateDocumentAST_split fuel uri doc tm :
  updateDocumentAST fuel uri doc tm =
    match (update_prefix uri doc tm).1 with
    | [] => Some (link_table uri (update_prefix uri doc tm).2)
    | path :: incQueue =>
        tm4 ← include_loop fuel uri (Some path) incQueue (update_prefix uri doc tm).2;
        Some (link_table uri tm4)
    end.
Proof.
  unfold updateDocumentAST, update_prefix. simpl.
  destruct (docsAST tm !! uri); simpl; reflexivity.
Qed.

Lemma update_prefix_useneed uri doc tm x :
  x ∈ (update_prefix uri doc tm).1 -> x ∈ script_include (script (parse_text doc)).
Proof.
  unfold update_prefix. simpl. destruct (docsAST tm !! uri); simpl; [|done].
  apply setDiffSet_snd_sub.
Qed.

Lemma update_prefix_useneed_length uri doc tm :
  length (update_prefix uri doc tm).1 <= length (script_include (script (parse_text doc))).
Proof.
  unfold update_prefix. simpl. destruct (docsAST tm !! uri); simpl; [|done].
  apply setDiffSet_snd_length.
Qed.

Lemma update_prefix_fields uri doc tm tm3 :
  tm3 = (update_prefix uri doc tm).2 ->
  serverDocs tm3 = <[uri := doc]> (serverDocs tm) /\
  docsAST tm3 = <[uri := mkDocInfo (parse_text doc) []]> (docsAST tm) /\
  localAST tm3 = localAST tm /\ currentDocUri tm3 = currentDocUri tm /\
  (forall u, u <> uri -> incInfos tm3 !! u = incInfos tm !! u) /\
  (forall pr, pr ∈ default [] (incInfos tm3 !! uri) -> pr ∈ default [] (incInfos tm !! uri)) /\
  (incInfos tm !! uri = None -> incInfos tm3 !! uri = None).
Proof.
  intros ->. unfold update_prefix. simpl.
  destruct (docsAST tm !! uri) as [di|]; simpl;
    destruct (incInfos tm !! uri) as [inc|] eqn:Hi; simpl;
    repeat split; try done; intros; rewrite ?lookup_insert_ne by done; try done;
    rewrite ?lookup_insert_eq, ?Hi in *; simpl in *;
    first [ done | congruence | by eapply delete_useless_sub
          | rewrite Hi in H; by apply elem_of_nil in H ].
Qed.
End Update.

Section Loop.
Context {Text : Type} `{!Host Text}.

(** An include that the loop skips: each path it resolves to, against
    the directory of the current document, is already cached. *)
Definition no_load (tm : TreeManager Text) (raw : string) : Prop :=
  forall p, include2Path raw (dirname (uri_fsPath (currentDocUri tm))) = Some p -> p <> "" ->
    is_Some (localAST tm !! uri_file p).

Lemma include_loop_no_load fuel uri path q tm :
  (forall raw, path = Some raw \/ raw ∈ q -> no_load tm raw) ->
  (if path is Some _ then 1 else 0) + length q < fuel ->
  include_loop fuel uri path q tm = Some tm.
Proof.
  revert path q. induction fuel as [|f IH]; intros path q Hq Hf; [lia|]. simpl.
  destruct path as [path|]; [|done]. case_decide; [done|].
  assert (Hnext : include_loop f uri (head q) (tail q) tm = Some tm).
  { apply IH; [|destruct q; simpl in *; lia].
    intros raw Hr. apply Hq. right. destruct q as [|y q]; simpl in Hr.
    - destruct Hr as [Hr|Hr]; [discriminate | by apply elem_of_nil in Hr].
    - apply elem_of_cons. destruct Hr as [Hr|Hr]; [injection Hr as ->|]; auto. }
  destruct (include2Path path _) as [p|] eqn:Hp; [|done].
  case_decide; [done|]. case_bool_decide as Hc; [done|].
  exfalso. apply Hc. apply (Hq path); auto.
Qed.

(** The loop keeps the current document, and every include entry it adds
    to [uri] was resolved against the directory of the current document. *)
Lemma include_loop_entries fuel uri path q tm tm' :
  include_loop fuel uri path q tm = Some tm' ->
  currentDocUri tm' = currentDocUri tm /\ docsAST tm' = docsAST tm /\
  serverDocs tm' = serverDocs tm /\
  (forall k, is_Some (localAST tm !! k) -> is_Some (localAST tm' !! k)) /\
  (forall u pr, pr ∈ default [] (incInfos tm' !! u) ->
     pr ∈ default [] (incInfos tm !! u) \/
     (u = uri /\ include2Path pr.2 (dirname (uri_fsPath (currentDocUri tm))) = Some pr.1 /\
      is_Some (localAST tm' !! uri_file pr.1))).
Proof.
  revert path q tm. induction fuel as [|f IH]; intros path q tm Hl; [done|]. simpl in Hl.
  destruct path as [path|]; [|injection Hl as <-; split_and!; auto].
  case_decide; [injection Hl as <-; split_and!; auto|].
  destruct (include2Path path _) as [p|] eqn:Hp; [|by apply IH in Hl].
  case_decide; [by apply IH in Hl|]. case_bool_decide; [by apply IH in Hl|].
  unfold loadDocumnet in Hl. destruct (io_load p) as [t|]; simpl in Hl; [|by apply IH in Hl].
  apply IH in Hl as (Hc & Hd & Hs & Hk & He). simpl in *.
  split_and!; try done.
  - intros k Hk'. apply Hk. destruct (decide (k = uri_file p)) as [->|E];
      [rewrite lookup_insert_eq; by eexists | by rewrite lookup_insert_ne].
  - intros u pr Hpr. destruct (He u pr Hpr) as [Hin|(-> & Hr1 & Hr2)]; [|auto].
    destruct (decide (u = uri)) as [->|E].
    + rewrite lookup_insert_eq in Hin. simpl in Hin.
      destruct (jm_set_elem _ _ _ _ Hin) as [Hin' | ->]; [auto|].
      right. split_and!; [done | done | apply Hk; rewrite lookup_insert_eq; by eexists].
    + rewrite lookup_insert_ne in Hin by done. auto.
Qed.
End Loop.

(** ** The cache invariant *)

Section Invariant.
Context {Text : Type} `{!Host Text}.

(** Every parsed document is a server document, and every file listed
    in the include entries of a document is cached in [localAST]. *)
Definition cache_inv (tm : TreeManager Text) : Prop :=
  (forall u, is_Some (docsAST tm !! u) -> is_Some (serverDocs tm !! u)) /\
  (forall u pr, pr ∈ default [] (incInfos tm !! u) -> is_Some (localAST tm !! uri_file pr.1)).

Lemma cache_inv_init : cache_inv tree_manager.
Proof.
  split; simpl; [intros u [? H]; by rewrite lookup_empty in H|]. intros u pr H. rewrite lookup_empty in H.
  by apply elem_of_nil in H.
Qed.

Lemma cache_inv_initDocument uri doc tm : cache_inv tm -> cache_inv (initDocument uri doc tm).
Proof. done. Qed.

Lemma cache_inv_selectDocument uri tm : cache_inv tm -> cache_inv (selectDocument uri tm).
Proof. done. Qed.

Lemma cache_inv_link_table uri tm :
  is_Some (serverDocs tm !! uri) -> cache_inv tm -> cache_inv (link_table uri tm).
Proof.
  intros Hs [H1 H2]. unfold link_table. destruct (docsAST tm !! uri); [|by split].
  split; [|done]. simpl. intros u. destruct (decide (u = uri)) as [->|E]; [done|].
  rewrite lookup_insert_ne by done. apply H1.
Qed.

Lemma cache_inv_updateDocumentAST fuel uri doc tm tm' :
  cache_inv tm -> updateDocumentAST fuel uri doc tm = Some tm' -> cache_inv tm'.
Proof.
  intros [H1 H2] Hu. rewrite updateDocumentAST_split in Hu.
  destruct (update_prefix_fields uri doc tm _ eq_refl) as (Fs & Fd & Fl & Fc & Fi & Fu & Fn).
  set (tm3 := (update_prefix uri doc tm).2) in *.
  assert (Hinv3 : cache_inv tm3).
  { split.
    - intros u. rewrite Fd, Fs. destruct (decide (u = uri)) as [->|E];
        [rewrite !lookup_insert_eq; intros; by eexists | rewrite !lookup_insert_ne by done; apply H1].
    - intros u pr Hpr. rewrite Fl. destruct (decide (u = uri)) as [->|E].
      + apply (H2 uri). by apply Fu.
      + rewrite Fi in Hpr by done. by apply (H2 u). }
  assert (Hs3 : is_Some (serverDocs tm3 !! uri)) by (rewrite Fs, lookup_insert_eq; by eexists).
  destruct (update_prefix uri doc tm).1 as [|path q]; [injection Hu as <-; by apply cache_inv_link_table|].
  destruct (include_loop fuel uri (Some path) q tm3) as [tm4|] eqn:Hl; [|done].
  injection Hu as <-.
  destruct (include_loop_entries _ _ _ _ _ _ Hl) as (Hc & Hd & Hs & Hk & He).
  apply cache_inv_link_table; [by rewrite Hs|]. split.
  - intros u. rewrite Hd, Hs. apply Hinv3.
  - intros u pr Hpr. destruct (He u pr Hpr) as [Hin|(_ & _ & Hc4)]; [|done].
    apply Hk. by apply (proj2 Hinv3 u).
Qed.

(** [deleteUnusedDocument] keeps the invariant when [URI.file] maps
    distinct paths to distinct uris. *)
Lemma cache_inv_deleteUnusedDocument uri tm :
  Inj eq eq uri_file -> cache_inv tm -> cache_inv (deleteUnusedDocument uri tm).
Proof.
  intros Hinj [H1 H2]. unfold deleteUnusedDocument.
  set (tm1 := set_incInfos _ _).
  assert (Hinv1 : cache_inv tm1).
  { split; simpl.
    - intros u. destruct (decide (u = uri)) as [->|E]; [by rewrite lookup_delete_eq|].
      rewrite lookup_delete_ne by done. apply H1.
    - intros u pr. destruct (decide (u = uri)) as [->|E].
      + rewrite lookup_delete_eq. intros H. by apply elem_of_nil in H.
      + rewrite lookup_delete_ne by done. apply H2. }
  destruct (incInfos tm !! uri) as [inc|]; [|done].
  assert (Hgen : forall (l : list (string * string)) (tm' : TreeManager Text),
    cache_inv tm' -> incInfos tm' = incInfos tm1 ->
    docsAST tm' = docsAST tm1 -> serverDocs tm' = serverDocs tm1 ->
    cache_inv (foldl (fun (tm' : TreeManager Text) '(path, raw) =>
               if negb (existsb (fun '(docuri, docinc) => jm_has path docinc)
                          (map_to_list (incInfos tm')))
               then set_localAST (delete (uri_file path) (localAST tm')) tm' else tm') tm' l)).
  { induction l as [|[path raw] l IH]; intros tm' Hi Ei Ed Es; simpl; [done|].
    destruct (existsb _ _) eqn:Ex; simpl; [by apply IH|].
    apply IH; try done. destruct Hi as [Hi1 Hi2]. split; [done|]. simpl.
    intros u pr Hpr. destruct (decide (uri_file pr.1 = uri_file path)) as [E|E].
    - exfalso. apply Hinj in E. destruct pr as [p r]. simpl in E. subst p.
      destruct (incInfos tm' !! u) as [m|] eqn:Hm; [|by apply elem_of_nil in Hpr].
      assert (existsb (fun '(docuri, docinc) => jm_has path docinc) (map_to_list (incInfos tm'))
              = true) as Htrue.
      { apply existsb_exists. exists (u, m). split; [apply list_elem_of_In; by apply elem_of_map_to_list|].
        unfold jm_has. apply bool_decide_eq_true. simpl in Hpr.
        apply list_elem_of_fmap. by exists (path, r). }
      congruence.
    - rewrite lookup_delete_ne by done. by apply (Hi2 u). }
  by apply Hgen.
Qed.
End Invariant.

(** ** Behaviour of [updateDocumentAST] *)

Section Behaviour.
Context {Text : Type} `{!Host Text}.

Lemma link_table_docsAST uri tm di :
  docsAST tm !! uri = Some di ->
  docsAST (link_table uri tm) !! uri = Some (mkDocInfo (AST di) (table_includes di ++ linkInclude uri tm)).
Proof. intros Hd. unfold link_table. rewrite Hd. simpl. by rewrite lookup_insert_eq. Qed.

Lemma link_table_incInfos uri tm : incInfos (link_table uri tm) = incInfos tm.
Proof. unfold link_table. by destruct (docsAST tm !! uri). Qed.

(** (C25) Termination of [updateDocumentAST]: when the files that can be
    read are among [files] and each has fewer than [K] includes, the
    loop over the includes ends within [K * length files] rounds plus
    the includes of the document.  A file is read at most once, since
    it is skipped once it is in [localAST]. *)
Theorem updateDocumentAST_terminates (files : list string) (K : nat) fuel uri doc tm :
  (forall p t, io_load p = Some t -> p ∈ files) ->
  (forall p t, io_load p = Some t -> length (script_include (script (parse_text t))) < K) ->
  K * length files + length (script_include (script (parse_text doc))) < fuel ->
  updateDocumentAST fuel uri doc tm <> None.
Proof.
  intros Hf HK Hfuel. rewrite updateDocumentAST_split.
  apply (update_tail_finishes files Hf K HK).
  pose proof (update_prefix_useneed_length uri doc tm). lia.
Qed.

(** (C26) An include already cached for another document is not linked:
    the loop skips a path whose file is in [localAST] before it records
    the path in the include entries of the document (lines 229-235), so
    [linkInclude] does not find it.  A document none of whose includes
    has to be read gets a symbol table with no include table linked,
    and no include entry. *)
Theorem cached_include_not_linked fuel uri doc tm :
  incInfos tm !! uri = None ->
  (forall raw, raw ∈ script_include (script (parse_text doc)) -> no_load tm raw) ->
  length (script_include (script (parse_text doc))) < fuel ->
  exists tm', updateDocumentAST fuel uri doc tm = Some tm' /\
    docsAST tm' !! uri = Some (mkDocInfo (parse_text doc) []) /\
    incInfos tm' !! uri = None.
Proof.
  intros Hi Hn Hf. rewrite updateDocumentAST_split.
  destruct (update_prefix_fields uri doc tm _ eq_refl) as (Fs & Fd & Fl & Fc & Fi & Fu & Fn).
  pose proof (update_prefix_useneed uri doc tm) as Hsub.
  pose proof (update_prefix_useneed_length uri doc tm) as Hlen.
  set (tm3 := (update_prefix uri doc tm).2) in *.
  assert (Hi3 : incInfos tm3 !! uri = None) by auto.
  assert (Hd3 : docsAST tm3 !! uri = Some (mkDocInfo (parse_text doc) [])) by
    (rewrite Fd; apply lookup_insert_eq).
  assert (Hlink : linkInclude uri tm3 = []) by (unfold linkInclude; by rewrite Hi3).
  destruct (update_prefix uri doc tm).1 as [|path q] eqn:Eu.
  - exists (link_table uri tm3). split; [done|]. rewrite link_table_incInfos.
    split; [|done]. rewrite (link_table_docsAST _ _ _ Hd3), Hlink. done.
  - rewrite (include_loop_no_load fuel uri (Some path) q tm3); cycle 1.
    + intros raw Hr. intros p Hp Hne. rewrite Fl. apply (Hn raw); [|by rewrite <-Fc|done].
      apply Hsub. destruct Hr as [[= ->]|Hr]; apply elem_of_cons; auto.
    + simpl in Hlen. lia.
    + simpl. exists (link_table uri tm3). split; [done|]. rewrite link_table_incInfos.
      split; [|done]. rewrite (link_table_docsAST _ _ _ Hd3), Hlink. done.
Qed.

(** (C27) Every include entry that [updateDocumentAST] adds to a
    document was resolved against the directory of the current
    document ([this.currentDocUri], line 230), not against the
    directory of the document being updated nor of the file that holds
    the include. *)
Theorem include_resolved_from_current fuel uri doc tm tm' p raw :
  updateDocumentAST fuel uri doc tm = Some tm' ->
  (p, raw) ∈ default [] (incInfos tm' !! uri) ->
  (p, raw) ∉ default [] (incInfos tm !! uri) ->
  include2Path raw (dirname (uri_fsPath (currentDocUri tm))) = Some p.
Proof.
  intros Hu Hin Hnot. rewrite updateDocumentAST_split in Hu.
  destruct (update_prefix_fields uri doc tm _ eq_refl) as (Fs & Fd & Fl & Fc & Fi & Fu & Fn).
  set (tm3 := (update_prefix uri doc tm).2) in *.
  destruct (update_prefix uri doc tm).1 as [|path q].
  - injection Hu as <-. rewrite link_table_incInfos in Hin. exfalso. by apply Hnot, Fu.
  - destruct (include_loop fuel uri (Some path) q tm3) as [tm4|] eqn:Hl; [|done].
    injection Hu as <-. rewrite link_table_incInfos in Hin.
    destruct (include_loop_entries _ _ _ _ _ _ Hl) as (Hc & _ & _ & _ & He).
    destruct (He uri (p, raw) Hin) as [Hin3|(_ & Hr & _)].
    + exfalso. by apply Hnot, Fu.
    + simpl in Hr. by rewrite <-Fc.
Qed.
End Behaviour.

(** ** A host for examples

    Paths of the form [C:\dir\name.ahk]; [dirname], [extname] and
    [URI.file] behave as those of [path.win32] and [vscode-uri] on them,
    [normalize] leaves them as they are.  A text is the list of its
    include paths. *)

Fixpoint split_last (c : ascii) (s : string) : option (string * string) :=
  match s with
  | EmptyString => None
  | String a r =>
      match split_last c r with
      | Some (b, e) => Some (String a b, e)
      | None => if Ascii.eqb a c then Some (EmptyString, r) else None
      end
  end.

Definition ex_dirname (s : string) : string :=
  match split_last "\"%char s with Some (b, _) => b | None => "." end.

Definition ex_extname (s : string) : string :=
  let base := match split_last "\"%char s with Some (_, e) => e | None => s end in
  match split_last "."%char base with
  | Some (EmptyString, _) | None => ""
  | Some (_, e) => String "."%char e
  end.

Definition ex_uri_file (p : string) : string := "file:///" +:+ p.

Definition ex_fsPath (u : string) : string :=
  if String.prefix "file:///" u then String.substring 8 (String.length u - 8) u else u.

Fixpoint assoc {V} (k : string) (l : list (string * V)) : option V :=
  match l with
  | [] => None
  | (k', v) :: r => if decide (k = k') then Some v else assoc k r
  end.

(** The files of the examples and their includes. *)
Definition ex_files : list (string * list string) :=
  [("C:\a\main.ahk", ["lib.ahk"]); ("C:\a\lib.ahk", ["sub.ahk"]); ("C:\a\sub.ahk", []);
   ("C:\b\other.ahk", ["sub.ahk"]); ("C:\b\sub.ahk", [])].

(** The directories of the examples. *)
Definition ex_dir (d : string) : list (string * bool) :=
  if decide (d = "C:\a\Lib\") then [("C:\a\Lib\x.ahk", false)]
  else if decide (d = "C:\Program Files\AutoHotkey\Lib\") then [("C:\Program Files\AutoHotkey\Lib\y.ahk", false)]
  else if decide (d = "C:\a\") then [("C:\a\lib.ahk", false); ("C:\a\sub", true)]
  else [].

#[export] Instance ExHost : Host (list string) := {
  parse_text t := mkIAST (mkScript [] [] [] t) [] [];
  doc_lines _ := [];
  io_load p := assoc p ex_files;
  fileExistsSync p := bool_decide (p ∈ ex_files.*1);
  uri_file := ex_uri_file;
  uri_fsPath := ex_fsPath;
  normalize s := s;
  extname := ex_extname;
  dirname := ex_dirname;
  homedir := "C:\Users\u";
  statDirectory d := ex_dir d;
  text_of t := String.string_of_list_ascii (map (fun c => Ascii.ascii_of_N (Z.to_N c)) t)
}.

Definition uriA : string := ex_uri_file "C:\a\main.ahk".
Definition uriB : string := ex_uri_file "C:\a\b.ahk".
Definition uriO : string := ex_uri_file "C:\b\other.ahk".

(** [main.ahk] opened and parsed: it includes [lib.ahk], which includes
    [sub.ahk]. *)
Definition tmA : TreeManager (list string) :=
  default tree_manager (updateDocumentAST 10 uriA ["lib.ahk"] (initDocument uriA ["lib.ahk"] tree_manager)).

Lemma assoc_elem {V} k (l : list (string * V)) v : assoc k l = Some v -> k ∈ l.*1.
Proof.
  induction l as [|[k' v'] l IH]; simpl; [done|].
  case_decide; [intros _; subst; apply elem_of_cons; auto|]. intros Hk. apply elem_of_cons; auto.
Qed.

Lemma assoc_Forall {V} (P : V -> Prop) k (l : list (string * V)) v :
  Forall (fun kv => P kv.2) l -> assoc k l = Some v -> P v.
Proof.
  induction l as [|[k' v'] l IH]; simpl; [done|]. intros Hf.
  apply Forall_cons in Hf as [Hv Hf]. case_decide; [by intros [= <-]|]. auto.
Qed.

Lemma updateDocumentAST_terminates_witness :
  updateDocumentAST 20 uriO ["sub.ahk"] tmA <> None.
Proof.
  apply (updateDocumentAST_terminates ex_files.*1 2).
  - intros p t. apply assoc_elem.
  - intros p t. apply (assoc_Forall (fun t => length (script_include (script (parse_text t))) < 2)).
    decide_closed.
  - decide_closed.
Defined.

Lemma cached_include_not_linked_witness :
  exists tm', updateDocumentAST 5 uriB ["lib.ahk"] tmA = Some tm' /\
    docsAST tm' !! uriB = Some (mkDocInfo (parse_text ["lib.ahk"]) []) /\
    incInfos tm' !! uriB = None.
Proof.
  apply cached_include_not_linked; [vm_compute; reflexivity| |decide_closed].
  intros raw Hr. apply list_elem_of_singleton in Hr as ->.
  intros p Hp _. vm_compute in Hp. injection Hp as <-. vm_compute. by eexists.
Defined.

(** [main.ahk] opened, not yet parsed: it is the current document. *)
Definition tm0 : TreeManager (list string) := initDocument uriA ["lib.ahk"] tree_manager.

Lemma include_resolved_from_current_witness :
  include2Path "sub.ahk" (dirname (uri_fsPath (currentDocUri tm0))) = Some "C:\a\sub.ahk" /\
  dirname (uri_fsPath uriO) = "C:\b".
Proof.
  split; [|vm_compute; reflexivity].
  apply (include_resolved_from_current 20 uriO ["sub.ahk"] tm0
           (default tm0 (updateDocumentAST 20 uriO ["sub.ahk"] tm0)));
    [vm_compute; reflexivity | decide_closed | decide_closed].
Defined.
