(* ===== verification/Queries.v ===== *)
(** * Queries: the requests the Tree Manager answers from its symbol tables

    The methods of [TreeManager] in [src/server/src/services/treeManager.ts]
    that read the symbol tables of the documents: [searchPerfixSymbol]
    and [searchNode] (the symbol a dotted name denotes at a position),
    [convertSymCompletion], [getGlobalCompletion] and
    [getScopedCompletion] (the completion list), [includeDirCompletion]
    (the entries of the directory an [#include] line names),
    [getDefinitionAtPosition], [docSymbolInfo], [searchNodeAtPosition]
    and [convertParamsCompletion] on the trees of [regParser], and the
    whole of
    [getFuncAtPosition], with the joining of the previous lines that
    start with a comma and the built-in commands of a [CommandCall].
    [getFuncAtPosition] is stated against the class [LineParser], the
    [statement()] of the [SemanticStack] of [parser/regParser] that
    [treeManager.ts] imports, which is not among the sources.

    The symbol tables are built by the analyzer of
    [parser/newtry/analyzer], which is not among the sources.  The class
    [Analyzer] states what the Tree Manager uses of it: the table
    [PreProcesser] builds from a tree, the name resolution of a scope
    (which also searches the enclosing scopes), the properties of a
    class and the symbol list of [docSymbolInfo].  The tree of scopes
    itself is [Scoop] of [TreeQueries]. *)

From S2P Require Import Prelude Tokens LegacyTokens StmtParser SemanticStack TreeQueries DocCache.
From stdpp Require Import gmap pretty.
Import SemanticStack.

Local Open Scope Z_scope.

(** ** The analyzer *)

(** [SymbolInformation] of [vscode-languageserver]. *)
Record SymbolInformation : Set := mkSymbolInformation {
  si_name : string;
  si_uri : string;
  si_range : Range
}.

Class Analyzer := {
  (** [new PreProcesser(ast.script).process().table] *)
  process : IAST -> Scoop;
  (** [scoop.resolve(name)] *)
  resolve : Scoop -> string -> option Sym;
  (** [symbol.resolveProp(name)] of an [AHKObjectSymbol] *)
  resolveProp : Sym -> string -> option Sym;
  (** [table.symbolInformations()] *)
  symbolInformations : Scoop -> list SymbolInformation
}.

(** ** Protocol values *)

(** The values of [CompletionItemKind] the server uses. *)
Inductive CompletionItemKind : Set :=
| KText | KMethod | KFunction | KVariable | KClass | KProperty | KEvent | KFile | KFolder
| KKeyword.

#[export] Instance CompletionItemKind_eq_dec : EqDecision CompletionItemKind.
Proof. solve_decision. Defined.

(** The [data] of a completion item: a string (a prototype), a number
    (the index of a built-in variable) or [undefined]. *)
Inductive ItemData : Set := DataText (s : string) | DataIndex (n : nat) | DataNone.

#[export] Instance ItemData_eq_dec : EqDecision ItemData.
Proof. solve_decision. Defined.

(** [CompletionItem]: [CompletionItem.create(label)] sets the label only. *)
Record CompletionItem : Set := mkItem {
  item_label : string;
  item_kind : CompletionItemKind;
  detail : option ItemData;
  data : ItemData;
  documentation : option string
}.

Definition create (label : string) (kind : CompletionItemKind) (d : ItemData) : CompletionItem :=
  mkItem label kind None d None.

Definition set_data (d : ItemData) (c : CompletionItem) : CompletionItem :=
  mkItem (item_label c) (item_kind c) (detail c) d (documentation c).

(** [c.data += s]: JavaScript converts [undefined] and numbers to text. *)
Definition data_append (d : ItemData) (s : string) : ItemData :=
  match d with
  | DataText t => DataText (t +:+ s)
  | DataIndex n => DataText (pretty n +:+ s)
  | DataNone => DataText ("undefined" +:+ s)
  end.

(** [Location] of [vscode-languageserver]. *)
Record Location : Set := mkLocation { loc_uri : string; loc_range : Range }.

(** [SignatureHelp]: the signatures, the active one and the active
    parameter ([null] is [None]). *)
Record SignatureHelp : Set := mkSignatureHelp {
  signatures : list SignatureInformation;
  activeSignature : nat;
  activeParam : option nat
}.

(** The line feed of the string ['  \nInclude from ']. *)
Definition nl : string := String (Ascii.ascii_of_nat 10) EmptyString.

(** The code units of the text ["undefined"], which [lines + context]
    gives for an [undefined] line. *)
Definition undefined_text : jstring := [117; 110; 100; 101; 102; 105; 110; 101; 100].

(** ** Searching symbols *)

Section Search.
Context `{!Analyzer}.

(** The loop of [searchPerfixSymbol] (lines 601-607): each prefix must be
    a property of the class found so far that is a class itself. *)
Fixpoint perfix_loop (lexems : list string) (nextScoop : Sym) : option Sym :=
  match lexems with
  | [] => Some nextScoop
  | lexem :: rest =>
      match resolveProp nextScoop lexem with
      | Some s => if is_object s then perfix_loop rest s else None
      | None => None
      end
  end.

(** [searchPerfixSymbol(perfixs, scoop)] (lines 598-611), the outermost
    prefix first.  The callers pass at least one prefix. *)
Definition searchPerfixSymbol (perfixs : list string) (scoop : Scoop) : option Sym :=
  match perfixs with
  | [] => None
  | p0 :: rest =>
      match resolve scoop p0 with
      | Some s => if is_object s then perfix_loop rest s else None
      | None => None
      end
  end.

(** [convertSymCompletion(sym)] (lines 666-685). *)
Definition convertSymCompletion (sym : Sym) : CompletionItem :=
  match sym with
  | MethodSym n _ _ label _ _ _ => create n KMethod (DataText label)
  | VariableSym n _ _ prop => create n (if prop then KProperty else KVariable) DataNone
  | ObjectSym n _ _ _ => create n KClass (DataText "")
  | HotkeySym n | HotStringSym n => create n KEvent DataNone
  | OtherSym n => create n KText DataNone
  end.

(** The completion item of a built-in function or command (lines
    462-473). *)
Definition builtin_item (cmdFormat : bool) (node : FuncSig) : CompletionItem :=
  create (fs_name node) KFunction (DataText (getFuncPrototype node cmdFormat)).

(** The label of the signature of a method (lines 775-787): the text of
    [toString()], then the required parameters and the optional ones
    with a ['?']. *)
Definition method_signature (label : string) (req opt : list string) : SignatureInformation :=
  mkSignatureInformation label (req ++ map (fun p => p +:+ "?") opt).

(** The built-in signatures of a name, searched ignoring case, as
    [getFuncAtPosition] shows them (lines 751-759 for the commands,
    764-772 for the functions); [undefined] when there is none. *)
Definition builtin_signature (builtins : list FuncSig) (iscmd : bool) (t : SigTarget)
    : option SignatureHelp :=
  let bfind := arrayFilter builtins
                 (fun item => bool_decide (toLowerCase (fs_name item) = toLowerCase (target_name t))) in
  match convertBuiltin2Signature bfind iscmd with
  | Some info => Some (mkSignatureHelp info (findActiveSignature bfind (target_count t))
                         (activeParameter t))
  | None => None
  end.

(** The end of [getFuncAtPosition] (lines 761-791), given what
    [searchNode] found: when nothing is found the built-in functions
    are searched by name; a method shows its own signature; any other
    symbol gives [undefined]. *)
Definition signature_help (find : option Sym) (builtinFunction : list FuncSig) (t : SigTarget)
    : option SignatureHelp :=
  match find with
  | None => builtin_signature builtinFunction false t
  | Some (MethodSym _ _ _ label req opt _) =>
      Some (mkSignatureHelp [method_signature label req opt] 0%nat (activeParameter t))
  | Some _ => None
  end.

(** [/^[ \t]*,/.test(s)]. *)
Definition attach_test (s : jstring) : bool :=
  match drop_while (fun c => (c =? 32) || (c =? 9)) s with
  | 44 :: _ => true
  | _ => false
  end.

(** [lines + context], where [lines] may be [undefined]. *)
Definition js_concat (lines : option jstring) (context : jstring) : jstring :=
  match lines with
  | Some l => l ++ context
  | None => undefined_text ++ context
  end.

Context {Text : Type} `{!Host Text}.

(** [searchNode(lexems, position)] (lines 618-630).  [lexems.reverse()]
    reverses the array in place, so that [lexems[lexems.length-1]] is
    read from the reversed array: it is the word the list started with.
    The callers pass at least one word. *)
Definition searchNode (tm : TreeManager Text) (lexems : list string) (position : Position)
    : option Sym :=
  match docsAST tm !! currentDocUri tm with
  | None => None
  | Some docinfo =>
      let scoop := getCurrentScoop position (process (AST docinfo)) in
      if decide (1 < length lexems)%nat then
        let lexems := reverse lexems in
        let perfixs := take (length lexems - 1) lexems in
        match searchPerfixSymbol perfixs scoop with
        | Some symbol => resolveProp symbol (default "" (lexems !! (length lexems - 1)%nat))
        | None => None
        end
      else
        match lexems with
        | x :: _ => resolve scoop x
        | [] => None
        end
  end.

(** [docSymbolInfo()] (lines 401-405). *)
Definition docSymbolInfo (tm : TreeManager Text) : list SymbolInformation :=
  match docsAST tm !! currentDocUri tm with
  | Some info => symbolInformations (process (AST info))
  | None => []
  end.

(** The completions of the symbols of one include file (lines 448-459):
    each item gets the raw include path appended to its [data]. *)
Definition include_completion (tm : TreeManager Text) (inc : string * string)
    : list CompletionItem :=
  match localAST tm !! uri_file inc.1 with
  | Some info =>
      map (fun node => let c := convertSymCompletion node in
                       set_data (data_append (data c) ("  " +:+ nl +:+ "Include from " +:+ inc.2)) c)
          (allSymbols (process (AST info)))
  | None => []
  end.

(** [getGlobalCompletion()] (lines 438-475). *)
Definition getGlobalCompletion (tm : TreeManager Text) (builtinFunction builtinCommand : list FuncSig)
    : list CompletionItem :=
  let docinfo := if decide (currentDocUri tm = "") then None else docsAST tm !! currentDocUri tm in
  match docinfo with
  | None => []
  | Some docinfo =>
      let symbols := allSymbols (process (AST docinfo)) in
      let incInfo := default [] (incInfos tm !! currentDocUri tm) in
      let incCompletion := mjoin (map (include_completion tm) incInfo) in
      map convertSymCompletion symbols ++ map (builtin_item false) builtinFunction
        ++ map (builtin_item true) builtinCommand ++ incCompletion
  end.

(** [getScopedCompletion(pos, keywordCompletions, builtinVarCompletions)]
    (lines 477-497).  The fuel of [getLexemsAtPosition] is always enough
    ([getLexemsAtPosition_finishes]); when the line is empty there are
    no lexems. *)
Definition getScopedCompletion (tm : TreeManager Text) (pos : Position)
    (keywordCompletions builtinVarCompletions : list CompletionItem)
    (builtinFunction builtinCommand : list FuncSig) : list CompletionItem :=
  match docsAST tm !! currentDocUri tm with
  | None => []
  | Some docinfo =>
      let scoop := getCurrentScoop pos (process (AST docinfo)) in
      let global := getGlobalCompletion tm builtinFunction builtinCommand in
      let lexems := match getLexemsAtPosition (getLine tm) pos with
                    | Some (Some ws) => map text_of ws
                    | _ => []
                    end in
      if decide (1 < length lexems)%nat then
        let perfixs := reverse lexems in
        match searchPerfixSymbol (take (length perfixs - 1) perfixs) scoop with
        | None => []
        | Some symbol => map convertSymCompletion (sym_allSymbols symbol)
        end
      else if decide (scoop_name scoop = "global") then
        global ++ keywordCompletions ++ builtinVarCompletions
      else
        map convertSymCompletion (allSymbols scoop) ++ global ++ keywordCompletions
          ++ builtinVarCompletions
  end.

(** [getDefinitionAtPosition(position)] (lines 850-864): the place of
    definition of a variable, method or class. *)
Definition getDefinitionAtPosition (tm : TreeManager Text) (position : Position) : list Location :=
  match getLexemsAtPosition (getLine tm) position with
  | Some (Some lexems) =>
      match searchNode tm (map text_of lexems) position with
      | Some (VariableSym _ u r _) | Some (MethodSym _ u r _ _ _ _) | Some (ObjectSym _ u r _) =>
          [mkLocation u r]
      | _ => []
      end
  | _ => []
  end.

(** ** The completion of include paths *)

(** [/^\s*#include/i]: the length of the match, if any.  Without the
    [u] flag, [Canonicalize] of ECMAScript maps a code unit to its upper
    case, except that a code unit of 128 or more never becomes one below
    128: a code unit matches a letter of [#include] exactly when its
    ASCII lower case is that letter, so ASCII folding is the whole of
    the [i] flag here. *)
Definition include_directive : jstring := [35; 105; 110; 99; 108; 117; 100; 101].

Definition lower_unit (c : Z) : Z := if (65 <=? c) && (c <=? 90) then c + 32 else c.

Definition include_match (context : jstring) : option nat :=
  let ws := take_while is_js_space context in
  let rest := drop (length ws) context in
  if decide (map lower_unit (take 8 rest) = include_directive) then Some (length ws + 8)%nat
  else None.

(** [s.trim()]. *)
Definition trim (s : jstring) : jstring := trimRight (drop_while is_js_space s).

(** The directory loop of [includeDirCompletion] (lines 553-560): after a
    directory with entries the loop stops, unless the path is ['<']. *)
Fixpoint dir_loop (lt_only : bool) (completions : list (string * bool)) (dirs : list string)
    : list (string * bool) :=
  match dirs with
  | [] => completions
  | dir :: rest =>
      let completions := completions ++ statDirectory dir in
      if bool_decide (0 < length completions)%nat && negb lt_only then completions
      else dir_loop lt_only completions rest
  end.

(** The directories searched for the path [p] of the line (lines
    540-552). *)
Definition include_dirs (docDir : string) (p : jstring) : list string :=
  match p with
  | 60 :: rest =>
      let np := normalize (text_of rest) in
      [normalize (docDir +:+ "\Lib\" +:+ np); normalize (ULibDir +:+ "\" +:+ np);
       normalize (SLibDir +:+ "\" +:+ np)]
  | _ => [normalize (docDir +:+ "\" +:+ normalize (text_of p))]
  end.

(** [includeDirCompletion(position)] (lines 531-569). *)
Definition includeDirCompletion (tm : TreeManager Text) (position : Position)
    : option (list CompletionItem) :=
  match LineTextToPosition tm position with
  | None | Some [] => None
  | Some context =>
      match include_match context with
      | None => None
      | Some n =>
          let p := trim (drop n context) in
          let docDir := dirname (uri_fsPath (currentDocUri tm)) in
          let completions := dir_loop (bool_decide (p = [60])) [] (include_dirs docDir p) in
          Some (map (fun '((path, folder) : string * bool) => create path (if folder then KFolder else KFile) DataNone)
                    completions)
      end
  end.

(** ** Signature help *)

(** The joining of the previous lines (lines 697-705): while the line
    read starts with a comma, the line before it is read and put in
    front.  [None] when the fuel runs out. *)
Fixpoint attach_loop (fuel : nat) (tm : TreeManager Text) (linenum : Z) (lines : option jstring)
    (context : jstring) : option jstring :=
  match fuel with
  | O => None
  | S f =>
      match lines with
      | None | Some [] => Some context
      | Some l =>
          if attach_test l then
            let lines := getLine tm (linenum - 1) in
            attach_loop f tm (linenum - 1) lines (js_concat lines context)
          else Some context
      end
  end.

(** The text [getFuncAtPosition] parses (lines 688-706); [Some None] is
    [undefined], [None] the end of the fuel. *)
Definition func_context (fuel : nat) (tm : TreeManager Text) (position : Position)
    : option (option jstring) :=
  match LineTextToPosition tm position with
  | None | Some [] => Some None
  | Some context =>
      if attach_test context then
        let lines := getLine tm (line position - 1) in
        Some <$> attach_loop fuel tm (line position - 1) lines (js_concat lines context)
      else Some (Some context)
  end.

(** The [SemanticStack] that [treeManager.ts] imports (line 36,
    [../parser/regParser/semantic_stack]) is not among the sources.
    [getFuncAtPosition] uses one method of it, [statement()] on the text
    of the line: that is the class [LineParser], the result being
    [undefined], a node, an exception ([Throw]) or the end of the fuel.
    The [SemanticStack] of [src/server/src/semantic_stack.ts] is an
    instance ([semantic_line_parser] below). *)
Class LineParser := line_statement : nat -> jstring -> outcome string (option NodeResult).

Context `{!LineParser}.

(** [getFuncAtPosition(position)] (lines 687-793): the text before the
    cursor is parsed by the [SemanticStack]; an exception gives
    [undefined].  A command is looked up among the built-in commands
    first (lines 749-760); when none matches it goes on as a function.
    [None] is the end of the fuel. *)
Definition getFuncAtPosition (fuel : nat) (tm : TreeManager Text) (position : Position)
    (builtinFunction builtinCommand : list FuncSig) : option (option SignatureHelp) :=
  match func_context fuel tm position with
  | None => None
  | Some None => Some None
  | Some (Some context) =>
      match line_statement fuel context with
      | OutOfFuel => None
      | Throw _ | Ok None => Some None
      | Ok (Some stmt) =>
          match signature_target stmt with
          | Some t =>
              let cmd := if target_command t then builtin_signature builtinCommand true t
                         else None in
              match cmd with
              | Some h => Some (Some h)
              | None => Some (signature_help (searchNode tm (target_lexems t) position)
                                builtinFunction t)
              end
          | None => Some None
          end
      end
  end.

End Search.

(** The [SemanticStack] of [src/server/src/semantic_stack.ts] as a line
    parser: [new SemanticStack(context).statement()]. *)
#[export] Instance semantic_line_parser {T : Type} `{!SemTokenizer jstring T} : LineParser :=
  fun fuel context => fst (statement fuel (semantic_stack context)).

(** ** The trees of [regParser] *)

(** [ISymbolNode] of [parser/regParser/types] (not among the sources): a
    name, a [SymbolKind], a range, the parameters of an [IFuncNode] and,
    for a scope, its sub-nodes. *)
Inductive ISymbolNode : Set :=
| mkSymbolNode (sn_name : string) (sn_kind : nat) (sn_range : Range)
    (params : option (list string)) (subnode : option (list ISymbolNode)).

Definition sn_range_of (n : ISymbolNode) : Range := match n with mkSymbolNode _ _ r _ _ => r end.
Definition sn_kind_of (n : ISymbolNode) : nat := match n with mkSymbolNode _ k _ _ _ => k end.

(** [isFuncNode(node)] (lines 57-59). *)
Definition isFuncNode (n : ISymbolNode) : bool :=
  match n with mkSymbolNode _ _ _ (Some _) _ => true | _ => false end.

(** [SymbolKind.Function] of [vscode-languageserver]. *)
Definition SymbolKind_Function : nat := 12.

(** [convertParamsCompletion(node)] (lines 425-436): the parameters of a
    function as variables.  The cast [<IFuncNode>node] is not checked: a
    node of kind [Function] without [params] makes [params.map] throw
    a [TypeError], which is [None]. *)
Definition convertParamsCompletion (node : ISymbolNode) : option (list CompletionItem) :=
  match node with
  | mkSymbolNode _ k _ ps _ =>
      if decide (k = SymbolKind_Function) then
        match ps with
        | Some ps => Some (map (fun p => mkItem p KVariable (Some (DataText ("(parameter) " +:+ p)))
                                       DataNone None) ps)
        | None => None
        end
      else Some []
  end.

(** The loop over the nodes of a tree in [searchNodeAtPosition]: the
    first node that answers ends it. *)
Fixpoint first_answer (f : ISymbolNode -> option (option ISymbolNode)) (tree : list ISymbolNode)
    : option ISymbolNode :=
  match tree with
  | [] => None
  | node :: rest =>
      match f node with
      | Some r => r
      | None => first_answer f rest
      end
  end.

(** One round of the loop (lines 644-656): [None] is [continue]. *)
Fixpoint search_node (pos : Position) (kind : option nat) (node : ISymbolNode)
    : option (option ISymbolNode) :=
  match node with
  | mkSymbolNode _ k r _ sub =>
      if (line (r_start r) <? line pos) && (line pos <? line (r_end r)) then
        match sub with
        | Some sub =>
            if (if kind is Some k' then negb (bool_decide (k = k')) else false) then None
            else
              match first_answer (search_node pos kind) sub with
              | Some n => Some (Some n)
              | None => Some (Some node)
              end
        | None => None
        end
      else None
  end.

(** [searchNodeAtPosition(pos, tree, kind)] (lines 642-660): the deepest
    scope whose lines strictly hold the position; a node of another
    kind than [kind] is passed over. *)
Definition searchNodeAtPosition (pos : Position) (tree : list ISymbolNode) (kind : option nat)
    : option ISymbolNode :=
  first_answer (search_node pos kind) tree.

(** ** Examples *)

(** A host whose documents are their lines and include nothing. *)
Definition js_text (t : jstring) : string :=
  String.string_of_list_ascii (map (fun c => Ascii.ascii_of_N (Z.to_N c)) t).

Definition js_of (s : string) : jstring :=
  map (fun a => Z.of_N (Ascii.N_of_ascii a)) (String.list_ascii_of_string s).

#[export] Instance LineHost : Host (list jstring) := {
  parse_text _ := mkIAST (mkScript [] [] [] []) [] [];
  doc_lines t := t;
  io_load _ := None;
  fileExistsSync _ := false;
  uri_file := ex_uri_file;
  uri_fsPath := ex_fsPath;
  normalize s := s;
  extname := ex_extname;
  dirname := ex_dirname;
  homedir := "C:\Users\u";
  statDirectory d := ex_dir d;
  text_of := js_text
}.

Definition ex_range (l : Z) : Range := mkRange (mkPosition l 0) (mkPosition (l + 2) 0).

(** The table of the examples: a class [C] with a method [m] and an inner
    class [Inner], a variable [v] and a function [f]. *)
Definition ex_table : Scoop :=
  MkScoop "global"
    [ObjectSym "C" uriA (ex_range 10)
       (MkScoop "C" [MethodSym "m" uriA (ex_range 11) "m(x, y?)" ["x"] ["y"] (MkScoop "m" []);
                     ObjectSym "Inner" uriA (ex_range 12)
                       (MkScoop "Inner" [VariableSym "p" uriA (ex_range 13) true])]);
     VariableSym "v" uriA (ex_range 1) false;
     MethodSym "f" uriA (ex_range 3) "f(a)" ["a"] [] (MkScoop "f" [VariableSym "a" uriA (ex_range 3) false])].

Definition find_sym (n : string) (l : list Sym) : option Sym :=
  list_find_first (fun s => bool_decide (sym_name s = n)) l.

(** An analyzer that resolves a name among the symbols of the scope and
    then of the global table. *)
#[export] Instance ExAnalyzer : Analyzer := {
  process _ := ex_table;
  resolve sc n := match find_sym n (allSymbols sc) with
                  | Some s => Some s
                  | None => find_sym n (allSymbols ex_table)
                  end;
  resolveProp s n := find_sym n (sym_allSymbols s);
  symbolInformations sc := map (fun s => mkSymbolInformation (sym_name s) uriA (ex_range 0)) (allSymbols sc)
}.

(** A Tree Manager whose current document [main.ahk] has the given lines
    and has been parsed. *)
Definition tm_lines (ls : list jstring) : TreeManager (list jstring) :=
  mkTreeManager {[uriA := ls]} {[uriA := mkDocInfo (parse_text ls) []]} ∅ ∅ uriA.

(** A tokenizer for the examples, in place of [./tokenizer]: names and
    numbers, the punctuation of calls and [:=], each token with the
    character that follows it. *)
Definition is_name_unit (c : Z) : bool :=
  ((65 <=? c) && (c <=? 90)) || ((97 <=? c) && (c <=? 122)) || ((48 <=? c) && (c <=? 57)) || (c =? 95).

Definition punct_type (c : Z) : Legacy.TokenType.type :=
  if c =? 40 then Legacy.TokenType.openParen
  else if c =? 41 then Legacy.TokenType.closeParen
  else if c =? 44 then Legacy.TokenType.comma
  else if c =? 46 then Legacy.TokenType.dot
  else if c =? 61 then Legacy.TokenType.equal
  else if c =? 43 then Legacy.TokenType.plus
  else Legacy.TokenType.unknown.

Definition next_char (s : jstring) : string := js_text (take 1 s).

Fixpoint lex (fuel : nat) (s : jstring) (pos : Z) : list (Legacy.Token * string) :=
  match fuel with
  | O => []
  | S f =>
      match s with
      | [] => []
      | c :: r =>
          if (c =? 32) || (c =? 9) then lex f r (pos + 1)
          else if is_name_unit c then
            let w := take_while is_name_unit s in
            let rest := drop (length w) s in
            let n := Z.of_nat (length w) in
            let ty := if forallb (fun c => (48 <=? c) && (c <=? 57)) w
                      then Legacy.TokenType.number else Legacy.TokenType.id in
            (Legacy.createToken ty (js_text w) pos (pos + n), next_char rest) :: lex f rest (pos + n)
          else match r with
               | 61 :: r' => if c =? 58 then
                               (Legacy.createToken Legacy.TokenType.aassign ":=" pos (pos + 2), next_char r')
                                 :: lex f r' (pos + 2)
                             else (Legacy.createToken (punct_type c) (js_text [c]) pos (pos + 1), next_char r)
                                    :: lex f r (pos + 1)
               | _ => (Legacy.createToken (punct_type c) (js_text [c]) pos (pos + 1), next_char r)
                        :: lex f r (pos + 1)
               end
      end
  end.

Definition lex_line (s : jstring) : list (Legacy.Token * string) * Z :=
  (lex (length s) s 0, Z.of_nat (length s)).

#[export] Instance LexTokenizer : SemTokenizer jstring ListTokenizer := {
  tokenizer_new d := tokenizer_new (lex_line d);
  Reset t d := Reset t (lex_line d);
  GetNextToken := GetNextToken;
  currChar := currChar
}.

(** ** Properties *)

Section Properties.
Context `{!Analyzer} {Text : Type} `{!Host Text}.

(** [getLine] gives an empty text for a line before the first. *)
Lemma getLine_before_start tm ln :
  ln < 0 -> getLine tm ln = None \/ getLine (Text:=Text) tm ln = Some [].
Proof.
  intros Hln. unfold getLine, line_of. case_decide; [auto|].
  destruct (serverDocs tm !! currentDocUri tm); simpl; [|auto].
  rewrite (proj2 (Z.ltb_lt ln 0) Hln). auto.
Qed.

(** The prefixes after the [reverse] of [searchNode] and
    [getScopedCompletion]: all the words but the one that came first,
    the outermost first. *)
Lemma take_reverse_cons {A} (x : A) (ps : list A) :
  take (length (reverse (x :: ps)) - 1) (reverse (x :: ps)) = reverse ps.
Proof.
  rewrite reverse_cons, length_app, length_reverse. simpl.
  rewrite Nat.add_sub, <-(length_reverse ps). apply take_app_length.
Qed.

Lemma last_reverse_cons {A} (x : A) (ps : list A) :
  reverse (x :: ps) !! (length (reverse (x :: ps)) - 1)%nat = Some x.
Proof.
  rewrite reverse_cons, length_app, length_reverse. simpl.
  rewrite Nat.add_sub, <-(length_reverse ps), lookup_app_r by lia. by rewrite Nat.sub_diag.
Qed.

Lemma take_reverse_snoc {A} (ws : list A) w :
  ws <> [] -> take (length (reverse (ws ++ [w])) - 1) (reverse (ws ++ [w])) =
                w :: take (length ws - 1) (reverse ws).
Proof.
  intros Hws. rewrite reverse_app, length_app, length_reverse. simpl.
  destruct ws as [|y ws]; [done|]. simpl. by rewrite !Nat.sub_0_r, length_reverse.
Qed.

(** (C13) [searchNode] on the words [x :: ps] of a dotted name (the word
    at the cursor first, then its prefixes innermost first) follows the
    prefixes from the outermost one and looks the word [x] up among the
    properties of the class found.  The in-place [lexems.reverse()] is
    what makes [lexems[lexems.length-1]] the word [x]. *)
Theorem searchNode_suffix_last tm x ps pos docinfo :
  docsAST tm !! currentDocUri tm = Some docinfo -> ps <> [] ->
  searchNode (Text:=Text) tm (x :: ps) pos =
    searchPerfixSymbol (reverse ps) (getCurrentScoop pos (process (AST docinfo)))
      ≫= (fun sym => resolveProp sym x).
Proof.
  intros Hd Hps. unfold searchNode. rewrite Hd.
  destruct ps as [|p ps]; [done|]. rewrite decide_True by (simpl; lia).
  rewrite take_reverse_cons, last_reverse_cons. simpl.
  by destruct (searchPerfixSymbol _ _).
Qed.

(** (C17) After a dot whose outermost prefix does not name a class (a
    variable that holds an object, a function, or a name that is not
    found), the completion list is empty: [getScopedCompletion] returns
    [[]] when [searchPerfixSymbol] finds nothing, without the global
    names, keywords or built-ins. *)
Theorem completion_after_non_class_dot tm pos docinfo ws w kw bv bf bc :
  docsAST tm !! currentDocUri tm = Some docinfo ->
  getLexemsAtPosition (getLine tm) pos = Some (Some (ws ++ [w])) -> ws <> [] ->
  match resolve (getCurrentScoop pos (process (AST docinfo))) (text_of w) with
  | Some sym => is_object sym = false
  | None => True
  end ->
  getScopedCompletion (Text:=Text) tm pos kw bv bf bc = [].
Proof.
  intros Hd Hl Hws Hr. unfold getScopedCompletion. rewrite Hd, Hl, map_app.
  rewrite decide_True by (rewrite length_app, length_map; destruct ws; simpl; [done | lia]).
  cbv zeta. change (map text_of [w]) with [text_of w].
  rewrite take_reverse_snoc by (by destruct ws). simpl.
  destruct (resolve _ (text_of w)) as [sym|]; [|done]. by rewrite Hr.
Qed.

(** (C18) The joining of previous lines in [getFuncAtPosition] ends: it
    moves one line up a round, and a line before the first is empty, so
    from line [n] it takes at most [n + 1] rounds. *)
Theorem attach_previous_lines_terminates fuel tm linenum context :
  (Z.to_nat (linenum + 1) < fuel)%nat ->
  attach_loop (Text:=Text) fuel tm linenum (getLine tm linenum) context <> None.
Proof.
  revert linenum context. induction fuel as [|f IH]; intros linenum context Hf; [lia|]. simpl.
  destruct (getLine tm linenum) as [[|c l]|] eqn:E; [done| |done].
  destruct (attach_test _); [|done].
  destruct (Z_lt_le_dec linenum 0) as [Hn|Hn].
  - destruct (getLine_before_start tm linenum Hn); congruence.
  - apply IH. lia.
Qed.

(** So [getFuncAtPosition] reads its text within [n + 2] units of fuel
    for a position on line [n]. *)
Lemma func_context_finishes fuel tm position :
  (Z.to_nat (line position) + 1 < fuel)%nat ->
  func_context (Text:=Text) fuel tm position <> None.
Proof.
  intros Hf. unfold func_context.
  destruct (LineTextToPosition tm position) as [[|c l]|]; [done| |done].
  destruct (attach_test _); [|done].
  destruct (attach_loop _ _ _ _ _) eqn:E; [done|].
  exfalso. refine (attach_previous_lines_terminates fuel tm _ _ _ E). lia.
Qed.

(** The parameters of a built-in are labelled with [' = '] before their
    default value, where the prototype of the same signature writes
    [' := ']. *)
Lemma builtin_default_labels sym iscmd p d :
  p ∈ fs_params sym -> defaultVal p = Some d -> d <> "" ->
  exists info, convertBuiltin2Signature [sym] iscmd = Some [info] /\
    builtin_param_label p ∈ si_parameters info /\
    builtin_param_label p = fp_name p +:+ (if isOptional p then "?" else "") +:+ " = " +:+ d /\
    param_text p = fp_name p +:+ (if isOptional p then "?" else "") +:+ " := " +:+ d.
Proof.
  intros Hp Hd Hne. eexists. split; [reflexivity|]. simpl. split.
  - by apply list_elem_of_fmap_2.
  - unfold builtin_param_label, param_text. rewrite Hd, !decide_False by done. by split.
Qed.
End Properties.

(** ** Witnesses *)

Definition pos0 : Position := mkPosition 0 0.

Lemma searchNode_suffix_last_witness :
  searchNode (tm_lines []) ["m"; "C"] pos0 =
    searchPerfixSymbol ["C"] (getCurrentScoop pos0 (process (AST (mkDocInfo (parse_text []) []))))
      ≫= (fun sym => resolveProp sym "m").
Proof.
  exact (searchNode_suffix_last (tm_lines []) "m" ["C"] pos0 (mkDocInfo (parse_text []) [])
           ltac:(reflexivity) ltac:(discriminate)).
Defined.

(** [v.] at the end of the line: [v] is a variable. *)
Lemma completion_after_non_class_dot_witness :
  getScopedCompletion (tm_lines [js_of "v."]) (mkPosition 0 2) [] [] [] [] = [].
Proof.
  exact (completion_after_non_class_dot (tm_lines [js_of "v."]) (mkPosition 0 2)
           (mkDocInfo (parse_text [js_of "v."]) []) [[]] (js_of "v") [] [] [] []
           ltac:(reflexivity) ltac:(vm_compute; reflexivity) ltac:(discriminate)
           ltac:(vm_compute; reflexivity)).
Defined.

Lemma attach_previous_lines_terminates_witness :
  attach_loop 3 (tm_lines [js_of "  f(a"; js_of "  , b"]) 1
    (getLine (tm_lines [js_of "  f(a"; js_of "  , b"]) 1) [] <> None.
Proof. apply attach_previous_lines_terminates. vm_compute. lia. Defined.
