(* ===== verification/Server.v ===== *)
(** * Server: the handlers of [src/server/src/server.ts]

    The language server keeps a [TreeManager] ([DOCManager]), the open
    documents of the library's [TextDocuments], the cache
    [documentSettings], the client capabilities and the global
    settings.  Each handler the file registers is an [Event], and
    [server_handle] is what the handler does to the state and what it
    replies: document events call [initDocument], [updateDocumentAST]
    and [deleteUnusedDocument] of [DocCache]; requests return at once
    when they are cancelled, and otherwise select their document and
    reply with the query of [Queries] they call ([docSymbolInfo],
    [getFuncAtPosition], [getDefinitionAtPosition],
    [includeDirCompletion] or [getScopedCompletion]); [onInitialized]
    and [onDidChangeWatchedFiles] only register or log and keep the
    state.  [server_step]
    keeps the state only.  A handler runs to its end before
    the next one ([updateDocumentAST] is not awaited by its handler, and
    its awaits are not interleaved in the model).

    [reachable] holds of the states the server reaches from its start
    by any sequence of events, and [server_invariant] is what holds in
    all of them: the cache invariant of [DocCache] and an empty
    [documentSettings], since the only function that fills it,
    [getDocumentSettings], is never called.  So [onCompletionResolve]
    never shows the Chinese documentation of a built-in variable;
    [getDocumentSettings] and [flatTree] are modelled all the same. *)

From S2P Require Import Prelude Tokens LegacyTokens SemanticStack TreeQueries DocCache Queries.
From stdpp Require Import gmap.

(** ** Settings and events *)

(** [enum docLangName] (lines 126-129). *)
Inductive docLangName : Set := CN | NO.

#[export] Instance docLangName_eq_dec : EqDecision docLangName.
Proof. solve_decision. Defined.

(** [interface AHKLSSettings] and [defaultSettings] (lines 132-143). *)
Record AHKLSSettings : Set := mkSettings {
  maxNumberOfProblems : Z;
  documentLanguage : docLangName
}.

Definition defaultSettings : AHKLSSettings := mkSettings 1000 NO.

Section Server.
Context {Text : Type} `{!Host Text} `{!Analyzer} `{!LineParser}.
(** The constant completion lists of [server.ts] (lines 59-60) and the
    built-in nodes of the Tree Manager (lines 137-138), built by
    [utilities/constants], which is not among the sources. *)
Variables (keyWordCompletions builtinVariableCompletions : list CompletionItem)
  (builtinFunction builtinCommand : list FuncSig).

(** The handlers registered by the file; a request carries its document,
    its position and whether it was cancelled, a completion request the
    character that triggered it. *)
Inductive Event : Type :=
| Initialize (configuration workspaceFolders : bool)
| Initialized
| DidChangeWatchedFiles
| DidChangeConfiguration (languageServerExample : option AHKLSSettings)
| DidOpen (uri : string) (doc : Text)
| DidChangeContent (uri : string) (doc : Text)
| DidClose (uri : string)
| DocumentSymbol (uri : string)
| SignatureHelpReq (uri : string) (position : Position) (cancelled : bool)
| DefinitionReq (uri : string) (position : Position) (cancelled : bool)
| CompletionReq (uri : string) (position : Position) (triggerCharacter : option string)
    (cancelled : bool).

(** The reply of a handler; notifications reply [NoReply], and [None] in
    a reply is [undefined]. *)
Inductive Reply : Type :=
| NoReply
| SymbolsReply (l : list SymbolInformation)
| SignatureReply (h : option SignatureHelp)
| DefinitionReply (l : option (list Location))
| CompletionReply (l : option (list CompletionItem)).

(** The module-level variables of the server (lines 50-62, 145-148). *)
Record ServerState : Type := mkServer {
  DOCManager : TreeManager Text;
  documents : list (string * Text);
  documentSettings : gmap string AHKLSSettings;
  hasConfigurationCapability : bool;
  hasWorkspaceFolderCapability : bool;
  globalSettings : AHKLSSettings
}.

Definition server_init : ServerState :=
  mkServer tree_manager [] ∅ false false defaultSettings.

Definition with_manager (tm : TreeManager Text) (s : ServerState) : ServerState :=
  mkServer tm (documents s) (documentSettings s) (hasConfigurationCapability s)
    (hasWorkspaceFolderCapability s) (globalSettings s).

(** [TextDocuments] keeps the open documents in the order they were
    opened; a change replaces the text in place. *)
Definition docs_open (uri : string) (doc : Text) (ds : list (string * Text)) :=
  filter (fun d => d.1 <> uri) ds ++ [(uri, doc)].
Definition docs_change (uri : string) (doc : Text) (ds : list (string * Text)) :=
  map (fun d => if decide (d.1 = uri) then (uri, doc) else d) ds.
Definition docs_close (uri : string) (ds : list (string * Text)) :=
  filter (fun d => d.1 <> uri) ds.

(** [onInitialize] (lines 63-111): records the capabilities of the
    client. *)
Definition onInitialize (configuration workspaceFolders : bool) (s : ServerState) : ServerState :=
  mkServer (DOCManager s) (documents s) (documentSettings s) configuration workspaceFolders
    (globalSettings s).

(** [onDidChangeConfiguration] (lines 151-163): clears the cache of
    settings or replaces the global settings. *)
Definition onDidChangeConfiguration (languageServerExample : option AHKLSSettings)
    (s : ServerState) : ServerState :=
  if hasConfigurationCapability s then
    mkServer (DOCManager s) (documents s) ∅ (hasConfigurationCapability s)
      (hasWorkspaceFolderCapability s) (globalSettings s)
  else
    mkServer (DOCManager s) (documents s) (documentSettings s)
      (hasConfigurationCapability s) (hasWorkspaceFolderCapability s)
      (default defaultSettings languageServerExample).

(** [documents.onDidOpen] (lines 237-241). *)
Definition onDidOpen (uri : string) (doc : Text) (s : ServerState) : ServerState :=
  mkServer (initDocument uri doc (DOCManager s)) (docs_open uri doc (documents s))
    (documentSettings s) (hasConfigurationCapability s)
    (hasWorkspaceFolderCapability s) (globalSettings s).

(** [documents.onDidChangeContent] (lines 253-256); [None] when
    [updateDocumentAST] runs out of fuel. *)
Definition onDidChangeContent (fuel : nat) (uri : string) (doc : Text) (s : ServerState)
    : option ServerState :=
  tm ← updateDocumentAST fuel uri doc (DOCManager s);
  Some (mkServer tm (docs_change uri doc (documents s)) (documentSettings s)
          (hasConfigurationCapability s) (hasWorkspaceFolderCapability s) (globalSettings s)).

(** [documents.onDidClose] (lines 244-249). *)
Definition onDidClose (uri : string) (s : ServerState) : ServerState :=
  mkServer (deleteUnusedDocument uri (DOCManager s)) (docs_close uri (documents s))
    (delete uri (documentSettings s)) (hasConfigurationCapability s)
    (hasWorkspaceFolderCapability s) (globalSettings s).

(** The request handlers select the document of the request first. *)
Definition select (uri : string) (s : ServerState) : ServerState :=
  with_manager (selectDocument uri (DOCManager s)) s.

(** [onDocumentSymbol] (lines 192-206). *)
Definition onDocumentSymbol (uri : string) (s : ServerState) : ServerState * Reply :=
  let s := select uri s in (s, SymbolsReply (docSymbolInfo (DOCManager s))).

(** [onSignatureHelp] (lines 208-218); [None] when [getFuncAtPosition]
    runs out of fuel. *)
Definition onSignatureHelp (fuel : nat) (uri : string) (position : Position) (cancelled : bool)
    (s : ServerState) : option (ServerState * Reply) :=
  if cancelled then Some (s, SignatureReply None)
  else
    let s := select uri s in
    r ← getFuncAtPosition fuel (DOCManager s) position builtinFunction builtinCommand;
    Some (s, SignatureReply r).

(** [onDefinition] (lines 220-234). *)
Definition onDefinition (uri : string) (position : Position) (cancelled : bool) (s : ServerState)
    : ServerState * Reply :=
  if cancelled then (s, DefinitionReply None)
  else
    let s := select uri s in
    let locations := getDefinitionAtPosition (DOCManager s) position in
    (s, DefinitionReply (if decide (locations = []) then None else Some locations)).

(** [onCompletion] (lines 270-290): a completion triggered by ['/'] or
    ['<'] is an include completion, and nothing else. *)
Definition onCompletion (uri : string) (position : Position) (triggerCharacter : option string)
    (cancelled : bool) (s : ServerState) : ServerState * Reply :=
  if cancelled then (s, CompletionReply None)
  else
    let s := select uri s in
    if decide (triggerCharacter = Some "/" \/ triggerCharacter = Some "<") then
      (s, CompletionReply (includeDirCompletion (DOCManager s) position))
    else
      (s, CompletionReply (Some (getScopedCompletion (DOCManager s) position keyWordCompletions
                                  builtinVariableCompletions builtinFunction builtinCommand))).

(** [onInitialized] (lines 113-123) registers for configuration and
    workspace-folder notifications with the client, and
    [onDidChangeWatchedFiles] (lines 264-267) only logs: neither changes
    the state of the server. *)
Definition onInitialized (s : ServerState) : ServerState := s.
Definition onDidChangeWatchedFiles (s : ServerState) : ServerState := s.

(** The handler each event runs, to its end, and its reply. *)
Definition server_handle (fuel : nat) (e : Event) (s : ServerState) : option (ServerState * Reply) :=
  match e with
  | Initialize c w => Some (onInitialize c w s, NoReply)
  | Initialized => Some (onInitialized s, NoReply)
  | DidChangeWatchedFiles => Some (onDidChangeWatchedFiles s, NoReply)
  | DidChangeConfiguration st => Some (onDidChangeConfiguration st s, NoReply)
  | DidOpen uri doc => Some (onDidOpen uri doc s, NoReply)
  | DidChangeContent uri doc => s' ← onDidChangeContent fuel uri doc s; Some (s', NoReply)
  | DidClose uri => Some (onDidClose uri s, NoReply)
  | DocumentSymbol uri => Some (onDocumentSymbol uri s)
  | SignatureHelpReq uri pos c => onSignatureHelp fuel uri pos c s
  | DefinitionReq uri pos c => Some (onDefinition uri pos c s)
  | CompletionReq uri pos tr c => Some (onCompletion uri pos tr c s)
  end.

Definition server_step (fuel : nat) (e : Event) (s : ServerState) : option ServerState :=
  fst <$> server_handle fuel e s.

(** The states the server reaches. *)
Inductive reachable : ServerState -> Prop :=
| reach_init : reachable server_init
| reach_step s e fuel s' : reachable s -> server_step fuel e s = Some s' -> reachable s'.

(** ** Resolving a completion item *)

(** [getDocumentSettings(resource)] (lines 165-178), which no code
    calls; [configuration] is the answer of the client to
    [connection.workspace.getConfiguration]. *)
Definition getDocumentSettings (configuration : string -> AHKLSSettings) (resource : string)
    (s : ServerState) : ServerState * AHKLSSettings :=
  if negb (hasConfigurationCapability s) then (s, globalSettings s)
  else
    match documentSettings s !! resource with
    | Some result => (s, result)
    | None =>
        let result := configuration resource in
        (mkServer (DOCManager s) (documents s) (<[resource := result]> (documentSettings s))
           (hasConfigurationCapability s) (hasWorkspaceFolderCapability s) (globalSettings s),
         result)
    end.

(** [flatTree(tree)] (lines 180-190), which no code calls: the nodes of a
    tree in pre-order, but those on line [-1] (the built-in properties). *)
Fixpoint flat_node (info : ISymbolNode) : list ISymbolNode :=
  match info with
  | mkSymbolNode _ _ r _ sub =>
      (if decide (line (r_start r) = -1)%Z then [] else [info]) ++
      match sub with Some sub => mjoin (map flat_node sub) | None => [] end
  end.

Definition flatTree (tree : list ISymbolNode) : list ISymbolNode := mjoin (map flat_node tree).

(** [onCompletionResolve] (lines 294-323); [builtin_variable] of
    [utilities/builtins] gives the Chinese documentation of each
    built-in variable.  [None] is the exception of
    [documents.all()[0].uri] when no document is open. *)
Definition onCompletionResolve (builtin_variable : nat -> string) (s : ServerState)
    (item : CompletionItem) : option CompletionItem :=
  match item_kind item with
  | KFunction | KMethod | KClass =>
      Some (mkItem (item_label item) (item_kind item) (Some (data item)) (data item)
              (documentation item))
  | KVariable =>
      if decide (detail item = Some (DataText "Built-in Variable")) then
        match documents s with
        | [] => None
        | (uri, _) :: _ =>
            match documentSettings s !! uri, data item with
            | Some cfg, DataIndex i =>
                if decide (documentLanguage cfg = CN) then
                  Some (mkItem (item_label item) (item_kind item) (detail item) (data item)
                          (Some (builtin_variable i)))
                else Some item
            | _, _ => Some item
            end
        end
      else Some item
  | _ => Some item
  end.
(** ** The invariant of the server *)

Definition server_invariant (s : ServerState) : Prop :=
  cache_inv (DOCManager s) /\ documentSettings s = ∅.

Lemma select_invariant uri s : server_invariant s -> server_invariant (select uri s).
Proof. intros [Hc Hd]. split; [by apply cache_inv_selectDocument | done]. Qed.

Lemma server_step_invariant fuel e s s' :
  Inj eq eq uri_file ->
  server_invariant s -> server_step fuel e s = Some s' -> server_invariant s'.
Proof.
  intros Hinj Hs Hstep. pose proof Hs as [Hc Hd].
  unfold server_step, server_handle in Hstep. destruct e; simpl in Hstep.
  - injection Hstep as <-. done.
  - injection Hstep as <-. done.
  - injection Hstep as <-. done.
  - injection Hstep as <-. unfold onDidChangeConfiguration. case_match; split; done.
  - injection Hstep as <-. split; [by apply cache_inv_initDocument | done].
  - unfold onDidChangeContent in Hstep.
    destruct (updateDocumentAST _ _ _ _) as [tm|] eqn:Hu; simpl in Hstep; [|done].
    injection Hstep as <-. split; [by eapply cache_inv_updateDocumentAST | done].
  - injection Hstep as <-. split; simpl; [by apply cache_inv_deleteUnusedDocument|].
    by rewrite Hd, delete_empty.
  - injection Hstep as <-. by apply select_invariant.
  - unfold onSignatureHelp in Hstep. destruct cancelled; simpl in Hstep; [by injection Hstep as <-|].
    destruct (getFuncAtPosition _ _ _ _ _); simpl in Hstep; [|done].
    injection Hstep as <-. by apply select_invariant.
  - injection Hstep as <-. unfold onDefinition. destruct cancelled; [done|]. by apply select_invariant.
  - injection Hstep as <-. unfold onCompletion. destruct cancelled; [done|].
    case_decide; by apply select_invariant.
Qed.

(** (C28) In every state the server reaches, by any sequence of events,
    every parsed document is a server document, every file listed in the
    include entries of a document is cached in [localAST], and the cache
    [documentSettings] is empty: [onDidChangeConfiguration] only clears
    it and [getDocumentSettings], which fills it, is never called.  The
    statement needs [URI.file] to map distinct paths to distinct uris, as
    [deleteUnusedDocument] compares the paths of other documents with
    the uri of a cached file. *)
Theorem reachable_server_invariant s :
  Inj eq eq uri_file -> reachable s -> server_invariant s.
Proof.
  intros Hinj Hr. induction Hr as [|s e fuel s' Hr IH Hs].
  - split; [apply cache_inv_init | done].
  - by eapply server_step_invariant.
Qed.

(** (C19) A completion triggered by ['/'] outside an [#include] line
    gives no completion at all: [onCompletion] takes every ['/'] for
    the start of an include path and returns what
    [includeDirCompletion] returns, [undefined] on any other line, so
    typing a division or a path in a string cancels the completion of
    names. *)
Theorem slash_trigger_no_completion uri pos s :
  (forall context, LineTextToPosition (DOCManager (select uri s)) pos = Some context ->
     include_match context = None) ->
  onCompletion uri pos (Some "/") false s = (select uri s, CompletionReply None).
Proof.
  intros Hm. unfold onCompletion. rewrite decide_True by auto. do 2 f_equal.
  unfold includeDirCompletion.
  destruct (LineTextToPosition _ pos) as [[|c l]|] eqn:E; [done| |done].
  by rewrite (Hm _ eq_refl).
Qed.

(** What [getDocumentSettings] would do: called for the first open
    document with a client that answers [CN], it fills the cache, and
    [onCompletionResolve] then gives the documentation of a built-in
    variable. *)
Lemma getDocumentSettings_documentation configuration builtin_variable uri d ds s item i :
  hasConfigurationCapability s = true -> documents s = (uri, d) :: ds ->
  documentSettings s !! uri = None -> documentLanguage (configuration uri) = CN ->
  item_kind item = KVariable -> detail item = Some (DataText "Built-in Variable") ->
  data item = DataIndex i ->
  onCompletionResolve builtin_variable (getDocumentSettings configuration uri s).1 item =
    Some (mkItem (item_label item) KVariable (detail item) (data item) (Some (builtin_variable i))).
Proof.
  intros Hc Hdoc Hn Hcn Hk Hdt Hda. unfold getDocumentSettings. rewrite Hc, Hn. simpl.
  unfold onCompletionResolve. simpl. rewrite Hk, Hdoc, decide_True by done.
  by rewrite lookup_insert_eq, Hda, decide_True.
Qed.

(** So the Chinese documentation of a built-in variable is never given:
    [onCompletionResolve] returns the item unchanged, or fails when no
    document is open. *)
Lemma completion_resolve_no_documentation builtin_variable s item :
  server_invariant s -> item_kind item = KVariable ->
  onCompletionResolve builtin_variable s item = Some item \/
  onCompletionResolve builtin_variable s item = None.
Proof.
  intros [_ Hd] Hk. unfold onCompletionResolve. rewrite Hk.
  case_decide; [|auto]. destruct (documents s) as [|[uri d] ds]; [auto|].
  rewrite Hd, lookup_empty. auto.
Qed.
End Server.

Arguments ServerState Text : clear implicits.

(** ** An example run *)

Lemma ex_uri_file_inj : Inj eq eq ex_uri_file.
Proof. intros p q H. unfold ex_uri_file in H. simpl in H. by repeat injection H as H. Qed.

(** [main.ahk] opened, edited, its completion requested, then closed. *)
Definition ex_trace : list (Event (Text:=list string)) :=
  [DidOpen uriA ["lib.ahk"]; DidChangeContent uriA ["lib.ahk"];
   CompletionReq uriA (mkPosition 0 0) None false; DidClose uriA].

(** The server of the examples: no keyword, built-in variable or
    built-in function, the analyzer [ExAnalyzer] and the tokenizer
    [LexTokenizer] under the line parser [semantic_line_parser]. *)
Definition ex_step (fuel : nat) (e : Event) (s : ServerState (list string))
    : option (ServerState (list string)) :=
  server_step [] [] [] [] fuel e s.

Fixpoint run_trace (fuel : nat) (es : list (Event (Text:=list string)))
    (s : ServerState (list string)) : option (ServerState (list string)) :=
  match es with
  | [] => Some s
  | e :: r => s1 ← ex_step fuel e s; run_trace fuel r s1
  end.

Lemma run_trace_reachable fuel es s s' :
  reachable [] [] [] [] s -> run_trace fuel es s = Some s' ->
  reachable [] [] [] [] s'.
Proof.
  revert s. induction es as [|e es IH]; intros s Hr Hrun; simpl in *; [by injection Hrun as <-|].
  destruct (ex_step fuel e s) as [s1|] eqn:E; simpl in Hrun; [|done].
  apply (IH s1); [by econstructor | done].
Qed.

Lemma reachable_server_invariant_witness :
  server_invariant (default server_init (run_trace 20 ex_trace server_init)).
Proof.
  apply (reachable_server_invariant [] [] [] []); [exact ex_uri_file_inj|].
  apply (run_trace_reachable 20 ex_trace server_init); [constructor | vm_compute; reflexivity].
Defined.

(** [a/] typed on a line of [main.ahk]. *)
Definition ex_slash_server : ServerState (list jstring) :=
  mkServer (tm_lines [js_of "x := a/"]) [(uriA, [js_of "x := a/"])] ∅ false false defaultSettings.

Lemma slash_trigger_no_completion_witness :
  onCompletion [] [] [] [] uriA (mkPosition 0 7) (Some "/") false ex_slash_server =
    (select uriA ex_slash_server, CompletionReply None).
Proof.
  apply slash_trigger_no_completion. intros context Hc.
  vm_compute in Hc. injection Hc as <-. vm_compute. reflexivity.
Defined.
